(** * Bridge Connection Manager of openclaw-face-server

    A shallow embedding of [src/chat/bridge.service.ts] and the properties
    of its specification stated over that embedding.  The source file holds
    two revisions of [BridgeService]; the definitions follow the later one
    (device identity, challenge/response handshake, outbound queue,
    reconnect timer, event routing).

    Shape of the model
    - JavaScript values are the inductive [JS.jsval]; property access,
      optional chaining, truthiness and [||] follow the language.
    - The manager's [Map<string, BridgeConnection>] holds references: it is
      a [gmap] from client ids to heap addresses, and the objects live in a
      heap.  The closures installed by [connectToGateway] capture the bridge
      object and the socket, so every socket records the client id and the
      heap address it was created for.
    - Sockets, timers and the clock belong to the runtime; the service only
      sees [readyState], [send], [close], [setTimeout], [clearTimeout] and
      [Date.now].
    - Handlers run in a small state monad with exceptions and fuel (the
      drain loop of [handleConnectSuccess] is a [while] loop).
    - Everything the service does to the outside is appended to a trace: a
      frame handed to [ws.send] is recorded as the value [JSON.stringify] is
      applied to, a call of [bridge.onMessage] as the callback's handle and
      its argument.  The callback is not run (the one this repository
      passes, [client.emit], does not call back into the service), and
      logging is left out. *)

From Stdlib Require Import ZArith String Ascii List Bool Lia DecimalString.
From Stdlib.Strings Require Import Byte.
From stdpp Require Import gmap strings list fin_maps sorting.
Import ListNotations.

#[local] Set Warnings "-register-all".
Local Open Scope string_scope.
Local Open Scope list_scope.

(* ===================================================================== *)
(** ** JavaScript values *)
(* ===================================================================== *)

Module JS.

(** Values that can flow through the bridge: whatever [JSON.parse] returns,
    object literals built by the service, and [undefined].  Numbers are
    restricted to integers (timestamps, limits, protocol versions). *)
Inductive jsval : Type :=
| JUndefined
| JNull
| JBool (b : bool)
| JNum (n : Z)
| JStr (s : string)
| JArr (items : list jsval)
| JObj (fields : list (string * jsval)).

(** Own-property lookup in an object literal; a missing key reads as
    [undefined]. *)
Fixpoint assoc (k : string) (fields : list (string * jsval)) : jsval :=
  match fields with
  | [] => JUndefined
  | (k', v) :: rest => if String.eqb k k' then v else assoc k rest
  end.

(** [v.k].  [None] is the [TypeError] raised when [v] is [null] or
    [undefined].  Primitives and arrays have none of the property names the
    service reads ([type], [event], [payload], [ok], [error], [delta],
    [text], [status], [runId], [nonce], [limit]), so they read as
    [undefined]. *)
Definition get (v : jsval) (k : string) : option jsval :=
  match v with
  | JUndefined | JNull => None
  | JObj fields => Some (assoc k fields)
  | _ => Some JUndefined
  end.

(** [v?.k] *)
Definition get_opt (v : jsval) (k : string) : jsval :=
  match get v k with
  | Some x => x
  | None => JUndefined
  end.

(** ToBoolean *)
Definition truthy (v : jsval) : bool :=
  match v with
  | JUndefined | JNull => false
  | JBool b => b
  | JNum n => negb (Z.eqb n 0)
  | JStr s => negb (String.eqb s "")
  | JArr _ | JObj _ => true
  end.

(** [a || b] *)
Definition or_else (a b : jsval) : jsval := if truthy a then a else b.

(** [v === "lit"] for a string literal *)
Definition is_str (v : jsval) (lit : string) : bool :=
  match v with
  | JStr s => String.eqb s lit
  | _ => false
  end.

(** [String(n)] for an integer *)
Definition string_of_Z (n : Z) : string := NilZero.string_of_int (Z.to_int n).

(** The string an element contributes to [Array.prototype.join]:
    [undefined] and [null] give the empty string, everything else its
    [ToString]. *)
Fixpoint join_item (v : jsval) : string :=
  match v with
  | JUndefined | JNull => ""
  | JBool true => "true"
  | JBool false => "false"
  | JNum n => string_of_Z n
  | JStr s => s
  | JArr items => String.concat "," (List.map join_item items)
  | JObj _ => "[object Object]"
  end.

(** [items.join(sep)] *)
Definition join (sep : string) (items : list jsval) : string :=
  String.concat sep (List.map join_item items).

End JS.

Import JS.

(* ===================================================================== *)
(** ** Base64url, as [signMessage] encodes a signature *)
(* ===================================================================== *)

Module Base64Url.

Definition alphabet : list ascii :=
  list_ascii_of_string
    "ABCDEFGHIJKLMNOPQRSTUVWXYZabcdefghijklmnopqrstuvwxyz0123456789+/".

Definition pad : ascii := "="%char.

Definition digit (n : N) : ascii := nth (N.to_nat n) alphabet pad.

(** [Buffer.prototype.toString('base64')] *)
Fixpoint base64 (bs : list byte) : list ascii :=
  match bs with
  | [] => []
  | [a] =>
      let x := Byte.to_N a in
      [digit (x / 4); digit ((x mod 4) * 16); pad; pad]
  | [a; b] =>
      let x := Byte.to_N a in
      let y := Byte.to_N b in
      [digit (x / 4); digit ((x mod 4) * 16 + y / 16);
       digit ((y mod 16) * 4); pad]
  | a :: b :: c :: rest =>
      let x := Byte.to_N a in
      let y := Byte.to_N b in
      let z := Byte.to_N c in
      digit (x / 4) :: digit ((x mod 4) * 16 + y / 16)
        :: digit ((y mod 16) * 4 + z / 64) :: digit (z mod 64)
        :: base64 rest
  end.

(** [.replace(/\+/g, '-').replace(/\//g, '_')] *)
Definition url_char (c : ascii) : ascii :=
  if Ascii.eqb c "+"%char then "-"%char
  else if Ascii.eqb c "/"%char then "_"%char
  else c.

(** [.replace(/=+$/, '')] *)
Definition strip_padding (cs : list ascii) : list ascii :=
  fold_right
    (fun c acc =>
       match acc with
       | [] => if Ascii.eqb c pad then [] else [c]
       | _ => c :: acc
       end)
    [] cs.

Definition encode (bs : list byte) : string :=
  string_of_list_ascii (strip_padding (List.map url_char (base64 bs))).

End Base64Url.

(* ===================================================================== *)
(** ** The service state and what surrounds it *)
(* ===================================================================== *)

Module Bridge.

(** [WebSocket.readyState] *)
Inductive ready_state : Type := CONNECTING | OPEN | CLOSING | CLOSED.

Definition ready_state_eqb (a b : ready_state) : bool :=
  match a, b with
  | CONNECTING, CONNECTING | OPEN, OPEN | CLOSING, CLOSING | CLOSED, CLOSED => true
  | _, _ => false
  end.

(** [interface BridgeConnection].  Sockets, timers and callbacks are held
    by handle; [sessionKey] is optional and never assigned by the service. *)
Record BridgeConnection : Type := mkBridge {
  ws : option nat;
  onMessage : nat;
  reconnectTimeout : option nat;
  authenticated : bool;
  messageQueue : list jsval;
  sessionKey : option string;
}.

(** [interface DeviceIdentity] *)
Record DeviceIdentity : Type := mkIdentity {
  deviceId : string;
  publicKey : string;
  privateKey : list byte;
}.

(** A socket made by [new WebSocket(this.gatewayUrl)] in
    [connectToGateway], with what its four listeners close over
    ([clientId] and [bridge]) and its [readyState]. *)
Record WebSocket : Type := mkSocket {
  ws_clientId : string;
  ws_bridge : nat;
  readyState : ready_state;
}.

(** A pending [setTimeout]: the [clientId] its callback closes over and the
    earliest clock value at which the runtime may run it. *)
Record Timer : Type := mkTimer {
  timer_clientId : string;
  timer_due : Z;
}.

(** What the service does to the outside world, in order. *)
Inductive effect : Type :=
| Sent (w : nat) (frame : jsval)
    (* [ws.send(JSON.stringify(frame))] on socket [w] *)
| Notified (clientId : string) (cb : nat) (msg : jsval)
    (* [bridge.onMessage(msg)], for the bridge found under [clientId] *)
| SocketCreated (w : nat) (clientId : string)
| SocketClosed (w : nat)
    (* [ws.close()] returned normally *)
| TimerSet (t : nat) (clientId : string) (delay : Z)
| TimerCleared (t : nat).

Record state : Type := mkState {
  bridges : gmap string nat;          (* [this.bridges], by reference *)
  heap : gmap nat BridgeConnection;   (* the [BridgeConnection] objects *)
  deviceIdentity : option DeviceIdentity;
  sockets : gmap nat WebSocket;
  timers : gmap nat Timer;            (* pending timers only *)
  clock : Z;                          (* [Date.now()], milliseconds *)
  uuids : nat;                        (* [uuidv4()] calls made so far *)
  next_addr : nat;
  next_socket : nat;
  next_timer : nat;
  trace : list effect;
}.

Definition set_bridges (f : gmap string nat → gmap string nat) (s : state) : state :=
  mkState (f (bridges s)) (heap s) (deviceIdentity s) (sockets s) (timers s)
          (clock s) (uuids s) (next_addr s) (next_socket s) (next_timer s) (trace s).
Definition set_heap (f : gmap nat BridgeConnection → gmap nat BridgeConnection) (s : state) : state :=
  mkState (bridges s) (f (heap s)) (deviceIdentity s) (sockets s) (timers s)
          (clock s) (uuids s) (next_addr s) (next_socket s) (next_timer s) (trace s).
Definition set_sockets (f : gmap nat WebSocket → gmap nat WebSocket) (s : state) : state :=
  mkState (bridges s) (heap s) (deviceIdentity s) (f (sockets s)) (timers s)
          (clock s) (uuids s) (next_addr s) (next_socket s) (next_timer s) (trace s).
Definition set_timers (f : gmap nat Timer → gmap nat Timer) (s : state) : state :=
  mkState (bridges s) (heap s) (deviceIdentity s) (sockets s) (f (timers s))
          (clock s) (uuids s) (next_addr s) (next_socket s) (next_timer s) (trace s).
Definition set_clock (c : Z) (s : state) : state :=
  mkState (bridges s) (heap s) (deviceIdentity s) (sockets s) (timers s)
          c (uuids s) (next_addr s) (next_socket s) (next_timer s) (trace s).
Definition set_uuids (n : nat) (s : state) : state :=
  mkState (bridges s) (heap s) (deviceIdentity s) (sockets s) (timers s)
          (clock s) n (next_addr s) (next_socket s) (next_timer s) (trace s).
Definition set_next_addr (n : nat) (s : state) : state :=
  mkState (bridges s) (heap s) (deviceIdentity s) (sockets s) (timers s)
          (clock s) (uuids s) n (next_socket s) (next_timer s) (trace s).
Definition set_next_socket (n : nat) (s : state) : state :=
  mkState (bridges s) (heap s) (deviceIdentity s) (sockets s) (timers s)
          (clock s) (uuids s) (next_addr s) n (next_timer s) (trace s).
Definition set_next_timer (n : nat) (s : state) : state :=
  mkState (bridges s) (heap s) (deviceIdentity s) (sockets s) (timers s)
          (clock s) (uuids s) (next_addr s) (next_socket s) n (trace s).
Definition log_effect (e : effect) (s : state) : state :=
  mkState (bridges s) (heap s) (deviceIdentity s) (sockets s) (timers s)
          (clock s) (uuids s) (next_addr s) (next_socket s) (next_timer s)
          (trace s ++ [e]).

(** The state after the constructor and [onModuleInit]: no bridges, the
    identity generated at start-up (absent if [onModuleInit] has not run). *)
Definition initial (identity : option DeviceIdentity) (now : Z) : state :=
  mkState ∅ ∅ identity ∅ ∅ now 0 0 0 0 [].

(** Field updates on a [BridgeConnection] object *)
Definition with_ws (w : option nat) (b : BridgeConnection) : BridgeConnection :=
  mkBridge w (onMessage b) (reconnectTimeout b) (authenticated b)
           (messageQueue b) (sessionKey b).
Definition with_reconnectTimeout (t : option nat) (b : BridgeConnection) : BridgeConnection :=
  mkBridge (ws b) (onMessage b) t (authenticated b) (messageQueue b) (sessionKey b).
Definition with_authenticated (f : bool) (b : BridgeConnection) : BridgeConnection :=
  mkBridge (ws b) (onMessage b) (reconnectTimeout b) f (messageQueue b) (sessionKey b).
Definition with_messageQueue (q : list jsval) (b : BridgeConnection) : BridgeConnection :=
  mkBridge (ws b) (onMessage b) (reconnectTimeout b) (authenticated b) q (sessionKey b).

(** [readyState] changes made by the runtime, and by [close()]: a socket
    that is not yet closed starts closing. *)
Definition with_readyState (r : ready_state) (k : WebSocket) : WebSocket :=
  mkSocket (ws_clientId k) (ws_bridge k) r.

Definition closing (k : WebSocket) : WebSocket :=
  match readyState k with
  | CLOSED => k
  | _ => with_readyState CLOSING k
  end.

(** What the service takes from its surroundings: the identifiers [uuidv4]
    hands out, the Ed25519 primitive ([None]: [createPrivateKey] or [sign]
    throws), whether [close()] throws on a given socket, whether
    [new WebSocket(gatewayUrl)] succeeds, and the [GATEWAY_TOKEN] setting. *)
Record Runtime : Type := mkRuntime {
  uuidv4 : nat → string;
  ed25519_sign : list byte → string → option (list byte);
  close_throws : nat → bool;
  socket_ctor_ok : bool;
  GATEWAY_TOKEN : option string;
}.

(** [this.configService.get<string>('GATEWAY_TOKEN', '')] *)
Definition gatewayToken (rt : Runtime) : string :=
  match GATEWAY_TOKEN rt with
  | Some t => t
  | None => ""
  end.

(* --------------------------------------------------------------------- *)
(** *** Handlers as state transformers that may throw or run out of fuel *)
(* --------------------------------------------------------------------- *)

Inductive outcome (A : Type) : Type :=
| Ok (a : A) (s : state)
| Raise (s : state)
| OutOfFuel.
Arguments Ok {A} a s.
Arguments Raise {A} s.
Arguments OutOfFuel {A}.

Definition M (A : Type) : Type := state → outcome A.

Definition ret {A} (a : A) : M A := fun s => Ok a s.
Definition bind {A B} (m : M A) (k : A → M B) : M B :=
  fun s =>
    match m s with
    | Ok a s' => k a s'
    | Raise s' => Raise s'
    | OutOfFuel => OutOfFuel
    end.
Definition throw {A} : M A := fun s => Raise s.
Definition try_catch (body handler : M unit) : M unit :=
  fun s =>
    match body s with
    | Raise s' => handler s'
    | o => o
    end.
Definition gets {A} (f : state → A) : M A := fun s => Ok (f s) s.
Definition modify (f : state → state) : M unit := fun s => Ok tt (f s).

Notation "'do' x <- m ; k" := (bind m (fun x => k))
  (at level 10, x name, m at level 100, k at level 200).
Notation "'do' ' p <- m ; k" := (bind m (fun x => match x with p => k end))
  (at level 10, p pattern, m at level 100, k at level 200).
Notation "m ;; k" := (bind m (fun _ => k))
  (at level 100, k at level 200, right associativity).

(** The state a handler leaves behind, when it returns or throws. *)
Definition final {A} (o : outcome A) : option state :=
  match o with
  | Ok _ s => Some s
  | Raise s => Some s
  | OutOfFuel => None
  end.

(* ===================================================================== *)
(** ** The service *)
(* ===================================================================== *)

Section Service.

Context (rt : Runtime).

(** *** Runtime primitives *)

(** [this.bridges.get(clientId)]: the reference and the object behind it *)
Definition find_bridge (clientId : string) (s : state) : option (nat * BridgeConnection) :=
  match bridges s !! clientId with
  | Some a =>
      match heap s !! a with
      | Some b => Some (a, b)
      | None => None
      end
  | None => None
  end.

(** [this.bridges.has(clientId)] *)
Definition has_bridge (clientId : string) (s : state) : bool :=
  bool_decide (is_Some (bridges s !! clientId)).

(** Assignment to fields of the object at [a] *)
Definition update (a : nat) (f : BridgeConnection → BridgeConnection) : M unit :=
  modify (set_heap (alter f a)).

Definition emit (e : effect) : M unit := modify (log_effect e).

(** [v.k] inside a handler *)
Definition prop (v : jsval) (k : string) : M jsval :=
  match get v k with
  | Some x => ret x
  | None => throw
  end.

(** [uuidv4()] *)
Definition fresh_uuid : M string :=
  do n <- gets uuids;
  modify (set_uuids (S n));;
  ret (uuidv4 rt n).

(** [ws.readyState === WebSocket.OPEN] *)
Definition is_open (w : nat) (s : state) : bool :=
  match sockets s !! w with
  | Some k => ready_state_eqb (readyState k) OPEN
  | None => false
  end.

(** [ws.send(JSON.stringify(frame))] on an open socket *)
Definition ws_send (w : nat) (frame : jsval) : M unit := emit (Sent w frame).

(** [ws.close()]: starts the closing handshake unless the socket is already
    closed; the runtime may make it throw. *)
Definition ws_close (w : nat) : M unit :=
  if close_throws rt w then throw
  else
    modify (set_sockets (alter closing w));;
    emit (SocketClosed w).

(** [setTimeout(callback, delay)], the callback closing over [clientId] *)
Definition setTimeout (clientId : string) (delay : Z) : M nat :=
  do t <- gets next_timer;
  do now <- gets clock;
  modify (set_next_timer (S t));;
  modify (set_timers (insert t (mkTimer clientId (now + delay))));;
  emit (TimerSet t clientId delay);;
  ret t.

(** [clearTimeout(handle)] *)
Definition clearTimeout (t : nat) : M unit :=
  modify (set_timers (delete t));;
  emit (TimerCleared t).

(** [new WebSocket(this.gatewayUrl)] with its listeners closing over
    [clientId] and the bridge object at [a] *)
Definition new_socket (clientId : string) (a : nat) : M nat :=
  if socket_ctor_ok rt then
    do w <- gets next_socket;
    modify (set_next_socket (S w));;
    modify (set_sockets (insert w (mkSocket clientId a CONNECTING)));;
    emit (SocketCreated w clientId);;
    ret w
  else throw.

(** *** [signMessage] *)
Definition signMessage (message : string) : M string :=
  do identity <- gets deviceIdentity;
  match identity with
  | None => throw
  | Some d =>
      match ed25519_sign rt (privateKey d) message with
      | Some signature => ret (Base64Url.encode signature)
      | None => throw
      end
  end.

(** *** [closeBridge] *)
Definition closeBridge (clientId : string) : M unit :=
  do found <- gets (find_bridge clientId);
  match found with
  | None => ret tt
  | Some (_, bridge) =>
      match reconnectTimeout bridge with
      | Some t => clearTimeout t
      | None => ret tt
      end;;
      match ws bridge with
      | Some w => try_catch (ws_close w) (ret tt)
      | None => ret tt
      end;;
      modify (set_bridges (delete clientId))
  end.

(** *** [connectToGateway] *)
Definition connectToGateway (clientId : string) : M unit :=
  do found <- gets (find_bridge clientId);
  match found with
  | None => ret tt
  | Some (a, _) =>
      try_catch
        (do w <- new_socket clientId a;
         update a (with_ws (Some w)))
        (ret tt)
  end.

(** *** [createBridge] *)

(** [const bridge = { ws: null, onMessage, authenticated: false,
    messageQueue: [] }; this.bridges.set(clientId, bridge)] *)
Definition install (clientId : string) (cb : nat) : M unit :=
  do a <- gets next_addr;
  modify (set_next_addr (S a));;
  modify (set_heap (insert a (mkBridge None cb None false [] None)));;
  modify (set_bridges (insert clientId a)).

Definition createBridge (clientId : string) (cb : nat) : M unit :=
  do present <- gets (has_bridge clientId);
  (if present then closeBridge clientId else ret tt);;
  install clientId cb;;
  connectToGateway clientId.

(** *** [convertToGatewayFormat] *)
Definition session_key_of (found : option (nat * BridgeConnection)) : jsval :=
  or_else
    match found with
    | Some (_, bridge) =>
        match sessionKey bridge with
        | Some k => JStr k
        | None => JUndefined
        end
    | None => JUndefined
    end
    (JStr "main").

Definition convertToGatewayFormat (clientId : string) (message : jsval) : M jsval :=
  do found <- gets (find_bridge clientId);
  do type <- prop message "type";
  if is_str type "message" && truthy (get_opt message "text") then
    do reqId <- fresh_uuid;
    ret (JObj [("type", JStr "req");
               ("id", JStr reqId);
               ("method", JStr "agent");
               ("params", JObj [("message", get_opt message "text");
                                ("sessionKey", session_key_of found);
                                ("idempotencyKey", JStr reqId)])])
  else if is_str type "history" then
    do id <- fresh_uuid;
    ret (JObj [("type", JStr "req");
               ("id", JStr id);
               ("method", JStr "sessions.history");
               ("params", JObj [("sessionKey", session_key_of found);
                                ("limit", or_else (get_opt message "limit") (JNum 50))])])
  else ret message.

(** *** [sendMessage] *)
Definition sendMessage (clientId : string) (message : jsval) : M unit :=
  do found <- gets (find_bridge clientId);
  match found with
  | None => ret tt
  | Some (a, bridge) =>
      if negb (authenticated bridge) then
        update a (fun b => with_messageQueue (messageQueue b ++ [message]) b)
      else
        do live <- gets (fun s => match ws bridge with
                                  | Some w => is_open w s
                                  | None => false
                                  end);
        if negb live then
          update a (fun b => with_messageQueue (messageQueue b ++ [message]) b)
        else
          do gatewayMessage <- convertToGatewayFormat clientId message;
          match ws bridge with
          | Some w => ws_send w gatewayMessage
          | None => ret tt
          end
  end.

(** *** [sendRaw] *)
Definition sendRaw (clientId : string) (message : jsval) : M unit :=
  do found <- gets (find_bridge clientId);
  match found with
  | Some (_, bridge) =>
      match ws bridge with
      | Some w =>
          do live <- gets (is_open w);
          if live then ws_send w message else ret tt
      | None => ret tt
      end
  | None => ret tt
  end.

(** *** [handleConnectChallenge] *)
Definition scopes : list jsval := [JStr "operator.read"; JStr "operator.write"].

(** The string that is signed:
    ["v2|deviceId|clientId|clientMode|role|scopes|signedAt|token|nonce"] *)
Definition signaturePayload (d : DeviceIdentity) (signedAt : Z) (nonce : jsval) : string :=
  join "|" [JStr "v2";
            JStr (deviceId d);
            JStr "cli";
            JStr "cli";
            JStr "operator";
            JStr (join "," scopes);
            JStr (string_of_Z signedAt);
            or_else (JStr (gatewayToken rt)) (JStr "");
            nonce].

Definition connectRequest (d : DeviceIdentity) (id signature : string)
    (signedAt : Z) (nonce : jsval) : jsval :=
  JObj [("type", JStr "req");
        ("id", JStr id);
        ("method", JStr "connect");
        ("params", JObj [
           ("minProtocol", JNum 3);
           ("maxProtocol", JNum 3);
           ("client", JObj [("id", JStr "cli");
                            ("version", JStr "1.0.0");
                            ("platform", JStr "linux");
                            ("mode", JStr "cli")]);
           ("role", JStr "operator");
           ("scopes", JArr scopes);
           ("caps", JArr []);
           ("commands", JArr []);
           ("permissions", JObj []);
           ("auth", JObj [("token", JStr (gatewayToken rt))]);
           ("locale", JStr "en-US");
           ("userAgent", JStr "openclaw-face-bridge/1.0.0");
           ("device", JObj [("id", JStr (deviceId d));
                            ("publicKey", JStr (publicKey d));
                            ("signature", JStr signature);
                            ("signedAt", JNum signedAt);
                            ("nonce", nonce)])])].

Definition handleConnectChallenge (clientId : string) (payload : jsval) : M unit :=
  do found <- gets (find_bridge clientId);
  do identity <- gets deviceIdentity;
  match found, identity with
  | Some (_, bridge), Some d =>
      match ws bridge with
      | None => ret tt
      | Some _ =>
          do signedAt <- gets clock;
          do nonce <- prop payload "nonce";
          try_catch
            (do signature <- signMessage (signaturePayload d signedAt nonce);
             do id <- fresh_uuid;
             sendRaw clientId (connectRequest d id signature signedAt nonce))
            (ret tt)
      end
  | _, _ => ret tt
  end.

(** *** [handleConnectSuccess] *)

(** [while (bridge.messageQueue.length > 0) { shift; sendMessage }], the
    local [bridge] being the object at [a] *)
Fixpoint drain (fuel : nat) (clientId : string) (a : nat) : M unit :=
  do queue <- gets (fun s => match heap s !! a with
                             | Some b => messageQueue b
                             | None => []
                             end);
  match queue with
  | [] => ret tt
  | queuedMsg :: rest =>
      match fuel with
      | O => fun _ => OutOfFuel
      | S fuel' =>
          update a (with_messageQueue rest);;
          sendMessage clientId queuedMsg;;
          drain fuel' clientId a
      end
  end.

Definition gateway_connected : jsval :=
  JObj [("type", JStr "gateway_connected");
        ("payload", JObj [("status", JStr "connected")])].

Definition handleConnectSuccess (fuel : nat) (clientId : string) (payload : jsval) : M unit :=
  do found <- gets (find_bridge clientId);
  match found with
  | None => ret tt
  | Some (a, bridge) =>
      update a (with_authenticated true);;
      drain fuel clientId a;;
      emit (Notified clientId (onMessage bridge) gateway_connected)
  end.

(** *** [handleAgentEvent] *)
Definition handleAgentEvent (clientId : string) (payload : jsval) : M unit :=
  do found <- gets (find_bridge clientId);
  match found with
  | None => ret tt
  | Some (_, bridge) =>
      do delta <- prop payload "delta";
      if truthy (get_opt delta "text") then
        emit (Notified clientId (onMessage bridge)
                (JObj [("type", JStr "response");
                       ("content", get_opt delta "text");
                       ("streaming", JBool true);
                       ("runId", get_opt payload "runId")]))
      else
        do status <- prop payload "status";
        if is_str status "completed" || is_str status "done" then
          emit (Notified clientId (onMessage bridge)
                  (JObj [("type", JStr "response_complete");
                         ("runId", get_opt payload "runId")]))
        else ret tt
  end.

(** *** [handleGatewayMessage] *)
Definition ignoredEvents : list string :=
  ["tick"; "health"; "presence"; "heartbeat"; "shutdown"].

(** [ignoredEvents.includes(message.event || '')] *)
Definition is_ignored (event : jsval) : bool :=
  existsb (is_str (or_else event (JStr ""))) ignoredEvents.

Definition handleGatewayMessage (fuel : nat) (clientId : string) (message : jsval) : M unit :=
  do found <- gets (find_bridge clientId);
  match found with
  | None => ret tt
  | Some (_, bridge) =>
      (* reading a property of [message] throws only when [message] is
         [null]; the reads are made once, ahead of the tests using them *)
      do type <- prop message "type";
      do event <- prop message "event";
      do ok <- prop message "ok";
      do payload <- prop message "payload";
      if is_str type "event" && is_str event "connect.challenge" then
        handleConnectChallenge clientId payload
      else if is_str type "res" && truthy ok
              && is_str (get_opt payload "type") "hello-ok" then
        handleConnectSuccess fuel clientId payload
      else if is_str type "res" && negb (truthy ok) then
        do error <- prop message "error";
        emit (Notified clientId (onMessage bridge)
                (JObj [("type", JStr "error"); ("error", error)]))
      else if is_str type "event" && is_str event "agent" then
        handleAgentEvent clientId payload
      else if is_str type "event" && is_str event "chat" then
        emit (Notified clientId (onMessage bridge) payload)
      else if is_str type "event" && is_ignored event then
        ret tt
      else if is_str type "res" then
        emit (Notified clientId (onMessage bridge) message)
      else ret tt
  end.

(** *** The listeners installed by [connectToGateway] and the timer callback

    Each listener of socket [w] closes over the [clientId] and the bridge
    object the socket was created for. *)

(** [ws.on('open', ...)] *)
Definition on_open (w : nat) (k : WebSocket) : M unit :=
  update (ws_bridge k) (with_ws (Some w)).

(** [ws.on('message', ...)]; [data] is [None] when [JSON.parse] throws *)
Definition on_message (fuel : nat) (k : WebSocket) (data : option jsval) : M unit :=
  try_catch
    match data with
    | Some message => handleGatewayMessage fuel (ws_clientId k) message
    | None => throw
    end
    (ret tt).

(** The first two assignments of [ws.on('close', ...)] *)
Definition on_close_reset (k : WebSocket) : M unit :=
  update (ws_bridge k) (with_ws None);;
  update (ws_bridge k) (with_authenticated false).

(** The rest of [ws.on('close', ...)]: arm the reconnect timer *)
Definition on_close_schedule (k : WebSocket) : M unit :=
  do present <- gets (has_bridge (ws_clientId k));
  if present then
    do t <- setTimeout (ws_clientId k) 5000;
    update (ws_bridge k) (with_reconnectTimeout (Some t))
  else ret tt.

(** [ws.on('close', ...)] *)
Definition on_close (k : WebSocket) : M unit :=
  on_close_reset k;;
  on_close_schedule k.

(** [ws.on('error', ...)]: logs *)
Definition on_error (k : WebSocket) : M unit := ret tt.

(** The callback handed to [setTimeout] *)
Definition on_timer (clientId : string) : M unit :=
  do present <- gets (has_bridge clientId);
  if present then connectToGateway clientId else ret tt.

(* --------------------------------------------------------------------- *)
(** *** Events: calls of the public interface and what the runtime delivers *)
(* --------------------------------------------------------------------- *)

Inductive event : Type :=
| CreateBridge (clientId : string) (cb : nat)
| SendMessage (clientId : string) (message : jsval)
| CloseBridge (clientId : string)
| SocketOpen (w : nat)
| SocketMessage (w : nat) (data : option jsval)
| SocketClosing (w : nat)      (* the peer starts the closing handshake *)
| SocketClose (w : nat)
| SocketError (w : nat)
| TimerFire (t : nat)
| Tick (ms : Z).               (* time passes *)

Definition set_readyState (w : nat) (r : ready_state) : M unit :=
  modify (set_sockets (alter (with_readyState r) w)).

(** One turn of the event loop. *)
Definition run (fuel : nat) (e : event) : M unit :=
  match e with
  | CreateBridge clientId cb => createBridge clientId cb
  | SendMessage clientId message => sendMessage clientId message
  | CloseBridge clientId => closeBridge clientId
  | SocketOpen w =>
      do k <- gets (fun s => sockets s !! w);
      match k with
      | Some k => set_readyState w OPEN;; on_open w k
      | None => ret tt
      end
  | SocketMessage w data =>
      do k <- gets (fun s => sockets s !! w);
      match k with
      | Some k => on_message fuel k data
      | None => ret tt
      end
  | SocketClosing w => set_readyState w CLOSING
  | SocketClose w =>
      do k <- gets (fun s => sockets s !! w);
      match k with
      | Some k => set_readyState w CLOSED;; on_close k
      | None => ret tt
      end
  | SocketError w =>
      do k <- gets (fun s => sockets s !! w);
      match k with
      | Some k => on_error k
      | None => ret tt
      end
  | TimerFire t =>
      do tm <- gets (fun s => timers s !! t);
      match tm with
      | Some tm => modify (set_timers (delete t));; on_timer (timer_clientId tm)
      | None => ret tt
      end
  | Tick ms => modify (fun s => set_clock (clock s + ms) s)
  end.

(** When the runtime can deliver an event: a socket opens once, delivers
    frames while open or closing, closes once; a timer runs only while
    pending and not before it is due; time does not go back. *)
Definition enabled (e : event) (s : state) : bool :=
  match e with
  | CreateBridge _ _ | SendMessage _ _ | CloseBridge _ => true
  | SocketOpen w =>
      match sockets s !! w with
      | Some k => ready_state_eqb (readyState k) CONNECTING
      | None => false
      end
  | SocketMessage w _ =>
      match sockets s !! w with
      | Some k => ready_state_eqb (readyState k) OPEN
                  || ready_state_eqb (readyState k) CLOSING
      | None => false
      end
  | SocketClosing w =>
      match sockets s !! w with
      | Some k => ready_state_eqb (readyState k) OPEN
      | None => false
      end
  | SocketClose w | SocketError w =>
      match sockets s !! w with
      | Some k => negb (ready_state_eqb (readyState k) CLOSED)
      | None => false
      end
  | TimerFire t =>
      match timers s !! t with
      | Some tm => (timer_due tm <=? clock s)%Z
      | None => false
      end
  | Tick ms => (0 <=? ms)%Z
  end.

(** A run of the event loop: every event is enabled when it is taken and
    its handler comes back (by returning or by throwing to its caller). *)
Fixpoint exec (fuel : nat) (es : list event) (s : state) : option state :=
  match es with
  | [] => Some s
  | e :: rest =>
      if enabled e s then
        match final (run fuel e s) with
        | Some s' => exec fuel rest s'
        | None => None
        end
      else None
  end.

Definition reachable (identity : option DeviceIdentity) (now : Z) (s : state) : Prop :=
  ∃ fuel es, exec fuel es (initial identity now) = Some s.

End Service.

End Bridge.

Import Bridge.

(* ===================================================================== *)
(** ** Vocabulary of the properties *)
(* ===================================================================== *)

(** [m] keeps [I]: started in a state where [I] holds, [m] leaves such a
    state, whether it returns or throws. *)
Definition keeps {A} (I : state → Prop) (m : M A) : Prop :=
  ∀ s, I s →
    match m s with
    | Ok _ s' => I s'
    | Raise s' => I s'
    | OutOfFuel => True
    end.

(** The client an effect is made for, when it has one. *)
Definition effect_allowed (allowed : string → Prop) (e : effect) : Prop :=
  match e with
  | Notified c _ _ => allowed c
  | SocketCreated _ c => allowed c
  | TimerSet _ c _ => allowed c
  | Sent _ _ | SocketClosed _ | TimerCleared _ => True
  end.

(** An update of a bridge object that does not raise its
    [authenticated] flag, and one that leaves its timer handle alone. *)
Definition calm (f : BridgeConnection → BridgeConnection) : Prop :=
  ∀ b, authenticated (f b) = true → authenticated b = true.

Definition gentle (f : BridgeConnection → BridgeConnection) : Prop :=
  ∀ b, reconnectTimeout (f b) = reconnectTimeout b.

(** An invariant that survives every elementary action the service can
    take: effects, timers, sockets and registrations made for the clients
    in [allowed], [bridge.authenticated = true] on the bridges of the
    clients in [trusted], a new timer handle stored in the objects in
    [touch]. *)
Record stable (rt : Runtime) (allowed trusted : string → Prop)
    (touch : nat → Prop) (I : state → Prop) : Prop := {
  stable_update : ∀ a f, calm f → gentle f → keeps I (update a f);
  stable_authenticate :
    ∀ c a b s, trusted c → I s → find_bridge c s = Some (a, b) →
               ∀ s', update a (with_authenticated true) s = Ok tt s' → I s';
  stable_rearm :
    ∀ a t, touch a → keeps I (update a (with_reconnectTimeout (Some t)));
  stable_closing : ∀ w, keeps I (modify (set_sockets (alter closing w)));
  stable_readyState :
    ∀ w r k s, I s → sockets s !! w = Some k →
               allowed (ws_clientId k) → touch (ws_bridge k) →
               I (set_sockets (alter (with_readyState r) w) s);
  stable_uuids : ∀ n, keeps I (modify (set_uuids n));
  stable_cancel : ∀ t, keeps I (modify (set_timers (delete t)));
  stable_emit : ∀ e, effect_allowed allowed e → keeps I (emit e);
  stable_setTimeout : ∀ c delay, allowed c → keeps I (setTimeout c delay);
  stable_new_socket :
    ∀ c a b s, allowed c → I s → find_bridge c s = Some (a, b) →
               match new_socket rt c a s with
               | Ok _ s' => I s'
               | Raise s' => I s'
               | OutOfFuel => True
               end;
  stable_install : ∀ c cb, allowed c → keeps I (install c cb);
  stable_remove : ∀ c, allowed c → keeps I (modify (set_bridges (delete c)));
  stable_clock : ∀ f : state → Z, keeps I (modify (fun s => set_clock (f s) s));
}.

(** No bridge is registered under [clientId], and since the trace was
    [before] nothing has been done for that client: no notification, no
    socket, no timer. *)
Definition absent_since (clientId : string) (before : list effect) (s : state) : Prop :=
  bridges s !! clientId = None ∧
  ∃ new, trace s = before ++ new ∧
         Forall (effect_allowed (fun c => c ≠ clientId)) new.



(** Every registered reference points to an object, at an address
    already handed out, and no two clients share an object. *)
Definition registered_live (s : state) : Prop :=
  ∀ c a, bridges s !! c = Some a →
         is_Some (heap s !! a) ∧ (a < next_addr s)%nat
         ∧ ∀ c', bridges s !! c' = Some a → c' = c.



(** The client an event makes the service act for, and the bridge object
    the listeners of its socket captured. *)
Definition event_client (e : event) (s : state) : option string :=
  match e with
  | CreateBridge c _ => Some c
  | CloseBridge c => Some c
  | SocketOpen w | SocketMessage w _ | SocketClosing w | SocketClose w =>
      match sockets s !! w with
      | Some k => Some (ws_clientId k)
      | None => None
      end
  | TimerFire t =>
      match timers s !! t with
      | Some tm => Some (timer_clientId tm)
      | None => None
      end
  | SendMessage _ _ | SocketError _ | Tick _ => None
  end.

Definition event_bridge (e : event) (s : state) : option nat :=
  match e with
  | SocketOpen w | SocketMessage w _ | SocketClosing w | SocketClose w =>
      match sockets s !! w with
      | Some k => Some (ws_bridge k)
      | None => None
      end
  | _ => None
  end.

(** The object at [a] was handed out, is registered under no client other
    than [clientId], and is not authenticated. *)
Definition unauthenticated_at (clientId : string) (a : nat) (s : state) : Prop :=
  (∀ c, bridges s !! c = Some a → c = clientId)
  ∧ (a < next_addr s)%nat
  ∧ (∀ b, heap s !! a = Some b → authenticated b = false).

(** The event is a [createBridge] for [clientId]. *)
Definition creates (clientId : string) (e : event) : Prop :=
  match e with
  | CreateBridge c _ => c = clientId
  | _ => False
  end.

(** [e1] occurs before [e2] in a trace. *)
Definition occurs_before (e1 e2 : effect) (tr : list effect) : Prop :=
  ∃ l1 l2 l3, tr = l1 ++ e1 :: l2 ++ e2 :: l3.

(** *** The Message Translator as a function

    What [convertToGatewayFormat] returns for a message that is not [null],
    given the session key and the identifier [uuidv4] hands out. *)
Definition takes_id (m : jsval) : bool :=
  (is_str (get_opt m "type") "message" && truthy (get_opt m "text"))
  || is_str (get_opt m "type") "history".

Definition translate (sessionKey : jsval) (id : string) (m : jsval) : jsval :=
  if is_str (get_opt m "type") "message" && truthy (get_opt m "text") then
    JObj [("type", JStr "req");
          ("id", JStr id);
          ("method", JStr "agent");
          ("params", JObj [("message", get_opt m "text");
                           ("sessionKey", sessionKey);
                           ("idempotencyKey", JStr id)])]
  else if is_str (get_opt m "type") "history" then
    JObj [("type", JStr "req");
          ("id", JStr id);
          ("method", JStr "sessions.history");
          ("params", JObj [("sessionKey", sessionKey);
                           ("limit", or_else (get_opt m "limit") (JNum 50))])]
  else m.

(** The frames for a list of messages translated one after the other,
    starting when [uuidv4] has been called [n] times. *)
Fixpoint translate_all (rt : Runtime) (sessionKey : jsval) (n : nat)
    (ms : list jsval) : list jsval :=
  match ms with
  | [] => []
  | m :: rest =>
      translate sessionKey (uuidv4 rt n) m
        :: translate_all rt sessionKey (if takes_id m then S n else n) rest
  end.


(** A value on which property access does not throw. *)
Definition non_null (v : jsval) : Prop := get v "type" ≠ None.

(** *** Frames *)

Definition is_handshake_success (message : jsval) : Prop :=
  is_str (get_opt message "type") "res" = true ∧
  truthy (get_opt message "ok") = true ∧
  is_str (get_opt (get_opt message "payload") "type") "hello-ok" = true.

(** The event is a handshake-success frame delivered by a socket made for
    [clientId]. *)
Definition handshake_for (clientId : string) (e : event) (s : state) : Prop :=
  match e with
  | SocketMessage w (Some message) =>
      ∃ k, sockets s !! w = Some k ∧ ws_clientId k = clientId
           ∧ is_handshake_success message
  | _ => False
  end.

Definition challenge_frame (nonce : string) (ts : Z) : jsval :=
  JObj [("type", JStr "event");
        ("event", JStr "connect.challenge");
        ("payload", JObj [("nonce", JStr nonce); ("ts", JNum ts)])].

Definition hello_ok_frame : jsval :=
  JObj [("type", JStr "res");
        ("ok", JBool true);
        ("payload", JObj [("type", JStr "hello-ok")])].

Definition history_message (limit : jsval) : jsval :=
  JObj [("type", JStr "history"); ("limit", limit)].

Definition history_request (id : string) (limit : jsval) : jsval :=
  JObj [("type", JStr "req");
        ("id", JStr id);
        ("method", JStr "sessions.history");
        ("params", JObj [("sessionKey", JStr "main"); ("limit", limit)])].

Definition chat_frame (payload : jsval) : jsval :=
  JObj [("type", JStr "event"); ("event", JStr "chat"); ("payload", payload)].

(** *** A concrete runtime for the examples *)

Definition demo_runtime : Runtime :=
  mkRuntime (fun n => String.append "uuid-" (string_of_Z (Z.of_nat n)))
            (fun _ _ => Some (repeat Byte.x2a 64))
            (fun _ => false)
            true
            (Some "secret").

Definition demo_identity : DeviceIdentity :=
  mkIdentity "d3v1ce" "cHVibGlj" [Byte.x01; Byte.x02].

Definition demo_start : state := initial (Some demo_identity) 1000.

(** The state a run of the concrete runtime ends in ([s] itself if the run
    is not possible). *)
Definition after (es : list event) (s : state) : state :=
  match exec demo_runtime 8 es s with
  | Some s' => s'
  | None => s
  end.

(** One client, its socket open, the handshake not yet made. *)
Definition demo_connected : state :=
  after [CreateBridge "c1" 7; SocketOpen 0] demo_start.

(** The same client after a successful handshake. *)
Definition demo_authenticated : state :=
  after [SocketMessage 0 (Some (challenge_frame "abc" 1000));
         SocketMessage 0 (Some hello_ok_frame)] demo_connected.

Definition tick_frame : jsval :=
  JObj [("type", JStr "event"); ("event", JStr "tick")].

Definition failure_frame : jsval :=
  JObj [("type", JStr "res"); ("ok", JBool false);
        ("error", JObj [("code", JStr "denied")])].

Definition agent_frame (payload : jsval) : jsval :=
  JObj [("type", JStr "event"); ("event", JStr "agent"); ("payload", payload)].

Definition delta_payload : jsval :=
  JObj [("delta", JObj [("text", JStr "hi")]); ("runId", JStr "r1")].

Definition done_payload : jsval :=
  JObj [("status", JStr "done"); ("runId", JStr "r1")].

(** The object at [a] replaced by [b]. *)
Definition put (a : nat) (b : BridgeConnection) (s : state) : state :=
  set_heap (insert a b) s.

(** Several effects appended to the trace, in order. *)
Fixpoint log_all (es : list effect) (s : state) : state :=
  match es with
  | [] => s
  | e :: rest => log_all rest (log_effect e s)
  end.

(** The number of [uuidv4] calls made once the messages are translated. *)
Fixpoint ids_after (n : nat) (ms : list jsval) : nat :=
  match ms with
  | [] => n
  | m :: rest => ids_after (if takes_id m then S n else n) rest
  end.

Definition chat_message (text : string) : jsval :=
  JObj [("type", JStr "message"); ("text", JStr text)].


(** *** Base64url text, read back *)

(** The characters of the URL-safe alphabet: letters, digits, [-] and [_]. *)
Definition url_safe (c : ascii) : bool :=
  let n := N_of_ascii c in
  ((65 <=? n) && (n <=? 90) || (97 <=? n) && (n <=? 122)
   || (48 <=? n) && (n <=? 57) || (n =? 45) || (n =? 95))%N.

(** The six bits a character of that alphabet stands for. *)
Definition sextet (c : ascii) : option N :=
  let n := N_of_ascii c in
  (if (65 <=? n) && (n <=? 90) then Some (n - 65)
   else if (97 <=? n) && (n <=? 122) then Some (n - 71)
   else if (48 <=? n) && (n <=? 57) then Some (n + 4)
   else if n =? 45 then Some 62
   else if n =? 95 then Some 63
   else None)%N.

(** The bytes an unpadded base64url text stands for: four characters give
    three bytes, a last group of two or three characters one or two. *)
Fixpoint decode (cs : list ascii) : option (list byte) :=
  match cs with
  | [] => Some []
  | [c1; c2] =>
      match sextet c1, sextet c2 with
      | Some p, Some q =>
          match Byte.of_N (p * 4 + q / 16) with
          | Some x => Some [x]
          | None => None
          end
      | _, _ => None
      end
  | [c1; c2; c3] =>
      match sextet c1, sextet c2, sextet c3 with
      | Some p, Some q, Some r =>
          match Byte.of_N (p * 4 + q / 16),
                Byte.of_N ((q mod 16) * 16 + r / 4) with
          | Some x, Some y => Some [x; y]
          | _, _ => None
          end
      | _, _, _ => None
      end
  | c1 :: c2 :: c3 :: c4 :: rest =>
      match sextet c1, sextet c2, sextet c3, sextet c4, decode rest with
      | Some p, Some q, Some r, Some t, Some bs =>
          match Byte.of_N (p * 4 + q / 16),
                Byte.of_N ((q mod 16) * 16 + r / 4),
                Byte.of_N ((r mod 4) * 64 + t) with
          | Some x, Some y, Some z => Some (x :: y :: z :: bs)
          | _, _, _ => None
          end
      | _, _, _, _, _ => None
      end
  | _ => None
  end.

(** The six-bit groups of a byte string, the last one filled with zero
    bits. *)
Fixpoint sextets (bs : list byte) : list N :=
  match bs with
  | [] => []
  | [a] =>
      let x := Byte.to_N a in
      [x / 4; (x mod 4) * 16]%N
  | [a; b] =>
      let x := Byte.to_N a in
      let y := Byte.to_N b in
      [x / 4; (x mod 4) * 16 + y / 16; (y mod 16) * 4]%N
  | a :: b :: c :: rest =>
      let x := Byte.to_N a in
      let y := Byte.to_N b in
      let z := Byte.to_N c in
      (x / 4 :: (x mod 4) * 16 + y / 16 :: (y mod 16) * 4 + z / 64 :: z mod 64
         :: sextets rest)%N
  end.

(* ===================================================================== *)
(** ** Start-up and shutdown of the service *)
(* ===================================================================== *)

Module Lifecycle.

(** [s.endsWith(lit)], and [s.replace(/lit$/, '')] for a literal [lit]: the
    literal is removed when the string ends with it, once. *)
Definition ends_with (lit s : string) : bool :=
  let n := String.length s in
  let m := String.length lit in
  (m <=? n)%nat && String.eqb (substring (n - m) m s) lit.

Definition strip_suffix (lit s : string) : string :=
  if ends_with lit s
  then substring 0 (String.length s - String.length lit) s
  else s.

(** The constructor: [baseUrl.replace(/\/ws\/chat$/, '').replace(/\/$/, '')]
    with [baseUrl] the [GATEWAY_WS_URL] setting or its default. *)
Definition gatewayUrl (GATEWAY_WS_URL : option string) : string :=
  let baseUrl := match GATEWAY_WS_URL with
                 | Some url => url
                 | None => "ws://localhost:38191"
                 end in
  strip_suffix "/" (strip_suffix "/ws/chat" baseUrl).

(** What [generateDeviceIdentity] takes from [crypto]: the key pair drawn by
    [generateKeyPairSync('ed25519', ...)] as DER bytes (SPKI, PKCS#8), and
    [createHash('sha256').update(bytes).digest('hex')]. *)
Record Crypto : Type := mkCrypto {
  generateKeyPairSync : list byte * list byte;
  sha256_hex : list byte → string;
}.

(** [generateDeviceIdentity] *)
Definition generateDeviceIdentity (cr : Crypto) : DeviceIdentity :=
  let '(publicKey, privateKey) := generateKeyPairSync cr in
  let rawPublicKey := skipn 12 publicKey in
  let deviceId := sha256_hex cr rawPublicKey in
  let publicKeyB64 := Base64Url.encode rawPublicKey in
  mkIdentity deviceId publicKeyB64 privateKey.

Definition set_deviceIdentity (d : option DeviceIdentity) (s : state) : state :=
  mkState (bridges s) (heap s) d (sockets s) (timers s)
          (clock s) (uuids s) (next_addr s) (next_socket s) (next_timer s) (trace s).

(** [onModuleInit] *)
Definition onModuleInit (cr : Crypto) : M unit :=
  modify (set_deviceIdentity (Some (generateDeviceIdentity cr))).

(** The order in which [this.bridges.forEach] visits the keys: the order
    of insertion.  Every [set] is made by [createBridge] for a key that is
    not in the map at that moment, with a bridge object allocated just
    before, so the order of insertion is the order of the addresses. *)
Definition older (x y : string * nat) : Prop := (x.2 ≤ y.2)%nat.

#[export] Instance older_dec : RelDecision older :=
  fun x y => decide (x.2 ≤ y.2)%nat.

Definition forEach_order (s : state) : list string :=
  (merge_sort older (map_to_list (bridges s))).*1.

(** [closeBridge] for each key of a list, in order. *)
Fixpoint close_each (rt : Runtime) (visit : list string) : M unit :=
  match visit with
  | [] => ret tt
  | clientId :: rest => closeBridge rt clientId;; close_each rt rest
  end.

(** [onModuleDestroy]: deleting the entry being visited does not disturb
    the iteration. *)
Definition onModuleDestroy (rt : Runtime) : M unit :=
  do visit <- gets forEach_order;
  close_each rt visit.

End Lifecycle.

(* ===================================================================== *)
(** ** String methods the gateway and the bootstrap use *)
(* ===================================================================== *)

Module Text.

(** [s] without the prefix [pat], when it starts with it *)
Fixpoint drop_prefix (pat s : string) : option string :=
  match pat, s with
  | EmptyString, _ => Some s
  | String a pat', String b s' =>
      if Ascii.eqb a b then drop_prefix pat' s' else None
  | String _ _, EmptyString => None
  end.

(** [s.replace(pat, '')] for a string [pat]: the first occurrence goes *)
Fixpoint remove_first (pat s : string) : string :=
  match drop_prefix pat s with
  | Some rest => rest
  | None =>
      match s with
      | EmptyString => EmptyString
      | String c s' => String c (remove_first pat s')
      end
  end.

(** The white space and line terminators [trim] removes, as the bytes of
    their UTF-8 encodings: U+0009 to U+000D, U+0020, U+00A0, U+1680,
    U+2000 to U+200A, U+2028, U+2029, U+202F, U+205F, U+3000, U+FEFF. *)
Definition white_space : list (list ascii) :=
  List.map (List.map ascii_of_nat)
    [[9]; [10]; [11]; [12]; [13]; [32];
     [194; 160];
     [225; 154; 128];
     [226; 128; 128]; [226; 128; 129]; [226; 128; 130]; [226; 128; 131];
     [226; 128; 132]; [226; 128; 133]; [226; 128; 134]; [226; 128; 135];
     [226; 128; 136]; [226; 128; 137]; [226; 128; 138];
     [226; 128; 168]; [226; 128; 169]; [226; 128; 175];
     [226; 129; 159];
     [227; 128; 128];
     [239; 187; 191]]%nat.

Fixpoint strip (pat l : list ascii) : option (list ascii) :=
  match pat, l with
  | [], _ => Some l
  | a :: pat', b :: l' => if Ascii.eqb a b then strip pat' l' else None
  | _ :: _, [] => None
  end.

Fixpoint strip_any (table : list (list ascii)) (l : list ascii) : option (list ascii) :=
  match table with
  | [] => None
  | pat :: others =>
      match strip pat l with
      | Some rest => Some rest
      | None => strip_any others l
      end
  end.

(** Leading entries of [table] removed, one per unit of [fuel] *)
Fixpoint drop_leading (fuel : nat) (table : list (list ascii)) (l : list ascii)
    : list ascii :=
  match fuel with
  | O => l
  | S fuel' =>
      match strip_any table l with
      | Some rest => drop_leading fuel' table rest
      | None => l
      end
  end.

(** [s.trim()] *)
Definition trim (s : string) : string :=
  let l := list_ascii_of_string s in
  let l1 := drop_leading (length l) white_space l in
  let l2 := drop_leading (length l1) (List.map (@rev ascii) white_space) (rev l1) in
  string_of_list_ascii (rev l2).

(** [s.split(sep)] for a separator of one character *)
Fixpoint split_on (sep : ascii) (s : string) : list string :=
  match s with
  | EmptyString => [EmptyString]
  | String c rest =>
      if Ascii.eqb c sep then EmptyString :: split_on sep rest
      else
        match split_on sep rest with
        | first :: others => String c first :: others
        | [] => [String c EmptyString]
        end
  end.

End Text.

(* ===================================================================== *)
(** ** [AuthService] ([src/auth/auth.service.ts]) *)
(* ===================================================================== *)

Module Auth.

(** What the service is configured with and what [JwtService] does:
    [verify] gives [None] when it throws. *)
Record Settings : Type := mkSettings {
  API_KEY : option string;
  JWT_EXPIRATION : option string;
  jwt_sign : jsval → string;
  jwt_verify : jsval → option jsval;
}.

(** [this.configService.get<string>('API_KEY', '')] *)
Definition apiKey (cfg : Settings) : string :=
  match API_KEY cfg with
  | Some k => k
  | None => ""
  end.

Record TokenResponse : Type := mkTokenResponse {
  accessToken : string;
  expiresIn : string;
}.

(** The claims [getToken] signs, [now] being [Date.now()] *)
Definition token_payload (now : Z) : jsval :=
  JObj [("sub", JStr "chat-client");
        ("type", JStr "access");
        ("iat", JNum (now / 1000))].

(** [getToken]; [None] is the [UnauthorizedException] *)
Definition getToken (cfg : Settings) (now : Z) (key : string)
    : option TokenResponse :=
  if String.eqb key "" || negb (String.eqb key (apiKey cfg)) then None
  else
    Some (mkTokenResponse
            (jwt_sign cfg (token_payload now))
            match JWT_EXPIRATION cfg with
            | Some e => e
            | None => "30m"
            end).

(** [validateToken]: what the promise resolves to,
    [payload && payload.sub === 'chat-client'], or [false] when [verify]
    throws *)
Definition validateToken (cfg : Settings) (token : jsval) : jsval :=
  match jwt_verify cfg token with
  | Some payload =>
      if truthy payload then JBool (is_str (get_opt payload "sub") "chat-client")
      else payload
  | None => JBool false
  end.

End Auth.

(* ===================================================================== *)
(** ** [ChatGateway] ([src/chat/chat.gateway.ts]) *)
(* ===================================================================== *)

Module Chat.

(** What the gateway reads of [client.handshake]: [query.token],
    [auth] and [headers.authorization]. *)
Record Handshake : Type := mkHandshake {
  query_token : jsval;
  handshake_auth : jsval;
  authorization : option string;
}.

(** A socket.io client: its [id] and its handshake *)
Record Socket : Type := mkClient {
  client_id : string;
  handshake : Handshake;
}.

(** What the gateway does to its clients, in order *)
Inductive client_effect : Type :=
| Emitted (clientId event : string) (payload : jsval)   (* [client.emit(event, payload)] *)
| Disconnected (clientId : string).                     (* [client.disconnect()] *)

(** The gateway: its [authenticatedClients] map, the [BridgeService]
    injected into it, the closures it has handed to [createBridge] (the
    closure with handle [n] emits ['message'] to client [callbacks !! n]),
    and what it has done to its clients. *)
Record gateway : Type := mkGateway {
  authenticatedClients : gmap string bool;
  bridgeService : state;
  callbacks : list string;
  outbox : list client_effect;
}.

Definition set_authenticatedClients (f : gmap string bool → gmap string bool)
    (g : gateway) : gateway :=
  mkGateway (f (authenticatedClients g)) (bridgeService g) (callbacks g) (outbox g).
Definition set_bridgeService (s : state) (g : gateway) : gateway :=
  mkGateway (authenticatedClients g) s (callbacks g) (outbox g).
Definition add_callback (clientId : string) (g : gateway) : gateway :=
  mkGateway (authenticatedClients g) (bridgeService g) (callbacks g ++ [clientId])
            (outbox g).
Definition client_emit (clientId event : string) (payload : jsval)
    (g : gateway) : gateway :=
  mkGateway (authenticatedClients g) (bridgeService g) (callbacks g)
            (outbox g ++ [Emitted clientId event payload]).
Definition client_disconnect (clientId : string) (g : gateway) : gateway :=
  mkGateway (authenticatedClients g) (bridgeService g) (callbacks g)
            (outbox g ++ [Disconnected clientId]).

Definition start (identity : option DeviceIdentity) (now : Z) : gateway :=
  mkGateway ∅ (initial identity now) [] [].

(** How a handler comes back: it returns, it throws to the framework, or
    it does not come back. *)
Inductive result : Type :=
| Returned (g : gateway)
| Threw (g : gateway)
| Hung.

(** A call of a method of the injected [BridgeService] *)
Definition call (m : M unit) (g : gateway) : result :=
  match m (bridgeService g) with
  | Ok _ s => Returned (set_bridgeService s g)
  | Raise s => Threw (set_bridgeService s g)
  | OutOfFuel => Hung
  end.

Definition and_then (r : result) (k : gateway → result) : result :=
  match r with
  | Returned g => k g
  | other => other
  end.

(** [{ message: text }] *)
Definition notice (text : string) : jsval := JObj [("message", JStr text)].

(** [client.handshake.query.token || client.handshake.auth?.token ||
    client.handshake.headers.authorization?.replace('Bearer ', '')] *)
Definition token_of (h : Handshake) : jsval :=
  or_else
    (or_else (query_token h) (get_opt (handshake_auth h) "token"))
    match authorization h with
    | Some header => JStr (Text.remove_first "Bearer " header)
    | None => JUndefined
    end.

(** [this.authenticatedClients.get(client.id)], as a condition *)
Definition is_authenticated (clientId : string) (g : gateway) : bool :=
  match authenticatedClients g !! clientId with
  | Some flag => flag
  | None => false
  end.

(** [text?.trim()]: [None] is the [TypeError] raised when [text] is
    neither a string nor [null] or [undefined] (it has no method [trim]) *)
Definition trimmed (text : jsval) : option jsval :=
  match text with
  | JUndefined | JNull => Some JUndefined
  | JStr s => Some (JStr (Text.trim s))
  | _ => None
  end.

Section Gateway.

Context (rt : Runtime) (cfg : Auth.Settings).

(** [handleConnection] *)
Definition handleConnection (client : Socket) (g : gateway) : result :=
  let id := client_id client in
  let token := token_of (handshake client) in
  if negb (truthy token) then
    Returned (client_disconnect id
                (client_emit id "error" (notice "Authentication required") g))
  else
    let isValid := Auth.validateToken cfg token in
    if negb (truthy isValid) then
      Returned (client_disconnect id
                  (client_emit id "error" (notice "Invalid or expired token") g))
    else
      let g1 := set_authenticatedClients (insert id true) g in
      let cb := length (callbacks g1) in
      and_then (call (createBridge rt id cb) (add_callback id g1))
        (fun g2 =>
           Returned (client_emit id "connected"
                       (notice "Connected to OpenClaw Face Server") g2)).

(** [handleDisconnect] *)
Definition handleDisconnect (clientId : string) (g : gateway) : result :=
  call (closeBridge rt clientId)
       (set_authenticatedClients (delete clientId) g).

(** [handleMessage] *)
Definition handleMessage (clientId : string) (payload : jsval) (g : gateway)
    : result :=
  if negb (is_authenticated clientId g) then
    Returned (client_emit clientId "error" (notice "Not authenticated") g)
  else
    match trimmed (get_opt payload "text") with
    | None => Threw g
    | Some text =>
        if negb (truthy text) then Returned g
        else
          and_then
            (call (sendMessage rt clientId
                     (JObj [("type", JStr "message"); ("text", text)])) g)
            (fun g1 =>
               Returned (client_emit clientId "typing"
                           (JObj [("isTyping", JBool true)]) g1))
    end.

(** [handleHistory] *)
Definition handleHistory (clientId : string) (payload : jsval) (g : gateway)
    : result :=
  if negb (is_authenticated clientId g) then
    Returned (client_emit clientId "error" (notice "Not authenticated") g)
  else
    call (sendMessage rt clientId
            (JObj [("type", JStr "history");
                   ("limit", or_else (get_opt payload "limit") (JNum 50))])) g.

(** [handleTyping] *)
Definition handleTyping (clientId : string) (g : gateway) : result :=
  if negb (is_authenticated clientId g) then Returned g
  else call (sendMessage rt clientId (JObj [("type", JStr "user_typing")])) g.

(** What reaches the gateway: connections, disconnections and messages of
    its clients, and, through the bridge service, the events of its sockets
    and timers. *)
Inductive request : Type :=
| Connection (client : Socket)
| Disconnect (clientId : string)
| Message (clientId : string) (payload : jsval)
| History (clientId : string) (payload : jsval)
| Typing (clientId : string)
| Upstream (e : event).

(** The events of the bridge service that come from its runtime; its
    public methods are called by the gateway only. *)
Definition from_runtime (e : event) : bool :=
  match e with
  | CreateBridge _ _ | SendMessage _ _ | CloseBridge _ => false
  | _ => true
  end.

Definition handle (fuel : nat) (r : request) (g : gateway) : result :=
  match r with
  | Connection client => handleConnection client g
  | Disconnect clientId => handleDisconnect clientId g
  | Message clientId payload => handleMessage clientId payload g
  | History clientId payload => handleHistory clientId payload g
  | Typing clientId => handleTyping clientId g
  | Upstream e => call (run rt fuel e) g
  end.

Definition permitted (r : request) (g : gateway) : bool :=
  match r with
  | Upstream e => from_runtime e && enabled e (bridgeService g)
  | _ => true
  end.

(** The gateway after a run of requests; an exception goes to the
    framework and the gateway carries on. *)
Fixpoint serve (fuel : nat) (rs : list request) (g : gateway) : option gateway :=
  match rs with
  | [] => Some g
  | r :: rest =>
      if permitted r g then
        match handle fuel r g with
        | Returned g' | Threw g' => serve fuel rest g'
        | Hung => None
        end
      else None
  end.

End Gateway.

End Chat.

(* ===================================================================== *)
(** ** Allowed origins ([main.ts] and the gateway decorator) *)
(* ===================================================================== *)

Module Cors.

(** The [origin] option handed to the CORS middleware *)
Inductive origin : Type :=
| Reflect                         (* [true] *)
| Wildcard                        (* ['*'] *)
| Origins (allowed : list string).

(** [bootstrap]: [configService.get('ALLOWED_ORIGINS', '').split(',')
    .map(o => o.trim()).filter(Boolean)], and [true] when nothing is left *)
Definition allowedOrigins (ALLOWED_ORIGINS : option string) : list string :=
  List.filter (fun o => negb (String.eqb o ""))
    (List.map Text.trim
       (Text.split_on ","
          match ALLOWED_ORIGINS with
          | Some v => v
          | None => ""
          end)).

Definition http_origin (ALLOWED_ORIGINS : option string) : origin :=
  match allowedOrigins ALLOWED_ORIGINS with
  | [] => Reflect
  | l => Origins l
  end.


End Cors.

(** *** What the listeners, the timer callback and [sendMessage] leave alone *)

(** An effect made for a client registered in [s0], a notification going to
    the callback registered under the client's id; no socket is closed and
    no timer cleared. *)
Definition within (s0 : state) (e : effect) : Prop :=
  match e with
  | Sent _ _ => True
  | Notified c cb _ => ∃ a b, find_bridge c s0 = Some (a, b) ∧ onMessage b = cb
  | SocketCreated _ c | TimerSet _ c _ => is_Some (bridges s0 !! c)
  | SocketClosed _ | TimerCleared _ => False
  end.

(** [s] has the registry, the device identity, the bridge objects and
    their callbacks and session keys of [s0], and its trace goes on from
    that of [s0] with effects [within s0]. *)
Definition settled (s0 s : state) : Prop :=
  bridges s = bridges s0
  ∧ deviceIdentity s = deviceIdentity s0
  ∧ next_addr s = next_addr s0
  ∧ (∀ a, onMessage <$> heap s !! a = onMessage <$> heap s0 !! a)
  ∧ (∀ a, sessionKey <$> heap s !! a = sessionKey <$> heap s0 !! a)
  ∧ ∃ new, trace s = trace s0 ++ new ∧ Forall (within s0) new.

(** An update of a bridge object that keeps its callback and session key *)
Definition same_callback (f : BridgeConnection → BridgeConnection) : Prop :=
  ∀ b, onMessage (f b) = onMessage b ∧ sessionKey (f b) = sessionKey b.

(** The event is not a call of [createBridge] or [closeBridge]. *)
Definition keeps_registry (e : event) : Prop :=
  match e with
  | CreateBridge _ _ | CloseBridge _ => False
  | _ => True
  end.

(** What a handler knows of the bridge it has looked up under [c]: the
    callback is the one registered under [c] in [s0]. *)
Definition known (s0 : state) (c : string)
    (found : option (nat * BridgeConnection)) : Prop :=
  ∀ a b, found = Some (a, b) →
         ∃ a0 b0, find_bridge c s0 = Some (a0, b0) ∧ onMessage b0 = onMessage b.

(** The bridge can send at once: it is authenticated and its socket is
    open. *)
Definition ready (b : BridgeConnection) (s : state) : bool :=
  authenticated b
  && match ws b with
     | Some w => is_open w s
     | None => false
     end.

(** The effect is a socket closed or a timer cleared. *)
Definition closing_only (e : effect) : Prop :=
  match e with
  | SocketClosed _ | TimerCleared _ => True
  | _ => False
  end.

(** A concrete key pair for the examples: 44 bytes of SPKI, the last 32
    being the key. *)
Definition demo_crypto : Lifecycle.Crypto :=
  Lifecycle.mkCrypto
    (repeat Byte.x30 12 ++ repeat Byte.xfb 32, [Byte.x01; Byte.x02])
    (fun _ => "d3v1ce").

(** *** The gateway's books *)

(** The effect is not a call of a client callback. *)
Definition no_callback (e : effect) : Prop :=
  match e with
  | Notified _ _ _ => False
  | _ => True
  end.

(** A client is marked authenticated exactly when a bridge is registered
    under its id. *)
Definition books_agree (g : Chat.gateway) : Prop :=
  ∀ id, Chat.is_authenticated id g = true
        ↔ is_Some (bridges (Chat.bridgeService g) !! id).

(** The callback of the bridge registered under a client id, and every
    callback invoked for that id, is a closure that emits to the client
    with that id. *)
Definition callbacks_match (g : Chat.gateway) : Prop :=
  (∀ c a b, find_bridge c (Chat.bridgeService g) = Some (a, b) →
            Chat.callbacks g !! onMessage b = Some c)
  ∧ (∀ c cb msg, In (Notified c cb msg) (trace (Chat.bridgeService g)) →
                 Chat.callbacks g !! cb = Some c).

Definition sound (g : Chat.gateway) : Prop :=
  registered_live (Chat.bridgeService g) ∧ books_agree g ∧ callbacks_match g.

(** The gateway lets the connection in: it carries a token and the token
    is valid. *)
Definition admitted (cfg : Auth.Settings) (client : Chat.Socket) : bool :=
  truthy (Chat.token_of (Chat.handshake client))
  && truthy (Auth.validateToken cfg (Chat.token_of (Chat.handshake client))).

(** The request is a connection with the given id that is let in. *)
Definition admits (cfg : Auth.Settings) (id : string) (r : Chat.request) : Prop :=
  match r with
  | Chat.Connection client => Chat.client_id client = id ∧ admitted cfg client = true
  | _ => False
  end.

(** The [message] of a chat client, as [handleMessage] hands it on *)
Definition client_message (text : string) : jsval :=
  JObj [("type", JStr "message"); ("text", JStr text)].

(** [P] holds of the gateway a handler leaves behind, whether it returns
    or throws. *)
Definition holds_after (P : Chat.gateway → Prop) (r : Chat.result) : Prop :=
  match r with
  | Chat.Returned g | Chat.Threw g => P g
  | Chat.Hung => True
  end.

(** What the gateway does to a client it has not let in: besides
    disconnecting it, it emits nothing to it but [error]. *)
Definition refusal (id : string) (e : Chat.client_effect) : Prop :=
  match e with
  | Chat.Emitted c event _ => c = id → event = "error"
  | Chat.Disconnected _ => True
  end.

(** The client [id] is outside: it is not marked authenticated, no bridge
    is registered under its id, and since the bridge's trace was [before]
    and the gateway's outbox [sent], nothing has been done for it. *)
Definition outside (id : string) (before : list effect)
    (sent : list Chat.client_effect) (g : Chat.gateway) : Prop :=
  Chat.is_authenticated id g = false
  ∧ absent_since id before (Chat.bridgeService g)
  ∧ ∃ out, Chat.outbox g = sent ++ out ∧ Forall (refusal id) out.

(** *** A concrete gateway for the examples *)

(** A toy [JwtService]: a token is [jwt:] followed by the subject. *)
Definition demo_settings : Auth.Settings :=
  Auth.mkSettings
    (Some "k3y") None
    (fun payload => String.append "jwt:" (join_item (get_opt payload "sub")))
    (fun token =>
       match token with
       | JStr t =>
           match Text.drop_prefix "jwt:" t with
           | Some sub => Some (JObj [("sub", JStr sub)])
           | None => None
           end
       | _ => None
       end).

(** A client with a token in its query string, and one with none. *)
Definition demo_client (id token : string) : Chat.Socket :=
  Chat.mkClient id (Chat.mkHandshake (JStr token) JUndefined None).

Definition demo_stranger (id : string) : Chat.Socket :=
  Chat.mkClient id (Chat.mkHandshake JUndefined JUndefined None).

(** The gateway after a run of requests of the concrete runtime *)
Definition served (rs : list Chat.request) : Chat.gateway :=
  match Chat.serve demo_runtime demo_settings 8 rs (Chat.start (Some demo_identity) 1000) with
  | Some g => g
  | None => Chat.start (Some demo_identity) 1000
  end.

(** The request [convertToGatewayFormat] makes of a chat message *)
Definition agent_request (id : string) (text sessionKey : jsval) : jsval :=
  JObj [("type", JStr "req");
        ("id", JStr id);
        ("method", JStr "agent");
        ("params", JObj [("message", text);
                         ("sessionKey", sessionKey);
                         ("idempotencyKey", JStr id)])].

(** *** One session per client id *)

(** The socket can deliver a frame: it is open or closing. *)
Definition talking (k : WebSocket) : Prop :=
  readyState k = OPEN ∨ readyState k = CLOSING.

(** How many times [createBridge] is called for [c] in a run *)
Fixpoint creations (c : string) (es : list event) : nat :=
  match es with
  | [] => 0
  | e :: rest =>
      match e with
      | CreateBridge c' _ => if String.eqb c' c then S (creations c rest)
                             else creations c rest
      | _ => creations c rest
      end
  end.

(** Nothing has been made for [c] yet: no bridge, no socket, no timer; and
    the sockets of the other clients captured objects already handed
    out. *)
Record unused (c : string) (s : state) : Prop := mkUnused {
  unused_entry : bridges s !! c = None;
  unused_sockets :
    ∀ w k, sockets s !! w = Some k →
           ws_clientId k ≠ c ∧ (ws_bridge k < next_addr s)%nat;
  unused_timers : ∀ t tm, timers s !! t = Some tm → timer_clientId tm ≠ c;
  unused_live : registered_live s;
}.

(** The one session of [c], on the object at [a]: [c] is registered at [a]
    or not at all; the sockets made for [c] are those that captured [a],
    and at most one of them is not closed; the object is authenticated
    only while a socket of [c] is open or closing; and a timer is pending
    for [c] only while [c] is registered, the object holds the timer's
    handle and every socket of [c] is closed. *)
Record session (c : string) (a : nat) (s : state) : Prop := mkSession {
  session_entry : ∀ a', bridges s !! c = Some a' → a' = a;
  session_owner : ∀ c', bridges s !! c' = Some a → c' = c;
  session_addr : (a < next_addr s)%nat;
  session_sockets :
    ∀ w k, sockets s !! w = Some k →
           ws_clientId k = c ∨ ws_bridge k = a →
           ws_clientId k = c ∧ ws_bridge k = a ∧ (w < next_socket s)%nat;
  session_one :
    ∀ w1 k1 w2 k2,
      sockets s !! w1 = Some k1 → sockets s !! w2 = Some k2 →
      ws_clientId k1 = c → ws_clientId k2 = c →
      readyState k1 ≠ CLOSED → readyState k2 ≠ CLOSED → w1 = w2;
  session_object : is_Some (heap s !! a);
  session_flag :
    ∀ b, heap s !! a = Some b → authenticated b = true →
         ∃ w k, sockets s !! w = Some k ∧ ws_clientId k = c ∧ talking k;
  session_timer :
    ∀ b t tm, heap s !! a = Some b → timers s !! t = Some tm →
              timer_clientId tm = c →
              bridges s !! c = Some a
              ∧ reconnectTimeout b = Some t
              ∧ ∀ w k, sockets s !! w = Some k → ws_clientId k = c →
                       readyState k = CLOSED;
}.

(** What holds of a client for which [createBridge] has been called at
    most once. *)
Definition single_session (c : string) (s : state) : Prop :=
  (∀ w1 k1 w2 k2,
     sockets s !! w1 = Some k1 → sockets s !! w2 = Some k2 →
     ws_clientId k1 = c → ws_clientId k2 = c →
     readyState k1 ≠ CLOSED → readyState k2 ≠ CLOSED → w1 = w2)
  ∧ (∀ a b, find_bridge c s = Some (a, b) → authenticated b = true →
            ∃ w k, sockets s !! w = Some k ∧ ws_clientId k = c
                   ∧ ws_bridge k = a ∧ talking k)
  ∧ (∀ t tm, timers s !! t = Some tm → timer_clientId tm = c →
             is_Some (bridges s !! c)
             ∧ (∀ w k, sockets s !! w = Some k → ws_clientId k = c →
                       readyState k = CLOSED)
             ∧ (∀ t' tm', timers s !! t' = Some tm' →
                          timer_clientId tm' = c → t' = t)).

(** A run in which the socket of [c1] closes and the reconnect timer makes
    a second one, on which the handshake succeeds again. *)
Definition demo_reconnect : list event :=
  [CreateBridge "c1" 0; SocketOpen 0; SocketMessage 0 (Some hello_ok_frame);
   SocketClose 0; Tick 5000; TimerFire 0; SocketOpen 1;
   SocketMessage 1 (Some hello_ok_frame); CreateBridge "c2" 1].

(** How many connections with the id [id] the gateway is asked for in a
    run (socket.io gives every connection an id of its own) *)
Fixpoint connections (id : string) (rs : list Chat.request) : nat :=
  match rs with
  | [] => 0
  | r :: rest =>
      match r with
      | Chat.Connection client =>
          if String.eqb (Chat.client_id client) id then S (connections id rest)
          else connections id rest
      | _ => connections id rest
      end
  end.

(* ===================================================================== *)
(** ** The earlier revision of [BridgeService] *)
(* ===================================================================== *)

(** The file begins with the revision of the service that has no handshake
    and no queue: frames of the gateway go to the client as they are, and
    so do the client's messages to the gateway.  Every exception is caught
    where it is raised, so its methods and listeners are functions on the
    state.  Sockets, timers, effects and events are those of the later
    revision. *)
Module Legacy.

(** [interface BridgeConnection] *)
Record BridgeConnection : Type := mkBridge {
  ws : option nat;
  onMessage : nat;
  reconnectTimeout : option nat;
}.

Record state : Type := mkState {
  bridges : gmap string nat;          (* [this.bridges], by reference *)
  heap : gmap nat BridgeConnection;   (* the [BridgeConnection] objects *)
  sockets : gmap nat WebSocket;
  timers : gmap nat Timer;            (* pending timers only *)
  clock : Z;
  next_addr : nat;
  next_socket : nat;
  next_timer : nat;
  trace : list effect;
}.

Definition initial (now : Z) : state := mkState ∅ ∅ ∅ ∅ now 0 0 0 [].

(** [this.configService.get<string>('GATEWAY_WS_URL',
    'ws://localhost:38191/ws/chat')]: the address is used as it is set. *)
Definition gatewayUrl (GATEWAY_WS_URL : option string) : string :=
  match GATEWAY_WS_URL with
  | Some url => url
  | None => "ws://localhost:38191/ws/chat"
  end.

Definition set_bridges (f : gmap string nat → gmap string nat) (s : state) : state :=
  mkState (f (bridges s)) (heap s) (sockets s) (timers s) (clock s)
          (next_addr s) (next_socket s) (next_timer s) (trace s).
Definition set_heap (f : gmap nat BridgeConnection → gmap nat BridgeConnection)
    (s : state) : state :=
  mkState (bridges s) (f (heap s)) (sockets s) (timers s) (clock s)
          (next_addr s) (next_socket s) (next_timer s) (trace s).
Definition set_sockets (f : gmap nat WebSocket → gmap nat WebSocket) (s : state) : state :=
  mkState (bridges s) (heap s) (f (sockets s)) (timers s) (clock s)
          (next_addr s) (next_socket s) (next_timer s) (trace s).
Definition set_timers (f : gmap nat Timer → gmap nat Timer) (s : state) : state :=
  mkState (bridges s) (heap s) (sockets s) (f (timers s)) (clock s)
          (next_addr s) (next_socket s) (next_timer s) (trace s).
Definition set_clock (c : Z) (s : state) : state :=
  mkState (bridges s) (heap s) (sockets s) (timers s) c
          (next_addr s) (next_socket s) (next_timer s) (trace s).
Definition set_next_addr (n : nat) (s : state) : state :=
  mkState (bridges s) (heap s) (sockets s) (timers s) (clock s)
          n (next_socket s) (next_timer s) (trace s).
Definition set_next_socket (n : nat) (s : state) : state :=
  mkState (bridges s) (heap s) (sockets s) (timers s) (clock s)
          (next_addr s) n (next_timer s) (trace s).
Definition set_next_timer (n : nat) (s : state) : state :=
  mkState (bridges s) (heap s) (sockets s) (timers s) (clock s)
          (next_addr s) (next_socket s) n (trace s).
Definition log_effect (e : effect) (s : state) : state :=
  mkState (bridges s) (heap s) (sockets s) (timers s) (clock s)
          (next_addr s) (next_socket s) (next_timer s) (trace s ++ [e]).

Definition with_ws (w : option nat) (b : BridgeConnection) : BridgeConnection :=
  mkBridge w (onMessage b) (reconnectTimeout b).
Definition with_reconnectTimeout (t : option nat) (b : BridgeConnection)
    : BridgeConnection :=
  mkBridge (ws b) (onMessage b) t.

(** [this.bridges.get(clientId)] *)
Definition find_bridge (clientId : string) (s : state)
    : option (nat * BridgeConnection) :=
  match bridges s !! clientId with
  | Some a =>
      match heap s !! a with
      | Some b => Some (a, b)
      | None => None
      end
  | None => None
  end.

(** [this.bridges.has(clientId)] *)
Definition has_bridge (clientId : string) (s : state) : bool :=
  bool_decide (is_Some (bridges s !! clientId)).

(** Assignment to fields of the object at [a] *)
Definition update (a : nat) (f : BridgeConnection → BridgeConnection)
    (s : state) : state :=
  set_heap (alter f a) s.

(** [ws.readyState === WebSocket.OPEN] *)
Definition is_open (w : nat) (s : state) : bool :=
  match sockets s !! w with
  | Some k => ready_state_eqb (readyState k) OPEN
  | None => false
  end.

Section Service.

Context (rt : Runtime).

(** [closeBridge]: what [close()] throws is ignored. *)
Definition closeBridge (clientId : string) (s : state) : state :=
  match find_bridge clientId s with
  | None => s
  | Some (_, bridge) =>
      let s1 := match reconnectTimeout bridge with
                | Some t => log_effect (TimerCleared t) (set_timers (delete t) s)
                | None => s
                end in
      let s2 := match ws bridge with
                | Some w =>
                    if close_throws rt w then s1
                    else log_effect (SocketClosed w)
                           (set_sockets (alter closing w) s1)
                | None => s1
                end in
      set_bridges (delete clientId) s2
  end.

(** [connectToGateway]: the listeners of the new socket close over
    [clientId] and the bridge object found under it; an exception of
    [new WebSocket] is logged. *)
Definition connectToGateway (clientId : string) (s : state) : state :=
  match find_bridge clientId s with
  | None => s
  | Some (a, _) =>
      if socket_ctor_ok rt then
        let w := next_socket s in
        update a (with_ws (Some w))
          (log_effect (SocketCreated w clientId)
             (set_sockets (insert w (mkSocket clientId a CONNECTING))
                (set_next_socket (S w) s)))
      else s
  end.

(** [createBridge] *)
Definition createBridge (clientId : string) (cb : nat) (s : state) : state :=
  let s1 := if has_bridge clientId s then closeBridge clientId s else s in
  let a := next_addr s1 in
  let s2 := set_bridges (insert clientId a)
              (set_heap (insert a (mkBridge None cb None))
                 (set_next_addr (S a) s1)) in
  connectToGateway clientId s2.

(** [sendMessage]: the message is sent as it is when the socket of the
    bridge is open; otherwise it is dropped, with a warning in the log. *)
Definition sendMessage (clientId : string) (message : jsval) (s : state) : state :=
  match find_bridge clientId s with
  | None => s
  | Some (_, bridge) =>
      match ws bridge with
      | Some w => if is_open w s then log_effect (Sent w message) s else s
      | None => s
      end
  end.

(** [{ type: 'history', limit: 50 }] *)
Definition initial_history : jsval :=
  JObj [("type", JStr "history"); ("limit", JNum 50)].

(** [ws.on('open', ...)] *)
Definition on_open (w : nat) (k : WebSocket) (s : state) : state :=
  sendMessage (ws_clientId k) initial_history
    (update (ws_bridge k) (with_ws (Some w)) s).

(** [ws.on('message', ...)]: [data] is [None] when [JSON.parse] throws.
    The callback is read from the bridge object the listener closed over,
    not looked up under [clientId]. *)
Definition on_message (k : WebSocket) (data : option jsval) (s : state) : state :=
  match data, heap s !! ws_bridge k with
  | Some message, Some bridge =>
      log_effect (Notified (ws_clientId k) (onMessage bridge) message) s
  | _, _ => s
  end.

(** [ws.on('close', ...)] *)
Definition on_close (k : WebSocket) (s : state) : state :=
  let s1 := update (ws_bridge k) (with_ws None) s in
  if has_bridge (ws_clientId k) s1 then
    let t := next_timer s1 in
    update (ws_bridge k) (with_reconnectTimeout (Some t))
      (log_effect (TimerSet t (ws_clientId k) 5000)
         (set_timers (insert t (mkTimer (ws_clientId k) (clock s1 + 5000)))
            (set_next_timer (S t) s1)))
  else s1.

(** The callback handed to [setTimeout] *)
Definition on_timer (clientId : string) (s : state) : state :=
  if has_bridge clientId s then connectToGateway clientId s else s.

(** One turn of the event loop. *)
Definition run (e : event) (s : state) : state :=
  match e with
  | CreateBridge clientId cb => createBridge clientId cb s
  | SendMessage clientId message => sendMessage clientId message s
  | CloseBridge clientId => closeBridge clientId s
  | SocketOpen w =>
      match sockets s !! w with
      | Some k => on_open w k (set_sockets (alter (with_readyState OPEN) w) s)
      | None => s
      end
  | SocketMessage w data =>
      match sockets s !! w with
      | Some k => on_message k data s
      | None => s
      end
  | SocketClosing w => set_sockets (alter (with_readyState CLOSING) w) s
  | SocketClose w =>
      match sockets s !! w with
      | Some k => on_close k (set_sockets (alter (with_readyState CLOSED) w) s)
      | None => s
      end
  | SocketError w => s
  | TimerFire t =>
      match timers s !! t with
      | Some tm => on_timer (timer_clientId tm) (set_timers (delete t) s)
      | None => s
      end
  | Tick ms => set_clock (clock s + ms) s
  end.

(** When the runtime can deliver an event, as for the later revision. *)
Definition enabled (e : event) (s : state) : bool :=
  match e with
  | CreateBridge _ _ | SendMessage _ _ | CloseBridge _ => true
  | SocketOpen w =>
      match sockets s !! w with
      | Some k => ready_state_eqb (readyState k) CONNECTING
      | None => false
      end
  | SocketMessage w _ =>
      match sockets s !! w with
      | Some k => ready_state_eqb (readyState k) OPEN
                  || ready_state_eqb (readyState k) CLOSING
      | None => false
      end
  | SocketClosing w =>
      match sockets s !! w with
      | Some k => ready_state_eqb (readyState k) OPEN
      | None => false
      end
  | SocketClose w | SocketError w =>
      match sockets s !! w with
      | Some k => negb (ready_state_eqb (readyState k) CLOSED)
      | None => false
      end
  | TimerFire t =>
      match timers s !! t with
      | Some tm => (timer_due tm <=? clock s)%Z
      | None => false
      end
  | Tick ms => (0 <=? ms)%Z
  end.

Fixpoint exec (es : list event) (s : state) : option state :=
  match es with
  | [] => Some s
  | e :: rest => if enabled e s then exec rest (run e s) else None
  end.

End Service.

End Legacy.

(** The earlier revision with one client whose socket is open. *)
Definition legacy_connected : Legacy.state :=
  match Legacy.exec demo_runtime [CreateBridge "c1" 7; SocketOpen 0]
          (Legacy.initial 1000) with
  | Some s => s
  | None => Legacy.initial 1000
  end.

(* ===================================================================== *)
(** ** Base64url of a signature is not empty *)
(* ===================================================================== *)






(* ===================================================================== *)
(** ** What the handlers compute *)
(* ===================================================================== *)

Lemma non_null_get (v : jsval) (k : string) :
  non_null v → get v k = Some (get_opt v k).
Proof.
  unfold non_null, get_opt. destruct v; simpl; congruence.
Qed.

Lemma prop_non_null (v : jsval) (k : string) :
  non_null v → prop v k = ret (get_opt v k).
Proof. intros H. unfold prop. rewrite (non_null_get v k H). reflexivity. Qed.

Lemma get_some_non_null (v : jsval) (k : string) (x : jsval) :
  get v k = Some x → non_null v.
Proof. unfold non_null. destruct v; simpl; congruence. Qed.

Lemma get_opt_of_get (v : jsval) (k : string) (x : jsval) :
  get v k = Some x → get_opt v k = x.
Proof. intros H. unfold get_opt. rewrite H. reflexivity. Qed.

(** A truthy or string-valued property can only be read off a value that
    is not [null]. *)
Lemma truthy_get_opt_non_null (v : jsval) (k : string) :
  truthy (get_opt v k) = true → non_null v.
Proof. unfold non_null, get_opt. destruct v; simpl; congruence. Qed.

Lemma is_str_get_opt_non_null (v : jsval) (k lit : string) :
  is_str (get_opt v k) lit = true → non_null v.
Proof. unfold non_null, get_opt. destruct v; simpl; congruence. Qed.

Lemma state_eta (s : state) :
  mkState (bridges s) (heap s) (deviceIdentity s) (sockets s) (timers s)
          (clock s) (uuids s) (next_addr s) (next_socket s) (next_timer s)
          (trace s) = s.
Proof. destruct s; reflexivity. Qed.

Lemma find_bridge_heap (clientId : string) (s : state) (a : nat) (b : BridgeConnection) :
  find_bridge clientId s = Some (a, b) →
  bridges s !! clientId = Some a ∧ heap s !! a = Some b.
Proof.
  unfold find_bridge. destruct (bridges s !! clientId) as [a' |]; [| discriminate].
  destruct (heap s !! a') as [b' |] eqn:Hb; [| discriminate].
  intros [= -> ->]. split; [reflexivity | exact Hb].
Qed.

Lemma find_bridge_put (clientId : string) (s : state) (a : nat) (b b' : BridgeConnection) :
  find_bridge clientId s = Some (a, b) →
  find_bridge clientId (put a b' s) = Some (a, b').
Proof.
  intros Hf. destruct (find_bridge_heap _ _ _ _ Hf) as [Hm _].
  unfold find_bridge. simpl. rewrite Hm, lookup_insert_eq. reflexivity.
Qed.

Lemma update_found (a : nat) (f : BridgeConnection → BridgeConnection)
    (s : state) (b : BridgeConnection) :
  heap s !! a = Some b → update a f s = Ok tt (put a (f b) s).
Proof.
  intros Hb. unfold update, modify, put, set_heap. do 2 f_equal.
  apply map_eq. intros i. rewrite lookup_alter, lookup_insert.
  destruct (decide (a = i)) as [<- |]; [rewrite Hb |]; reflexivity.
Qed.

Lemma put_same (a : nat) (b : BridgeConnection) (s : state) :
  heap s !! a = Some b → put a b s = s.
Proof.
  intros Hb. unfold put, set_heap. rewrite (insert_id _ _ _ Hb).
  apply state_eta.
Qed.

Section Computing.

Context (rt : Runtime).

(** [convertToGatewayFormat] is the translator function. *)
Lemma convertToGatewayFormat_translate (clientId : string) (message : jsval) (s : state) :
  non_null message →
  convertToGatewayFormat rt clientId message s
  = Ok (translate (session_key_of (find_bridge clientId s))
                  (uuidv4 rt (uuids s)) message)
       (if takes_id message then set_uuids (S (uuids s)) s else s).
Proof.
  intros Hm. unfold convertToGatewayFormat, translate, takes_id, bind, gets.
  rewrite (prop_non_null _ _ Hm). unfold ret.
  destruct (is_str (get_opt message "type") "message"
            && truthy (get_opt message "text")); [reflexivity |].
  destruct (is_str (get_opt message "type") "history"); reflexivity.
Qed.

(** On a bridge that is not authenticated, [sendMessage] queues. *)
Lemma sendMessage_queues (clientId : string) (message : jsval) (s : state)
    (a : nat) (b : BridgeConnection) :
  find_bridge clientId s = Some (a, b) →
  authenticated b = false →
  sendMessage rt clientId message s
  = Ok tt (set_heap (alter (fun b => with_messageQueue (messageQueue b ++ [message]) b) a) s).
Proof.
  intros Hf Ha. unfold sendMessage, bind, gets. rewrite Hf, Ha. reflexivity.
Qed.

(** On an authenticated bridge with an open socket, [sendMessage]
    translates and sends. *)
Lemma sendMessage_live (clientId : string) (message : jsval) (s : state)
    (a w : nat) (b : BridgeConnection) :
  find_bridge clientId s = Some (a, b) →
  authenticated b = true →
  ws b = Some w →
  is_open w s = true →
  non_null message →
  sendMessage rt clientId message s
  = Ok tt (log_effect
             (Sent w (translate (session_key_of (Some (a, b)))
                                (uuidv4 rt (uuids s)) message))
             (if takes_id message then set_uuids (S (uuids s)) s else s)).
Proof.
  intros Hf Ha Hw Ho Hm. unfold sendMessage, bind, gets.
  rewrite Hf, Ha, Hw. cbn [negb]. rewrite Ho. cbn [negb].
  rewrite (convertToGatewayFormat_translate _ _ _ Hm), Hf. reflexivity.
Qed.

(** The event router, for a frame that is not [null] and a registered
    bridge: the chain of tests of [handleGatewayMessage]. *)
Lemma handleGatewayMessage_routes (fuel : nat) (clientId : string)
    (message : jsval) (s : state) (a : nat) (b : BridgeConnection) :
  find_bridge clientId s = Some (a, b) →
  non_null message →
  handleGatewayMessage rt fuel clientId message s
  = (let type := get_opt message "type" in
     let event := get_opt message "event" in
     let ok := get_opt message "ok" in
     let payload := get_opt message "payload" in
     if is_str type "event" && is_str event "connect.challenge" then
       handleConnectChallenge rt clientId payload
     else if is_str type "res" && truthy ok
             && is_str (get_opt payload "type") "hello-ok" then
       handleConnectSuccess rt fuel clientId payload
     else if is_str type "res" && negb (truthy ok) then
       emit (Notified clientId (onMessage b)
               (JObj [("type", JStr "error"); ("error", get_opt message "error")]))
     else if is_str type "event" && is_str event "agent" then
       handleAgentEvent clientId payload
     else if is_str type "event" && is_str event "chat" then
       emit (Notified clientId (onMessage b) payload)
     else if is_str type "event" && is_ignored event then
       ret tt
     else if is_str type "res" then
       emit (Notified clientId (onMessage b) message)
     else ret tt) s.
Proof.
  intros Hf Hm. unfold handleGatewayMessage, bind, gets. rewrite Hf.
  rewrite !(prop_non_null _ _ Hm). unfold ret. cbv zeta.
  repeat match goal with
         | |- (if ?c then _ else _) _ = (if ?c then _ else _) _ => destruct c
         end; try reflexivity.
Qed.

(** A socket's [message] listener hands the parsed frame to the router
    under the socket's client id, and swallows what it throws. *)
Lemma run_socket_message (fuel w : nat) (k : WebSocket) (message : jsval) (s : state) :
  sockets s !! w = Some k →
  run rt fuel (SocketMessage w (Some message)) s
  = try_catch (handleGatewayMessage rt fuel (ws_clientId k) message) (ret tt) s.
Proof.
  intros Hk. unfold run, bind, gets. rewrite Hk. reflexivity.
Qed.

End Computing.


(* ===================================================================== *)
(** ** Rules for [keeps] *)
(* ===================================================================== *)

Section KeepsRules.

Context (Inv : state → Prop).

Lemma keeps_ret {A} (a : A) : keeps Inv (ret a).
Proof. intros s Hs. exact Hs. Qed.

Lemma keeps_throw {A} : keeps Inv (@throw A).
Proof. intros s Hs. exact Hs. Qed.

Lemma keeps_gets {A} (f : state → A) : keeps Inv (gets f).
Proof. intros s Hs. exact Hs. Qed.

Lemma keeps_bind {A B} (m : M A) (k : A → M B) :
  keeps Inv m → (∀ a, keeps Inv (k a)) → keeps Inv (bind m k).
Proof.
  intros Hm Hk s Hs. unfold bind. specialize (Hm s Hs).
  destruct (m s) as [a s' | s' |]; [apply Hk, Hm | exact Hm | exact I].
Qed.

Lemma keeps_try_catch (body handler : M unit) :
  keeps Inv body → keeps Inv handler → keeps Inv (try_catch body handler).
Proof.
  intros Hb Hh s Hs. unfold try_catch. specialize (Hb s Hs).
  destruct (body s) as [a s' | s' |]; [exact Hb | apply Hh, Hb | exact I].
Qed.

Lemma keeps_prop (v : jsval) (k : string) : keeps Inv (prop v k).
Proof. unfold prop. destruct (get v k); [apply keeps_ret | apply keeps_throw]. Qed.

Lemma keeps_out_of_fuel {A} : keeps Inv (fun _ => @OutOfFuel A).
Proof. intros s Hs. exact I. Qed.

End KeepsRules.

Create HintDb keeps.
#[local] Hint Resolve keeps_ret keeps_throw keeps_gets keeps_prop keeps_out_of_fuel : keeps.

(** Break a handler into its elementary actions. *)
Ltac keeps_step :=
  match goal with
  | |- keeps _ (bind _ _) => apply keeps_bind; [| intros ?]
  | |- keeps _ (try_catch _ _) => apply keeps_try_catch
  | |- keeps _ (match ?x with _ => _ end) => destruct x
  | |- keeps _ _ => solve [eauto with keeps]
  end.
Ltac keeps_auto := repeat keeps_step.


(** Whether a frame is a handshake success can be decided. *)
Lemma handshake_dec (message : jsval) :
  {is_handshake_success message} + {¬ is_handshake_success message}.
Proof.
  unfold is_handshake_success.
  destruct (is_str (get_opt message "type") "res");
    [| right; intros (H & _); discriminate].
  destruct (truthy (get_opt message "ok"));
    [| right; intros (_ & H & _); discriminate].
  destruct (is_str (get_opt (get_opt message "payload") "type") "hello-ok");
    [left; auto | right; intros (_ & _ & H); discriminate].
Qed.

(* ===================================================================== *)
(** ** Every handler keeps a stable invariant *)
(* ===================================================================== *)

Lemma calm_with_ws w : calm (with_ws w).
Proof. intros b H. exact H. Qed.

Lemma calm_with_messageQueue q : calm (with_messageQueue q).
Proof. intros b H. exact H. Qed.

Lemma calm_push m : calm (fun b => with_messageQueue (messageQueue b ++ [m]) b).
Proof. intros b H. exact H. Qed.

Lemma calm_reset : calm (with_authenticated false).
Proof. intros b H. discriminate. Qed.

Lemma gentle_with_ws w : gentle (with_ws w).
Proof. intros b. reflexivity. Qed.

Lemma gentle_with_messageQueue q : gentle (with_messageQueue q).
Proof. intros b. reflexivity. Qed.

Lemma gentle_push m : gentle (fun b => with_messageQueue (messageQueue b ++ [m]) b).
Proof. intros b. reflexivity. Qed.

Lemma gentle_with_authenticated f : gentle (with_authenticated f).
Proof. intros b. reflexivity. Qed.

#[local] Hint Resolve calm_with_ws calm_with_messageQueue calm_push calm_reset
  gentle_with_ws gentle_with_messageQueue gentle_push gentle_with_authenticated
  : keeps.

Section HandlersKeep.

Context (rt : Runtime) (allowed trusted : string → Prop) (touch : nat → Prop).
Context (Inv : state → Prop) (HInv : stable rt allowed trusted touch Inv).

#[local] Hint Extern 1 (keeps _ (emit _)) =>
  apply (stable_emit _ _ _ _ _ HInv); simpl; auto : keeps.
#[local] Hint Extern 1 (keeps _ (update _ (with_reconnectTimeout _))) =>
  apply (stable_rearm _ _ _ _ _ HInv); auto : keeps.
#[local] Hint Extern 2 (keeps _ (update _ _)) =>
  apply (stable_update _ _ _ _ _ HInv); auto with keeps : keeps.
#[local] Hint Extern 1 (keeps _ (modify (set_sockets (alter closing _)))) =>
  apply (stable_closing _ _ _ _ _ HInv) : keeps.
#[local] Hint Extern 1 (keeps _ (modify (set_uuids _))) =>
  apply (stable_uuids _ _ _ _ _ HInv) : keeps.
#[local] Hint Extern 1 (keeps _ (modify (set_timers (delete _)))) =>
  apply (stable_cancel _ _ _ _ _ HInv) : keeps.
#[local] Hint Extern 1 (keeps _ (modify (set_bridges (delete _)))) =>
  apply (stable_remove _ _ _ _ _ HInv); auto : keeps.
#[local] Hint Extern 1 (keeps _ (setTimeout _ _)) =>
  apply (stable_setTimeout _ _ _ _ _ HInv); auto : keeps.
#[local] Hint Extern 1 (keeps _ (install _ _)) =>
  apply (stable_install _ _ _ _ _ HInv); auto : keeps.

Lemma ws_send_keeps w frame : keeps Inv (ws_send w frame).
Proof. unfold ws_send. keeps_auto. Qed.
#[local] Hint Resolve ws_send_keeps : keeps.

Lemma ws_close_keeps w : keeps Inv (ws_close rt w).
Proof. unfold ws_close. keeps_auto. Qed.
#[local] Hint Resolve ws_close_keeps : keeps.

Lemma clearTimeout_keeps t : keeps Inv (clearTimeout t).
Proof. unfold clearTimeout. keeps_auto. Qed.
#[local] Hint Resolve clearTimeout_keeps : keeps.

Lemma fresh_uuid_keeps : keeps Inv (fresh_uuid rt).
Proof. unfold fresh_uuid. keeps_auto. Qed.
#[local] Hint Resolve fresh_uuid_keeps : keeps.

Lemma signMessage_keeps message : keeps Inv (signMessage rt message).
Proof. unfold signMessage. keeps_auto. Qed.
#[local] Hint Resolve signMessage_keeps : keeps.

Lemma closeBridge_keeps c : allowed c → keeps Inv (closeBridge rt c).
Proof. intros Hc. unfold closeBridge. keeps_auto. Qed.
#[local] Hint Resolve closeBridge_keeps : keeps.

Lemma connectToGateway_keeps c : allowed c → keeps Inv (connectToGateway rt c).
Proof.
  intros Hc s Hs. unfold connectToGateway, bind at 1, gets.
  destruct (find_bridge c s) as [[a b] |] eqn:Hf; [| exact Hs].
  unfold try_catch, bind.
  pose proof (stable_new_socket _ _ _ _ _ HInv c a b s Hc Hs Hf) as Hnew.
  destruct (new_socket rt c a s) as [w s1 | s1 |]; [| exact Hnew | exact I].
  assert (Hup : keeps Inv (update a (with_ws (Some w)))) by keeps_auto.
  specialize (Hup s1 Hnew).
  destruct (update a (with_ws (Some w)) s1); exact Hup.
Qed.
#[local] Hint Resolve connectToGateway_keeps : keeps.

Lemma createBridge_keeps c cb : allowed c → keeps Inv (createBridge rt c cb).
Proof. intros Hc. unfold createBridge. keeps_auto. Qed.

Lemma convertToGatewayFormat_keeps c message :
  keeps Inv (convertToGatewayFormat rt c message).
Proof. unfold convertToGatewayFormat. keeps_auto. Qed.
#[local] Hint Resolve convertToGatewayFormat_keeps : keeps.

Lemma sendMessage_keeps c message : keeps Inv (sendMessage rt c message).
Proof. unfold sendMessage. keeps_auto. Qed.
#[local] Hint Resolve sendMessage_keeps : keeps.

Lemma sendRaw_keeps c message : keeps Inv (sendRaw c message).
Proof. unfold sendRaw. keeps_auto. Qed.
#[local] Hint Resolve sendRaw_keeps : keeps.

Lemma handleConnectChallenge_keeps c payload :
  keeps Inv (handleConnectChallenge rt c payload).
Proof. unfold handleConnectChallenge. keeps_auto. Qed.
#[local] Hint Resolve handleConnectChallenge_keeps : keeps.

Lemma drain_keeps fuel c a : keeps Inv (drain rt fuel c a).
Proof.
  induction fuel as [| fuel IH]; simpl; keeps_auto.
Qed.
#[local] Hint Resolve drain_keeps : keeps.

Lemma handleConnectSuccess_keeps fuel c payload :
  allowed c → trusted c → keeps Inv (handleConnectSuccess rt fuel c payload).
Proof.
  intros Hc Ht s Hs. unfold handleConnectSuccess, bind at 1, gets.
  destruct (find_bridge c s) as [[a b] |] eqn:Hf; [| exact Hs].
  unfold bind at 1.
  destruct (find_bridge_heap _ _ _ _ Hf) as [_ Hb].
  pose proof (update_found a (with_authenticated true) s b Hb) as Hup.
  rewrite Hup.
  pose proof (stable_authenticate _ _ _ _ _ HInv c a b s Ht Hs Hf _ Hup) as Hs1.
  revert Hs1. generalize (put a (with_authenticated true b) s). intros s1 Hs1.
  assert (Hrest : keeps Inv (drain rt fuel c a;;
                             emit (Notified c (onMessage b) gateway_connected)))
    by keeps_auto.
  exact (Hrest s1 Hs1).
Qed.

Lemma handleAgentEvent_keeps c payload :
  allowed c → keeps Inv (handleAgentEvent c payload).
Proof. intros Hc. unfold handleAgentEvent. keeps_auto. Qed.
#[local] Hint Resolve handleAgentEvent_keeps : keeps.

(** The router for a frame that is not a handshake success: no bridge is
    authenticated. *)
Lemma handleGatewayMessage_keeps_plain fuel c message :
  allowed c → ¬ is_handshake_success message →
  keeps Inv (handleGatewayMessage rt fuel c message).
Proof.
  intros Hc Hplain s Hs.
  destruct (find_bridge c s) as [[a b] |] eqn:Hf.
  - destruct (get message "type") as [ty |] eqn:Hty.
    + pose proof (get_some_non_null _ _ _ Hty) as Hnn.
      rewrite (handleGatewayMessage_routes rt fuel c message s a b Hf Hnn).
      cbv zeta.
      destruct (is_str (get_opt message "type") "event"
                && is_str (get_opt message "event") "connect.challenge");
        [apply handleConnectChallenge_keeps, Hs |].
      destruct (is_str (get_opt message "type") "res") eqn:Hres;
        destruct (truthy (get_opt message "ok")) eqn:Hok;
        destruct (is_str (get_opt (get_opt message "payload") "type") "hello-ok")
          eqn:Hhello;
        cbn [andb negb];
        try (exfalso; apply Hplain; repeat split; assumption);
        repeat match goal with
               | |- context [if ?x then _ else _] => destruct x
               end;
        match goal with
        | |- context [handleAgentEvent] => apply handleAgentEvent_keeps; assumption
        | |- context [emit ?e] =>
            apply (stable_emit _ _ _ _ _ HInv e); [exact Hc | exact Hs]
        | |- _ => exact Hs
        end.
    + unfold handleGatewayMessage, bind, gets. rewrite Hf.
      unfold prop. rewrite Hty. exact Hs.
  - unfold handleGatewayMessage, bind, gets. rewrite Hf. exact Hs.
Qed.

(** The router for any frame, on behalf of a trusted client. *)
Lemma handleGatewayMessage_keeps fuel c message :
  allowed c → trusted c → keeps Inv (handleGatewayMessage rt fuel c message).
Proof.
  intros Hc Ht.
  pose proof (handleConnectSuccess_keeps fuel c) as Hsuccess.
  unfold handleGatewayMessage. keeps_auto.
Qed.

Lemma on_open_keeps w k : keeps Inv (on_open w k).
Proof. unfold on_open. keeps_auto. Qed.

Lemma on_message_keeps fuel k data :
  allowed (ws_clientId k) → trusted (ws_clientId k) →
  keeps Inv (on_message rt fuel k data).
Proof.
  intros Hc Ht. unfold on_message.
  apply keeps_try_catch; [| apply keeps_ret].
  destruct data; [apply handleGatewayMessage_keeps; assumption | apply keeps_throw].
Qed.

Lemma on_message_keeps_plain fuel k data :
  allowed (ws_clientId k) →
  (∀ message, data = Some message → ¬ is_handshake_success message) →
  keeps Inv (on_message rt fuel k data).
Proof.
  intros Hc Hplain. unfold on_message.
  apply keeps_try_catch; [| apply keeps_ret].
  destruct data as [message |]; [| apply keeps_throw].
  apply handleGatewayMessage_keeps_plain; [exact Hc | apply Hplain; reflexivity].
Qed.

Lemma on_close_reset_keeps k : keeps Inv (on_close_reset k).
Proof. unfold on_close_reset. keeps_auto. Qed.

Lemma on_close_schedule_keeps k :
  allowed (ws_clientId k) → touch (ws_bridge k) →
  keeps Inv (on_close_schedule k).
Proof. intros Hc Ht. unfold on_close_schedule. keeps_auto. Qed.

Lemma on_close_keeps k :
  allowed (ws_clientId k) → touch (ws_bridge k) → keeps Inv (on_close k).
Proof.
  intros Hc Ht. unfold on_close.
  apply keeps_bind; [apply on_close_reset_keeps | intros _].
  apply on_close_schedule_keeps; assumption.
Qed.

Lemma on_timer_keeps c : allowed c → keeps Inv (on_timer rt c).
Proof. intros Hc. unfold on_timer. keeps_auto. Qed.

(** One turn of the event loop, when the client the event acts for is
    allowed, the bridge its socket captured may be touched, and the client
    of a handshake success is trusted. *)
Lemma run_keeps_at (fuel : nat) (e : event) (s : state) :
  (∀ c, event_client e s = Some c → allowed c) →
  (∀ a, event_bridge e s = Some a → touch a) →
  (∀ w k message, e = SocketMessage w (Some message) →
                  sockets s !! w = Some k →
                  is_handshake_success message → trusted (ws_clientId k)) →
  Inv s →
  match run rt fuel e s with
  | Ok _ s' => Inv s'
  | Raise s' => Inv s'
  | OutOfFuel => True
  end.
Proof.
  intros Hclient Htouch Htrust Hs.
  destruct e as [c cb | c m | c | w | w data | w | w | w | t | ms]; simpl in *.
  - apply createBridge_keeps; [apply Hclient; reflexivity | exact Hs].
  - apply sendMessage_keeps, Hs.
  - apply closeBridge_keeps; [apply Hclient; reflexivity | exact Hs].
  - unfold bind at 1, gets.
    destruct (sockets s !! w) as [k |] eqn:Hk; [| exact Hs].
    unfold bind, set_readyState, modify.
    apply on_open_keeps.
    apply (stable_readyState _ _ _ _ _ HInv w OPEN k s Hs Hk);
      [apply Hclient | apply Htouch]; reflexivity.
  - unfold bind, gets. destruct (sockets s !! w) as [k |] eqn:Hk; [| exact Hs].
    destruct data as [message |].
    + destruct (handshake_dec message) as [Hyes | Hno].
      * apply on_message_keeps;
          [apply Hclient; reflexivity
          | apply (Htrust w k message eq_refl Hk Hyes) | exact Hs].
      * apply on_message_keeps_plain; [apply Hclient; reflexivity | | exact Hs].
        intros message' [= <-]. exact Hno.
    + apply on_message_keeps_plain;
        [apply Hclient; reflexivity | discriminate | exact Hs].
  - unfold set_readyState, modify.
    destruct (sockets s !! w) as [k |] eqn:Hk.
    + apply (stable_readyState _ _ _ _ _ HInv w CLOSING k s Hs Hk);
        [apply Hclient | apply Htouch]; reflexivity.
    + replace (set_sockets (alter (with_readyState CLOSING) w) s) with s;
        [exact Hs |].
      unfold set_sockets. rewrite (alter_id _ _ w).
      * symmetry. apply state_eta.
      * intros k Hk'. congruence.
  - unfold bind at 1, gets.
    destruct (sockets s !! w) as [k |] eqn:Hk; [| exact Hs].
    unfold bind at 1, set_readyState, modify.
    apply on_close_keeps; [apply Hclient | apply Htouch |]; try reflexivity.
    apply (stable_readyState _ _ _ _ _ HInv w CLOSED k s Hs Hk);
      [apply Hclient | apply Htouch]; reflexivity.
  - unfold bind, gets. destruct (sockets s !! w); exact Hs.
  - unfold bind at 1, gets.
    destruct (timers s !! t) as [tm |] eqn:Ht; [| exact Hs].
    unfold bind.
    pose proof (stable_cancel _ _ _ _ _ HInv t s Hs) as Hcancel.
    unfold modify in *.
    apply on_timer_keeps; [apply Hclient; reflexivity | exact Hcancel].
  - apply (stable_clock _ _ _ _ _ HInv (fun s => (clock s + ms)%Z)), Hs.
Qed.

End HandlersKeep.

(* ===================================================================== *)
(** ** Six stable invariants *)
(* ===================================================================== *)

Lemma find_bridge_absent (clientId : string) (s : state) :
  bridges s !! clientId = None → find_bridge clientId s = None.
Proof. intros H. unfold find_bridge. rewrite H. reflexivity. Qed.

Lemma has_bridge_absent (clientId : string) (s : state) :
  bridges s !! clientId = None → has_bridge clientId s = false.
Proof.
  intros H. unfold has_bridge. rewrite H.
  apply bool_decide_eq_false. intros [x Hx]. discriminate.
Qed.

Lemma absent_since_log (clientId : string) (before : list effect)
    (e : effect) (s : state) :
  effect_allowed (fun c => c ≠ clientId) e →
  absent_since clientId before s →
  absent_since clientId before (log_effect e s).
Proof.
  intros He [Habs (new & Htr & Hall)]. split; [exact Habs |].
  exists (new ++ [e]). split.
  - simpl. rewrite Htr. rewrite <- app_assoc. reflexivity.
  - apply Forall_app. split; [exact Hall | constructor; [exact He | constructor]].
Qed.

Lemma absent_since_stable (rt : Runtime) (clientId : string) (before : list effect) :
  stable rt (fun c => c ≠ clientId) (fun _ => True) (fun _ => True)
         (absent_since clientId before).
Proof.
  split.
  - intros a f _ _ s Hs. exact Hs.
  - intros c a b s _ Hs _ s' [= <-]. exact Hs.
  - intros a t _ s Hs. exact Hs.
  - intros w s Hs. exact Hs.
  - intros w r k s Hs _ _ _. exact Hs.
  - intros n s Hs. exact Hs.
  - intros t s Hs. exact Hs.
  - intros e He s Hs. apply absent_since_log; assumption.
  - intros c delay Hc s Hs.
    apply (absent_since_log clientId before (TimerSet (next_timer s) c delay));
      [exact Hc | exact Hs].
  - intros c a b s Hc Hs _. unfold new_socket.
    destruct (socket_ctor_ok rt); [| exact Hs].
    apply (absent_since_log clientId before (SocketCreated (next_socket s) c));
      [exact Hc | exact Hs].
  - intros c cb Hc s [Habs Htr]. split; [| exact Htr].
    simpl. rewrite lookup_insert_ne; [exact Habs | exact Hc].
  - intros c Hc s [Habs Htr]. split; [| exact Htr].
    simpl. rewrite lookup_delete_ne; [exact Habs | exact Hc].
  - intros f s Hs. exact Hs.
Qed.



Lemma registered_live_update (a : nat) (f : BridgeConnection → BridgeConnection)
    (s : state) :
  registered_live s → registered_live (set_heap (alter f a) s).
Proof.
  intros Hs c a' Hc. destruct (Hs c a' Hc) as (Hsome & Hlt & Hinj).
  split; [| split; [exact Hlt | exact Hinj]]. simpl. rewrite lookup_alter.
  destruct (decide (a = a')) as [-> |]; [| exact Hsome].
  apply fmap_is_Some, Hsome.
Qed.

Lemma registered_live_stable (rt : Runtime) :
  stable rt (fun _ => True) (fun _ => True) (fun _ => True) registered_live.
Proof.
  split.
  - intros a f _ _ s Hs. apply registered_live_update, Hs.
  - intros c a b s _ Hs _ s' [= <-]. apply registered_live_update, Hs.
  - intros a t _ s Hs. apply registered_live_update, Hs.
  - intros w s Hs. exact Hs.
  - intros w r k s Hs _ _ _. exact Hs.
  - intros n s Hs. exact Hs.
  - intros t s Hs. exact Hs.
  - intros e _ s Hs. exact Hs.
  - intros c delay _ s Hs. exact Hs.
  - intros c a b s _ Hs _. unfold new_socket.
    destruct (socket_ctor_ok rt); exact Hs.
  - intros c cb _ s Hs c' a' Hc'. simpl in Hc'.
    destruct (decide (c = c')) as [<- | Hne].
    + rewrite lookup_insert_eq in Hc'. injection Hc' as <-.
      split; [simpl; rewrite lookup_insert_eq; eauto |].
      split; [simpl; lia |].
      intros c'' Hc''. simpl in Hc''.
      destruct (decide (c = c'')) as [-> | Hne]; [reflexivity |].
      rewrite lookup_insert_ne in Hc'' by exact Hne.
      destruct (Hs c'' _ Hc'') as (_ & Hlt & _). lia.
    + rewrite lookup_insert_ne in Hc' by exact Hne.
      destruct (Hs c' a' Hc') as (Hsome & Hlt & Hinj).
      split; [simpl; rewrite lookup_insert_ne; [exact Hsome | lia] |].
      split; [simpl; lia |].
      intros c'' Hc''. simpl in Hc''.
      destruct (decide (c = c'')) as [-> | Hne'].
      * rewrite lookup_insert_eq in Hc''. injection Hc'' as Heq. lia.
      * rewrite lookup_insert_ne in Hc'' by exact Hne'. apply Hinj, Hc''.
  - intros c _ s Hs c' a' Hc'. simpl in Hc'.
    apply lookup_delete_Some in Hc' as [_ Hc'].
    destruct (Hs c' a' Hc') as (Hsome & Hlt & Hinj).
    split; [exact Hsome | split; [exact Hlt |]].
    intros c'' Hc''. simpl in Hc''.
    apply lookup_delete_Some in Hc'' as [_ Hc'']. apply Hinj, Hc''.
  - intros f s Hs. exact Hs.
Qed.

Lemma calm_with_reconnectTimeout t : calm (with_reconnectTimeout t).
Proof. intros b H. exact H. Qed.

Lemma unauthenticated_at_update (clientId : string) (a a' : nat)
    (f : BridgeConnection → BridgeConnection) (s : state) :
  calm f →
  unauthenticated_at clientId a s →
  unauthenticated_at clientId a (set_heap (alter f a') s).
Proof.
  intros Hcalm (Hreg & Hlt & Hflag).
  split; [exact Hreg | split; [exact Hlt |]].
  intros b'. simpl. rewrite lookup_alter.
  destruct (decide (a' = a)) as [-> |]; [| apply Hflag].
  destruct (heap s !! a) as [b |] eqn:Hb; simpl; [| discriminate].
  intros [= <-]. specialize (Hflag b eq_refl).
  destruct (authenticated (f b)) eqn:Hfb; [| reflexivity].
  rewrite (Hcalm b Hfb) in Hflag. discriminate.
Qed.

Lemma unauthenticated_at_stable (rt : Runtime) (clientId : string) (a : nat) :
  stable rt (fun _ => True) (fun c => c ≠ clientId) (fun _ => True)
         (unauthenticated_at clientId a).
Proof.
  split.
  - intros a' f Hcalm _ s Hs. apply unauthenticated_at_update; assumption.
  - intros c a' b s Hc (Hreg & Hlt & Hflag) Hf s' [= <-].
    split; [exact Hreg | split; [exact Hlt |]].
    intros b'. simpl. rewrite lookup_alter.
    destruct (decide (a' = a)) as [-> |]; [| apply Hflag].
    destruct (find_bridge_heap _ _ _ _ Hf) as [Hm _].
    destruct Hc. apply Hreg, Hm.
  - intros a' t _ s Hs.
    apply unauthenticated_at_update; [apply calm_with_reconnectTimeout | exact Hs].
  - intros w s Hs. exact Hs.
  - intros w r k s Hs _ _ _. exact Hs.
  - intros n s Hs. exact Hs.
  - intros t s Hs. exact Hs.
  - intros e _ s Hs. exact Hs.
  - intros c delay _ s Hs. exact Hs.
  - intros c a' b s _ Hs _. unfold new_socket.
    destruct (socket_ctor_ok rt); exact Hs.
  - intros c cb _ s (Hreg & Hlt & Hflag).
    split; [| split; [simpl; lia |]].
    + intros c' Hc'. simpl in Hc'. destruct (decide (c = c')) as [-> | Hne].
      * rewrite lookup_insert_eq in Hc'. injection Hc' as Heq. lia.
      * rewrite lookup_insert_ne in Hc' by exact Hne. apply Hreg, Hc'.
    + intros b'. simpl. rewrite lookup_insert_ne by lia. apply Hflag.
  - intros c _ s (Hreg & Hlt & Hflag).
    split; [| split; [exact Hlt | exact Hflag]].
    intros c' Hc'. simpl in Hc'.
    apply lookup_delete_Some in Hc' as [_ Hc']. apply Hreg, Hc'.
  - intros f s Hs. exact Hs.
Qed.



(* ===================================================================== *)
(** ** Invariants along runs of the event loop *)
(* ===================================================================== *)

Lemma keeps_final {A} (Inv : state → Prop) (m : M A) (s s' : state) :
  keeps Inv m → Inv s → final (m s) = Some s' → Inv s'.
Proof.
  intros Hm Hs Hf. specialize (Hm s Hs).
  destruct (m s) as [a s1 | s1 |]; simpl in Hf; congruence.
Qed.

(** An invariant stable for every client and object survives every event. *)
Lemma run_keeps_any (rt : Runtime) (Inv : state → Prop) (fuel : nat) (e : event) :
  stable rt (fun _ => True) (fun _ => True) (fun _ => True) Inv →
  keeps Inv (run rt fuel e).
Proof.
  intros HInv s Hs. apply (run_keeps_at rt _ _ _ Inv HInv); auto.
Qed.

Lemma exec_keeps_any (rt : Runtime) (Inv : state → Prop) (fuel : nat)
    (es : list event) (s s' : state) :
  stable rt (fun _ => True) (fun _ => True) (fun _ => True) Inv →
  Inv s → exec rt fuel es s = Some s' → Inv s'.
Proof.
  intros HInv. revert s.
  induction es as [| e es IH]; intros s Hs Hex; simpl in Hex.
  - congruence.
  - destruct (enabled e s); [| discriminate].
    destruct (final (run rt fuel e s)) as [s1 |] eqn:Hf; [| discriminate].
    apply (IH s1); [| exact Hex].
    eapply keeps_final; [apply run_keeps_any, HInv | exact Hs | exact Hf].
Qed.

(** Handlers working for a client that has no bridge do nothing. *)
Section Absent.

Context (rt : Runtime) (clientId : string) (before : list effect).

Lemma closeBridge_absent (s : state) :
  bridges s !! clientId = None → closeBridge rt clientId s = Ok tt s.
Proof.
  intros H. unfold closeBridge, bind, gets.
  rewrite (find_bridge_absent _ _ H). reflexivity.
Qed.

Lemma sendMessage_absent (message : jsval) (s : state) :
  bridges s !! clientId = None → sendMessage rt clientId message s = Ok tt s.
Proof.
  intros H. unfold sendMessage, bind, gets.
  rewrite (find_bridge_absent _ _ H). reflexivity.
Qed.

Lemma handleGatewayMessage_absent (fuel : nat) (message : jsval) (s : state) :
  bridges s !! clientId = None →
  handleGatewayMessage rt fuel clientId message s = Ok tt s.
Proof.
  intros H. unfold handleGatewayMessage, bind, gets.
  rewrite (find_bridge_absent _ _ H). reflexivity.
Qed.

Lemma on_message_absent (fuel : nat) (k : WebSocket) (data : option jsval) (s : state) :
  ws_clientId k = clientId →
  bridges s !! clientId = None →
  on_message rt fuel k data s = Ok tt s.
Proof.
  intros Hk H. unfold on_message, try_catch. rewrite Hk.
  destruct data as [message |]; [| reflexivity].
  rewrite (handleGatewayMessage_absent _ _ _ H). reflexivity.
Qed.

Lemma on_timer_absent (s : state) :
  bridges s !! clientId = None → on_timer rt clientId s = Ok tt s.
Proof.
  intros H. unfold on_timer, bind, gets.
  rewrite (has_bridge_absent _ _ H). reflexivity.
Qed.

Lemma on_close_schedule_absent (k : WebSocket) :
  keeps (absent_since clientId before) (on_close_schedule k).
Proof.
  destruct (decide (ws_clientId k = clientId)) as [Hk | Hk].
  - intros s Hs. unfold on_close_schedule, bind, gets. rewrite Hk.
    rewrite (has_bridge_absent _ _ (proj1 Hs)). exact Hs.
  - apply (on_close_schedule_keeps rt _ _ _ _ (absent_since_stable rt clientId before)); [exact Hk | exact I].
Qed.

Lemma set_readyState_absent (w : nat) (r : ready_state) :
  keeps (absent_since clientId before) (set_readyState w r).
Proof. intros s Hs. exact Hs. Qed.

(** While no bridge is registered for the client and none is created for
    it, no event does anything on its behalf. *)
Lemma run_keeps_absent (fuel : nat) (e : event) :
  ¬ creates clientId e → keeps (absent_since clientId before) (run rt fuel e).
Proof.
  intros Hcreate. destruct e as [c cb | c m | c | w | w data | w | w | w | t | ms];
    simpl.
  - apply (createBridge_keeps rt _ _ _ _ (absent_since_stable rt clientId before)). exact Hcreate.
  - apply (sendMessage_keeps rt _ _ _ _ (absent_since_stable rt clientId before)).
  - destruct (decide (c = clientId)) as [-> | Hne].
    + intros s Hs. rewrite (closeBridge_absent _ (proj1 Hs)). exact Hs.
    + apply (closeBridge_keeps rt _ _ _ _ (absent_since_stable rt clientId before)), Hne.
  - apply keeps_bind; [apply keeps_gets | intros [k |]; [| apply keeps_ret]].
    apply keeps_bind; [apply set_readyState_absent | intros _].
    apply (on_open_keeps rt _ _ _ _ (absent_since_stable rt clientId before)).
  - apply keeps_bind; [apply keeps_gets | intros [k |]; [| apply keeps_ret]].
    destruct (decide (ws_clientId k = clientId)) as [Hk | Hk].
    + intros s Hs. rewrite (on_message_absent _ _ _ _ Hk (proj1 Hs)). exact Hs.
    + apply (on_message_keeps rt _ _ _ _ (absent_since_stable rt clientId before)); [exact Hk | exact I].
  - apply set_readyState_absent.
  - apply keeps_bind; [apply keeps_gets | intros [k |]; [| apply keeps_ret]].
    apply keeps_bind; [apply set_readyState_absent | intros _].
    apply keeps_bind; [apply (on_close_reset_keeps rt _ _ _ _ (absent_since_stable rt clientId before)) | intros _].
    apply on_close_schedule_absent.
  - apply keeps_bind; [apply keeps_gets | intros [k |]; apply keeps_ret].
  - apply keeps_bind; [apply keeps_gets | intros [tm |]; [| apply keeps_ret]].
    apply keeps_bind; [apply (stable_cancel _ _ _ _ _ (absent_since_stable rt clientId before)) | intros _].
    destruct (decide (timer_clientId tm = clientId)) as [Hk | Hk].
    + intros s Hs. rewrite Hk, (on_timer_absent _ (proj1 Hs)). exact Hs.
    + apply (on_timer_keeps rt _ _ _ _ (absent_since_stable rt clientId before)), Hk.
  - apply (stable_clock _ _ _ _ _ (absent_since_stable rt clientId before) (fun s => (clock s + ms)%Z)).
Qed.

Lemma exec_keeps_absent (fuel : nat) (es : list event) (s s' : state) :
  Forall (fun e => ¬ creates clientId e) es →
  (absent_since clientId before) s → exec rt fuel es s = Some s' → (absent_since clientId before) s'.
Proof.
  intros Hes. revert s.
  induction Hes as [| e es He Hes IH]; intros s Hs Hex; simpl in Hex.
  - congruence.
  - destruct (enabled e s); [| discriminate].
    destruct (final (run rt fuel e s)) as [s1 |] eqn:Hf; [| discriminate].
    apply (IH s1); [| exact Hex].
    eapply keeps_final; [apply run_keeps_absent, He | exact Hs | exact Hf].
Qed.

End Absent.

(** A bridge that is not authenticated stays so until a handshake-success
    frame comes in on a socket made for its client. *)
Lemma run_keeps_unauthenticated (rt : Runtime) (clientId : string) (a fuel : nat)
    (e : event) (s s' : state) :
  ¬ handshake_for clientId e s →
  unauthenticated_at clientId a s →
  final (run rt fuel e s) = Some s' →
  unauthenticated_at clientId a s'.
Proof.
  intros Hno Hs Hf.
  assert (Hs' : match run rt fuel e s with
                | Ok _ s' => unauthenticated_at clientId a s'
                | Raise s' => unauthenticated_at clientId a s'
                | OutOfFuel => True
                end).
  { apply (run_keeps_at rt _ _ _ _ (unauthenticated_at_stable rt clientId a));
      [intros; exact I | intros; exact I | | exact Hs].
    intros w k message -> Hk Hyes Heq. apply Hno. simpl. eauto. }
  destruct (run rt fuel e s) as [u s1 | s1 |]; simpl in Hf; congruence.
Qed.




Lemma reachable_registered_live (rt : Runtime) (identity : option DeviceIdentity)
    (now : Z) (s : state) :
  reachable rt identity now s → registered_live s.
Proof.
  intros (fuel & es & Hex).
  eapply exec_keeps_any; [apply registered_live_stable | | exact Hex].
  intros c a Hc. simpl in Hc. rewrite lookup_empty in Hc. discriminate.
Qed.

(* ===================================================================== *)
(** ** The event router (claims C7 and C8) *)
(* ===================================================================== *)

Lemma ignored_name_not_routed (name : string) :
  In name ignoredEvents →
  is_str (JStr name) "connect.challenge" = false ∧
  is_str (JStr name) "agent" = false ∧
  is_str (JStr name) "chat" = false.
Proof.
  simpl. intros [<- | [<- | [<- | [<- | [<- | []]]]]]; repeat split; reflexivity.
Qed.

Lemma is_str_other (v : jsval) (a b : string) :
  a ≠ b → is_str v a = true → is_str v b = false.
Proof.
  destruct v; simpl; try discriminate.
  intros Hab Ha. apply String.eqb_eq in Ha. subst.
  apply String.eqb_neq. exact Hab.
Qed.

(** An event frame whose name is none of the three routed ones leaves the
    state, and so the trace, as it was. *)
Lemma unrouted_event_dropped (rt : Runtime) (fuel : nat) (clientId : string)
    (message : jsval) (s : state) :
  is_str (get_opt message "type") "event" = true →
  is_str (get_opt message "event") "connect.challenge" = false →
  is_str (get_opt message "event") "agent" = false →
  is_str (get_opt message "event") "chat" = false →
  handleGatewayMessage rt fuel clientId message s = Ok tt s.
Proof.
  intros Hty H1 H2 H3.
  destruct (find_bridge clientId s) as [[a b] |] eqn:Hf.
  - rewrite (handleGatewayMessage_routes rt fuel _ _ _ _ _ Hf
               (is_str_get_opt_non_null _ _ _ Hty)).
    cbv zeta. rewrite Hty, H1, H2, H3.
    rewrite (is_str_other _ "event" "res" ltac:(discriminate) Hty).
    simpl. destruct (is_ignored _); reflexivity.
  - unfold handleGatewayMessage, bind, gets. rewrite Hf. reflexivity.
Qed.

(** C7.  An [event] frame whose name is in the ignore set, or is not one of
    [connect.challenge], [agent], [chat], never invokes the client callback:
    handling it leaves the state and the trace untouched.  A [res] frame
    with a falsy [ok] invokes the callback of the registered bridge exactly
    once, with [{type: 'error', error: <the frame's error>}]. *)
Theorem C7_router_drops_and_reports (rt : Runtime) (fuel w : nat) (k : WebSocket)
    (message : jsval) (s : state) :
  sockets s !! w = Some k →
  (is_str (get_opt message "type") "event" = true →
   (∃ name, get_opt message "event" = JStr name ∧ In name ignoredEvents)
   ∨ (is_str (get_opt message "event") "connect.challenge" = false ∧
      is_str (get_opt message "event") "agent" = false ∧
      is_str (get_opt message "event") "chat" = false) →
   run rt fuel (SocketMessage w (Some message)) s = Ok tt s)
  ∧
  (∀ a b,
     find_bridge (ws_clientId k) s = Some (a, b) →
     is_str (get_opt message "type") "res" = true →
     truthy (get_opt message "ok") = false →
     run rt fuel (SocketMessage w (Some message)) s
     = Ok tt (log_effect
                (Notified (ws_clientId k) (onMessage b)
                   (JObj [("type", JStr "error");
                          ("error", get_opt message "error")]))
                s)).
Proof.
  intros Hk. rewrite (run_socket_message rt fuel w k message s Hk).
  unfold try_catch. split.
  - intros Hty Hname.
    assert (is_str (get_opt message "event") "connect.challenge" = false ∧
            is_str (get_opt message "event") "agent" = false ∧
            is_str (get_opt message "event") "chat" = false) as (H1 & H2 & H3).
    { destruct Hname as [(name & -> & Hin) | H]; [| exact H].
      apply ignored_name_not_routed, Hin. }
    rewrite (unrouted_event_dropped rt fuel _ _ s Hty H1 H2 H3). reflexivity.
  - intros a b Hf Hty Hok.
    rewrite (handleGatewayMessage_routes rt fuel _ _ _ _ _ Hf
               (is_str_get_opt_non_null _ _ _ Hty)).
    cbv zeta. rewrite Hty, Hok.
    rewrite (is_str_other _ "res" "event" ltac:(discriminate) Hty).
    reflexivity.
Qed.

(** [handleAgentEvent] under the listener's [try]/[catch], case by case on
    the payload. *)
Lemma handleAgentEvent_cases (clientId : string) (payload : jsval) (s : state)
    (a : nat) (b : BridgeConnection) :
  find_bridge clientId s = Some (a, b) →
  try_catch (handleAgentEvent clientId payload) (ret tt) s
  = Ok tt
      (let text := get_opt (get_opt payload "delta") "text" in
       let status := get_opt payload "status" in
       if truthy text then
         log_effect
           (Notified clientId (onMessage b)
              (JObj [("type", JStr "response");
                     ("content", text);
                     ("streaming", JBool true);
                     ("runId", get_opt payload "runId")]))
           s
       else if is_str status "completed" || is_str status "done" then
         log_effect
           (Notified clientId (onMessage b)
              (JObj [("type", JStr "response_complete");
                     ("runId", get_opt payload "runId")]))
           s
       else s).
Proof.
  intros Hf. unfold handleAgentEvent, try_catch, bind, gets. rewrite Hf.
  cbv zeta.
  destruct (get payload "type") eqn:Hnull.
  - pose proof (get_some_non_null _ _ _ Hnull) as Hp.
    rewrite !(prop_non_null _ _ Hp). unfold ret.
    destruct (truthy (get_opt (get_opt payload "delta") "text")); [reflexivity |].
    destruct (is_str (get_opt payload "status") "completed"
              || is_str (get_opt payload "status") "done"); reflexivity.
  - destruct payload; simpl in Hnull; try discriminate; reflexivity.
Qed.

(** C8.  For an inbound [event] frame named [agent] under a registered
    bridge: a payload carrying a (truthy) [delta.text] yields exactly one
    [{type: 'response', content, streaming: true, runId}] notification with
    the payload's [runId]; otherwise a [status] of [completed] or [done]
    yields exactly one [{type: 'response_complete', runId}]; any other
    payload leaves the trace as it was. *)
Theorem C8_agent_events (rt : Runtime) (fuel w : nat) (k : WebSocket)
    (message : jsval) (s : state) (a : nat) (b : BridgeConnection) :
  sockets s !! w = Some k →
  find_bridge (ws_clientId k) s = Some (a, b) →
  is_str (get_opt message "type") "event" = true →
  is_str (get_opt message "event") "agent" = true →
  let payload := get_opt message "payload" in
  let text := get_opt (get_opt payload "delta") "text" in
  let status := get_opt payload "status" in
  run rt fuel (SocketMessage w (Some message)) s
  = Ok tt
      (if truthy text then
         log_effect
           (Notified (ws_clientId k) (onMessage b)
              (JObj [("type", JStr "response");
                     ("content", text);
                     ("streaming", JBool true);
                     ("runId", get_opt payload "runId")]))
           s
       else if is_str status "completed" || is_str status "done" then
         log_effect
           (Notified (ws_clientId k) (onMessage b)
              (JObj [("type", JStr "response_complete");
                     ("runId", get_opt payload "runId")]))
           s
       else s).
Proof.
  intros Hk Hf Hty Hev.
  rewrite (run_socket_message rt fuel w k message s Hk).
  transitivity (try_catch (handleAgentEvent (ws_clientId k)
                             (get_opt message "payload")) (ret tt) s).
  - unfold try_catch.
    rewrite (handleGatewayMessage_routes rt fuel _ _ _ _ _ Hf
               (is_str_get_opt_non_null _ _ _ Hty)).
    cbv zeta. rewrite Hty, Hev.
    rewrite (is_str_other _ "event" "res" ltac:(discriminate) Hty).
    rewrite (is_str_other _ "agent" "connect.challenge" ltac:(discriminate) Hev).
    reflexivity.
  - apply (handleAgentEvent_cases _ _ s a b Hf).
Qed.

(* ===================================================================== *)
(** ** The history limit (claim C10) *)
(* ===================================================================== *)

(** C10.  On an authenticated bridge whose socket is open, a message of
    type [history] is sent as one [sessions.history] request whose
    [params.limit] is the supplied limit when that is truthy and 50 when it
    is absent or falsy; a limit of 0 gives 50. *)
Theorem C10_history_limit (rt : Runtime) (clientId : string) (message : jsval)
    (s : state) (a w : nat) (b : BridgeConnection) :
  find_bridge clientId s = Some (a, b) →
  authenticated b = true →
  ws b = Some w →
  is_open w s = true →
  is_str (get_opt message "type") "history" = true →
  let limit := get_opt message "limit" in
  sendMessage rt clientId message s
  = Ok tt (log_effect
             (Sent w (JObj [("type", JStr "req");
                            ("id", JStr (uuidv4 rt (uuids s)));
                            ("method", JStr "sessions.history");
                            ("params",
                             JObj [("sessionKey", session_key_of (Some (a, b)));
                                   ("limit", if truthy limit then limit
                                             else JNum 50)])]))
             (set_uuids (S (uuids s)) s))
  ∧ (limit = JNum 0 ∨ limit = JUndefined ∨ limit = JNull ∨ limit = JStr ""
     ∨ limit = JBool false →
     (if truthy limit then limit else JNum 50) = JNum 50).
Proof.
  intros Hf Ha Hw Ho Hty. cbv zeta. split.
  - rewrite (sendMessage_live rt _ _ _ _ _ _ Hf Ha Hw Ho
               (is_str_get_opt_non_null _ _ _ Hty)).
    unfold translate, takes_id, or_else. rewrite Hty.
    rewrite (is_str_other _ "history" "message" ltac:(discriminate) Hty).
    reflexivity.
  - intros [-> | [-> | [-> | [-> | ->]]]]; reflexivity.
Qed.

Lemma C7_witness :
  sockets demo_connected !! 0 = Some (mkSocket "c1" 0 OPEN)
  ∧ run demo_runtime 1 (SocketMessage 0 (Some tick_frame)) demo_connected
    = Ok tt demo_connected
  ∧ run demo_runtime 1 (SocketMessage 0 (Some failure_frame)) demo_connected
    = Ok tt (log_effect
               (Notified "c1" 7
                  (JObj [("type", JStr "error");
                         ("error", JObj [("code", JStr "denied")])]))
               demo_connected).
Proof.
  assert (Hk : sockets demo_connected !! 0 = Some (mkSocket "c1" 0 OPEN))
    by (vm_compute; reflexivity).
  split; [exact Hk | split].
  - apply (C7_router_drops_and_reports demo_runtime 1 0 _ tick_frame _ Hk).
    + reflexivity.
    + left. exists "tick". split; [reflexivity | simpl; auto].
  - apply (proj2 (C7_router_drops_and_reports demo_runtime 1 0 _ failure_frame _ Hk)
             0 (mkBridge (Some 0) 7 None false [] None));
      vm_compute; reflexivity.
Defined.

Lemma C8_witness :
  run demo_runtime 1 (SocketMessage 0 (Some (agent_frame delta_payload))) demo_connected
  = Ok tt (log_effect
             (Notified "c1" 7
                (JObj [("type", JStr "response");
                       ("content", JStr "hi");
                       ("streaming", JBool true);
                       ("runId", JStr "r1")]))
             demo_connected)
  ∧ run demo_runtime 1 (SocketMessage 0 (Some (agent_frame done_payload))) demo_connected
    = Ok tt (log_effect
               (Notified "c1" 7
                  (JObj [("type", JStr "response_complete");
                         ("runId", JStr "r1")]))
               demo_connected).
Proof.
  assert (Hk : sockets demo_connected !! 0 = Some (mkSocket "c1" 0 OPEN))
    by (vm_compute; reflexivity).
  assert (Hf : find_bridge "c1" demo_connected
               = Some (0, mkBridge (Some 0) 7 None false [] None))
    by (vm_compute; reflexivity).
  split.
  - exact (C8_agent_events demo_runtime 1 0 _ (agent_frame delta_payload) _ _ _
             Hk Hf eq_refl eq_refl).
  - exact (C8_agent_events demo_runtime 1 0 _ (agent_frame done_payload) _ _ _
             Hk Hf eq_refl eq_refl).
Defined.

Lemma C10_witness :
  sendMessage demo_runtime "c1" (history_message (JNum 0)) demo_authenticated
  = Ok tt (log_effect
             (Sent 0 (history_request (uuidv4 demo_runtime 1) (JNum 50)))
             (set_uuids 2 demo_authenticated))
  ∧ sendMessage demo_runtime "c1" (history_message (JNum 10)) demo_authenticated
    = Ok tt (log_effect
               (Sent 0 (history_request (uuidv4 demo_runtime 1) (JNum 10)))
               (set_uuids 2 demo_authenticated)).
Proof.
  assert (Hf : find_bridge "c1" demo_authenticated
               = Some (0, mkBridge (Some 0) 7 None true [] None))
    by (vm_compute; reflexivity).
  assert (Ho : is_open 0 demo_authenticated = true) by (vm_compute; reflexivity).
  split.
  - exact (proj1 (C10_history_limit demo_runtime "c1" (history_message (JNum 0))
                    _ _ _ _ Hf eq_refl eq_refl Ho eq_refl)).
  - exact (proj1 (C10_history_limit demo_runtime "c1" (history_message (JNum 10))
                    _ _ _ _ Hf eq_refl eq_refl Ho eq_refl)).
Defined.

(* ===================================================================== *)
(** ** The handshake request (claim C3) *)
(* ===================================================================== *)






(* ===================================================================== *)
(** ** The outbound queue (claims C2 and C4) *)
(* ===================================================================== *)

Lemma trace_log_all (es : list effect) (s : state) :
  trace (log_all es s) = trace s ++ es.
Proof.
  revert s. induction es as [| e es IH]; intros s; simpl.
  - rewrite app_nil_r. reflexivity.
  - rewrite IH. simpl. rewrite <- app_assoc. reflexivity.
Qed.

Section Queue.

Context (rt : Runtime) (clientId : string) (a w : nat).

(** Before authentication, [sendMessage] appends to the queue. *)
Lemma sendMessage_appends (m : jsval) (s : state) (b : BridgeConnection) :
  find_bridge clientId s = Some (a, b) →
  authenticated b = false →
  sendMessage rt clientId m s
  = Ok tt (put a (with_messageQueue (messageQueue b ++ [m]) b) s).
Proof.
  intros Hf Ha. unfold sendMessage, bind, gets. rewrite Hf, Ha. cbn [negb].
  apply (update_found a (fun b => with_messageQueue (messageQueue b ++ [m]) b)).
  apply (find_bridge_heap _ _ _ _ Hf).
Qed.


(** The drain loop on an authenticated bridge with an open socket: every
    queued message is translated and sent, in order, and the queue ends
    empty. *)
Lemma drain_live (q : list jsval) :
  ∀ (fuel : nat) (s : state) (b : BridgeConnection),
    find_bridge clientId s = Some (a, b) →
    authenticated b = true →
    ws b = Some w →
    is_open w s = true →
    messageQueue b = q →
    Forall non_null q →
    (length q ≤ fuel)%nat →
    drain rt fuel clientId a s
    = Ok tt (log_all
               (List.map (Sent w)
                  (translate_all rt (session_key_of (Some (a, b))) (uuids s) q))
               (set_uuids (ids_after (uuids s) q)
                  (put a (with_messageQueue [] b) s))).
Proof.
  induction q as [| m q IH]; intros fuel s b Hf Ha Hw Ho Hq Hnn Hfuel.
  - destruct (find_bridge_heap _ _ _ _ Hf) as [_ Hb].
    assert (Hdone : drain rt fuel clientId a s = Ok tt s).
    { destruct fuel; simpl; unfold bind, gets; rewrite Hb, Hq; reflexivity. }
    rewrite Hdone. simpl. rewrite put_same.
    + unfold set_uuids. rewrite state_eta. reflexivity.
    + rewrite <- Hq. destruct b; exact Hb.
  - destruct fuel as [| fuel]; [simpl in Hfuel; lia |].
    destruct (find_bridge_heap _ _ _ _ Hf) as [_ Hb].
    inversion Hnn as [| ? ? Hm Hrest]; subst.
    simpl drain. unfold bind at 1, gets. rewrite Hb, Hq.
    unfold bind at 1. rewrite (update_found a _ s b Hb).
    set (b1 := with_messageQueue q b).
    assert (Hf1 : find_bridge clientId (put a b1 s) = Some (a, b1))
      by (apply (find_bridge_put _ _ _ _ _ Hf)).
    unfold bind at 1.
    rewrite (sendMessage_live rt _ m (put a b1 s) a w b1 Hf1 Ha Hw Ho Hm).
    set (e := Sent w _).
    destruct (takes_id m) eqn:Hid.
    + rewrite (IH fuel _ b1); try assumption; try reflexivity;
        [| simpl in Hfuel; lia].
      simpl. rewrite Hid. do 2 f_equal.
      unfold put, set_heap, set_uuids, log_effect. simpl.
      rewrite insert_insert_eq. reflexivity.
    + rewrite (IH fuel _ b1); try assumption; try reflexivity;
        [| simpl in Hfuel; lia].
      simpl. rewrite Hid. do 2 f_equal.
      unfold put, set_heap, set_uuids, log_effect. simpl.
      rewrite insert_insert_eq. reflexivity.
Qed.


End Queue.

Section Flush.

Context (rt : Runtime).

(** With the socket not open, the drain loop puts every message it takes
    off the queue back on it and never ends. *)
Lemma drain_never_ends (clientId : string) (a : nat) (fuel : nat) :
  ∀ (s : state) (b : BridgeConnection),
    find_bridge clientId s = Some (a, b) →
    authenticated b = true →
    match ws b with
    | Some w => is_open w s
    | None => false
    end = false →
    messageQueue b ≠ [] →
    drain rt fuel clientId a s = OutOfFuel.
Proof.
  induction fuel as [| fuel IH]; intros s b Hf Ha Hclosed Hq;
    destruct (find_bridge_heap _ _ _ _ Hf) as [_ Hb];
    destruct (messageQueue b) as [| m q] eqn:Hmq; try congruence;
    simpl; unfold bind at 1, gets; rewrite Hb, Hmq; [reflexivity |].
  unfold bind at 1. rewrite (update_found a _ s b Hb).
  set (b1 := with_messageQueue q b).
  assert (Hf1 : find_bridge clientId (put a b1 s) = Some (a, b1))
    by (apply (find_bridge_put _ _ _ _ _ Hf)).
  assert (Hsend : sendMessage rt clientId m (put a b1 s)
                  = Ok tt (put a (with_messageQueue (q ++ [m]) b1) (put a b1 s))).
  { unfold sendMessage, bind, gets. rewrite Hf1.
    change (authenticated b1) with (authenticated b). rewrite Ha. cbn [negb].
    change (match ws b1 with
            | Some w => is_open w (put a b1 s)
            | None => false
            end)
      with (match ws b with Some w => is_open w s | None => false end).
    rewrite Hclosed. cbn [negb].
    apply (update_found a (fun b => with_messageQueue (messageQueue b ++ [m]) b)).
    apply (find_bridge_heap _ _ _ _ Hf1). }
  unfold bind. rewrite Hsend.
  apply (IH _ (with_messageQueue (q ++ [m]) b1)).
  - apply (find_bridge_put _ _ _ _ _ Hf1).
  - exact Ha.
  - exact Hclosed.
  - simpl. destruct q; discriminate.
Qed.

(** [handleConnectSuccess] on a bridge whose socket is open. *)
Lemma handleConnectSuccess_flushes (fuel : nat) (clientId : string)
    (payload : jsval) (s : state) (a w : nat) (b : BridgeConnection) :
  find_bridge clientId s = Some (a, b) →
  ws b = Some w →
  is_open w s = true →
  Forall non_null (messageQueue b) →
  (length (messageQueue b) ≤ fuel)%nat →
  handleConnectSuccess rt fuel clientId payload s
  = Ok tt
      (log_effect (Notified clientId (onMessage b) gateway_connected)
         (log_all
            (List.map (Sent w)
               (translate_all rt (session_key_of (Some (a, b))) (uuids s)
                  (messageQueue b)))
            (set_uuids (ids_after (uuids s) (messageQueue b))
               (put a (with_authenticated true (with_messageQueue [] b)) s)))).
Proof.
  intros Hf Hw Ho Hnn Hfuel.
  destruct (find_bridge_heap _ _ _ _ Hf) as [_ Hb].
  unfold handleConnectSuccess, bind at 1, gets. rewrite Hf.
  unfold bind at 1. rewrite (update_found a _ s b Hb).
  unfold bind.
  rewrite (drain_live rt clientId a w (messageQueue b) fuel
             (put a (with_authenticated true b) s) (with_authenticated true b));
    try assumption; try reflexivity.
  - unfold emit, modify. do 3 f_equal.
    unfold put, set_heap, set_uuids. simpl.
    rewrite insert_insert_eq. reflexivity.
  - apply (find_bridge_put _ _ _ _ _ Hf).
Qed.

(** A handshake-success frame reaches [handleConnectSuccess]. *)
Lemma run_handshake_success (fuel w : nat) (k : WebSocket) (message : jsval)
    (s : state) (a : nat) (b : BridgeConnection) :
  sockets s !! w = Some k →
  find_bridge (ws_clientId k) s = Some (a, b) →
  is_handshake_success message →
  run rt fuel (SocketMessage w (Some message)) s
  = try_catch (handleConnectSuccess rt fuel (ws_clientId k)
                 (get_opt message "payload")) (ret tt) s.
Proof.
  intros Hk Hf (Hty & Hok & Hhello).
  rewrite (run_socket_message rt fuel w k message s Hk). unfold try_catch.
  rewrite (handleGatewayMessage_routes rt fuel _ _ _ _ _ Hf
             (is_str_get_opt_non_null _ _ _ Hty)).
  cbv zeta. rewrite Hty, Hok, Hhello.
  rewrite (is_str_other _ "res" "event" ltac:(discriminate) Hty).
  reflexivity.
Qed.

End Flush.



Lemma occurs_before_lookup (e1 e2 : effect) (tr : list effect) :
  occurs_before e1 e2 tr →
  ∃ i j, (i < j)%nat ∧ tr !! i = Some e1 ∧ tr !! j = Some e2.
Proof.
  intros (l1 & l2 & l3 & ->).
  exists (length l1), (length l1 + S (length l2))%nat. split; [lia | split].
  - rewrite lookup_app_r, Nat.sub_diag; [reflexivity | lia].
  - rewrite lookup_app_r; [| lia].
    replace (length l1 + S (length l2) - length l1)%nat with (S (length l2)) by lia.
    simpl. rewrite lookup_app_r, Nat.sub_diag; [reflexivity | lia].
Qed.

(** C4 as stated fails: in the scenario of the specification the history
    request goes out first and the [gateway_connected] notification follows
    it. *)
Lemma C4_connected_not_before_request :
  let request := Sent 0 (history_request (uuidv4 demo_runtime 0) (JNum 10)) in
  let connected := Notified "c1" 7 gateway_connected in
  ∃ s,
    exec demo_runtime 1
      [CreateBridge "c1" 7; SocketOpen 0;
       SendMessage "c1" (history_message (JNum 10));
       SocketMessage 0 (Some hello_ok_frame)] demo_start = Some s
    ∧ trace s = [SocketCreated 0 "c1"; request; connected]
    ∧ ¬ occurs_before connected request (trace s).
Proof.
  cbv zeta. eexists. split; [vm_compute; reflexivity |].
  split; [reflexivity |].
  intros H. apply occurs_before_lookup in H as (i & j & Hij & Hi & Hj).
  destruct i as [| [| [| i]]]; simpl in Hi; try discriminate.
  destruct j as [| [| [| j]]]; simpl in Hj; try discriminate; lia.
Qed.

(** C4, amended.  A history message with limit 10 submitted before
    authentication on a bridge with an empty queue produces nothing at
    first; when the handshake-success frame arrives, exactly one outbound
    [sessions.history] request with [params.limit] 10 is sent, and the
    [gateway_connected] notification is delivered after it. *)
Theorem C4_history_sent_then_connected (rt : Runtime) (fuel w wb : nat)
    (k : WebSocket) (message : jsval) (s : state) (a : nat) (b : BridgeConnection) :
  sockets s !! w = Some k →
  find_bridge (ws_clientId k) s = Some (a, b) →
  authenticated b = false →
  messageQueue b = [] →
  ws b = Some wb →
  is_open wb s = true →
  is_handshake_success message →
  (1 ≤ fuel)%nat →
  ∃ s1 s2,
    sendMessage rt (ws_clientId k) (history_message (JNum 10)) s = Ok tt s1
    ∧ trace s1 = trace s
    ∧ run rt fuel (SocketMessage w (Some message)) s1 = Ok tt s2
    ∧ trace s2
      = trace s
        ++ [Sent wb
              (JObj [("type", JStr "req");
                     ("id", JStr (uuidv4 rt (uuids s)));
                     ("method", JStr "sessions.history");
                     ("params",
                      JObj [("sessionKey", session_key_of (Some (a, b)));
                            ("limit", JNum 10)])]);
            Notified (ws_clientId k) (onMessage b) gateway_connected].
Proof.
  intros Hk Hf Ha Hq Hw Ho Hmsg Hfuel.
  set (bq := with_messageQueue (messageQueue b ++ [history_message (JNum 10)]) b).
  assert (Hfq : find_bridge (ws_clientId k) (put a bq s) = Some (a, bq))
    by (apply (find_bridge_put _ _ _ _ _ Hf)).
  assert (Hnn : Forall non_null (messageQueue bq)).
  { simpl. rewrite Hq. repeat constructor. discriminate. }
  assert (Hlen : (length (messageQueue bq) ≤ fuel)%nat).
  { simpl. rewrite Hq. simpl. exact Hfuel. }
  exists (put a bq s). eexists. split; [| split; [| split]].
  - apply (sendMessage_appends rt _ a _ s b Hf Ha).
  - reflexivity.
  - rewrite (run_handshake_success rt fuel w k message (put a bq s) a bq
               Hk Hfq Hmsg).
    unfold try_catch.
    rewrite (handleConnectSuccess_flushes rt fuel _ _ (put a bq s) a wb bq
               Hfq Hw Ho Hnn Hlen).
    reflexivity.
  - simpl. rewrite trace_log_all. simpl. rewrite Hq. simpl.
    rewrite <- app_assoc. reflexivity.
Qed.

Lemma C4_witness :
  ∃ s1 s2,
    sendMessage demo_runtime "c1" (history_message (JNum 10)) demo_connected
    = Ok tt s1
    ∧ run demo_runtime 1 (SocketMessage 0 (Some hello_ok_frame)) s1 = Ok tt s2
    ∧ trace s2
      = [SocketCreated 0 "c1";
         Sent 0 (history_request (uuidv4 demo_runtime 0) (JNum 10));
         Notified "c1" 7 gateway_connected].
Proof.
  assert (Hk : sockets demo_connected !! 0 = Some (mkSocket "c1" 0 OPEN))
    by (vm_compute; reflexivity).
  assert (Hf : find_bridge "c1" demo_connected
               = Some (0, mkBridge (Some 0) 7 None false [] None))
    by (vm_compute; reflexivity).
  assert (Ho : is_open 0 demo_connected = true) by (vm_compute; reflexivity).
  assert (Hmsg : is_handshake_success hello_ok_frame)
    by (repeat split; reflexivity).
  destruct (C4_history_sent_then_connected demo_runtime 1 0 0 _ hello_ok_frame
              demo_connected 0 _ Hk Hf eq_refl eq_refl eq_refl Ho Hmsg
              ltac:(lia))
    as (s1 & s2 & Hsend & _ & Hrun & Htrace).
  exists s1, s2. split; [exact Hsend | split; [exact Hrun | exact Htrace]].
Defined.

(* ===================================================================== *)
(** ** Superseded transports (claim C1) *)
(* ===================================================================== *)

(** C1 as stated fails.  After [closeBridge] and a new [createBridge] for
    the same client, the socket of the closed session is still closing and
    may deliver frames: the answer to the connect request it sent, or an
    event.  A chat event it delivers reaches the callback of the new
    session, and a handshake-success frame it delivers marks the new bridge
    authenticated. *)
Lemma C1_stale_frame_reaches_new_session :
  ∃ s s1 s2,
    exec demo_runtime 1
      [CreateBridge "c1" 1; SocketOpen 0;
       SocketMessage 0 (Some (challenge_frame "abc" 1000));
       CloseBridge "c1"; CreateBridge "c1" 2]
      demo_start = Some s
    ∧ find_bridge "c1" s = Some (1, mkBridge (Some 1) 2 None false [] None)
    ∧ sockets s !! 0 = Some (mkSocket "c1" 0 CLOSING)
    ∧ enabled (SocketMessage 0 (Some (chat_frame (JStr "late")))) s = true
    ∧ run demo_runtime 1 (SocketMessage 0 (Some (chat_frame (JStr "late")))) s
      = Ok tt s1
    ∧ trace s1 = trace s ++ [Notified "c1" 2 (JStr "late")]
    ∧ run demo_runtime 1 (SocketMessage 0 (Some hello_ok_frame)) s = Ok tt s2
    ∧ find_bridge "c1" s2 = Some (1, mkBridge (Some 1) 2 None true [] None).
Proof.
  do 3 eexists. split; [vm_compute; reflexivity |].
  repeat split; vm_compute; reflexivity.
Qed.

(** C1, amended.  A frame delivered by a socket is ignored, whatever it
    is, when no bridge is registered under the client id the socket was made
    for; otherwise it is handled against the bridge registered under that
    client id, in the same way whichever socket of that client delivers
    it. *)
Theorem C1_frames_routed_by_client_id (rt : Runtime) (fuel w : nat)
    (k : WebSocket) (data : option jsval) (s : state) :
  sockets s !! w = Some k →
  (bridges s !! ws_clientId k = None →
   run rt fuel (SocketMessage w data) s = Ok tt s)
  ∧ (∀ w' k', sockets s !! w' = Some k' →
              ws_clientId k' = ws_clientId k →
              run rt fuel (SocketMessage w' data) s
              = run rt fuel (SocketMessage w data) s).
Proof.
  intros Hk. split.
  - intros Habs. unfold run, bind, gets. rewrite Hk.
    apply (on_message_absent rt _ fuel k data s eq_refl Habs).
  - intros w' k' Hk' Heq. unfold run, bind, gets. rewrite Hk, Hk'.
    unfold on_message. rewrite Heq. reflexivity.
Qed.

Lemma C1_witness :
  ∃ s,
    exec demo_runtime 1 [CreateBridge "c1" 1; SocketOpen 0; CloseBridge "c1"]
      demo_start = Some s
    ∧ run demo_runtime 1 (SocketMessage 0 (Some (chat_frame (JStr "late")))) s
      = Ok tt s.
Proof.
  eexists. split; [vm_compute; reflexivity |].
  refine (proj1 (C1_frames_routed_by_client_id demo_runtime 1 0
                   (mkSocket "c1" 0 CLOSING) _ _ _) _);
    vm_compute; reflexivity.
Defined.

(* ===================================================================== *)
(** ** Closing a bridge and the reconnect timer (claims C5 and C6) *)
(* ===================================================================== *)

Section Closing.

Context (rt : Runtime).

(** What [closeBridge] does to a registered bridge: the pending timer is
    cleared, [close()] is called on the socket and what it throws is
    swallowed, the entry is removed. *)
Lemma closeBridge_registered (clientId : string) (s : state) (a : nat)
    (b : BridgeConnection) :
  find_bridge clientId s = Some (a, b) →
  closeBridge rt clientId s
  = Ok tt
      (let s1 := match reconnectTimeout b with
                 | Some t => log_effect (TimerCleared t) (set_timers (delete t) s)
                 | None => s
                 end in
       let s2 := match ws b with
                 | Some w =>
                     if close_throws rt w then s1
                     else log_effect (SocketClosed w)
                            (set_sockets (alter closing w) s1)
                 | None => s1
                 end in
       set_bridges (delete clientId) s2).
Proof.
  intros Hf. unfold closeBridge, bind, gets. rewrite Hf. cbv zeta.
  destruct (reconnectTimeout b) as [t |]; destruct (ws b) as [w |]; simpl;
    unfold try_catch, ws_close; try destruct (close_throws rt w); reflexivity.
Qed.

(** Either way the client has no entry afterwards, and [closeBridge]
    returns. *)
Lemma closeBridge_removes (clientId : string) (s : state) :
  registered_live s →
  ∃ s', closeBridge rt clientId s = Ok tt s'
        ∧ bridges s' = delete clientId (bridges s)
        ∧ (∃ new, trace s' = trace s ++ new
                  ∧ Forall (effect_allowed (fun c => c ≠ clientId)) new).
Proof.
  intros Hlive.
  destruct (bridges s !! clientId) as [a |] eqn:Hm.
  - destruct (Hlive _ _ Hm) as [[b Hb] _].
    assert (Hf : find_bridge clientId s = Some (a, b))
      by (unfold find_bridge; rewrite Hm, Hb; reflexivity).
    rewrite (closeBridge_registered _ _ _ _ Hf). cbv zeta.
    eexists. split; [reflexivity |].
    destruct (reconnectTimeout b) as [t |]; destruct (ws b) as [w |];
      try destruct (close_throws rt w); simpl;
      (split; [reflexivity |]);
      first [ exists []; rewrite app_nil_r; split; [reflexivity | constructor]
            | eexists [_]; split; [reflexivity | repeat constructor]
            | eexists [_; _]; split;
              [rewrite <- app_assoc; reflexivity | repeat constructor] ].
  - rewrite (closeBridge_absent rt _ _ Hm). exists s.
    split; [reflexivity | split].
    + symmetry. apply delete_id, Hm.
    + exists []. rewrite app_nil_r. split; [reflexivity | constructor].
Qed.


(** After [closeBridge], and until a [createBridge] for the same client,
    nothing is done for that client. *)
Lemma closeBridge_then_absent (clientId : string) (s s' : state) :
  registered_live s →
  closeBridge rt clientId s = Ok tt s' →
  bridges s' !! clientId = None
  ∧ ∀ fuel es s'',
      Forall (fun e => ¬ creates clientId e) es →
      exec rt fuel es s' = Some s'' →
      absent_since clientId (trace s') s''.
Proof.
  intros Hlive Hclose.
  destruct (closeBridge_removes clientId s Hlive) as (s0 & Hrun & Hm & _).
  rewrite Hrun in Hclose. injection Hclose as <-.
  assert (Habs : bridges s0 !! clientId = None)
    by (rewrite Hm; apply lookup_delete_eq).
  split; [exact Habs |].
  intros fuel es s'' Hes Hex.
  apply (exec_keeps_absent rt clientId (trace s0) fuel es s0 s'' Hes); [| exact Hex].
  split; [exact Habs |]. exists []. rewrite app_nil_r.
  split; [reflexivity | constructor].
Qed.

End Closing.

(** C5 as stated fails on one point: a reconnect timer can run after the
    final [closeBridge].  When the client is re-created before the socket of
    the replaced session reports its close, that close event arms a timer
    (the client id is registered again) on the replaced bridge object, where
    the final [closeBridge] does not look for it.  The timer runs when due,
    finds no entry and does nothing. *)
Lemma C5_orphan_timer_runs_after_final_close :
  ∃ s s',
    exec demo_runtime 1
      [CreateBridge "c1" 1; SocketOpen 0; CreateBridge "c1" 2; SocketClose 0;
       CloseBridge "c1"] demo_start = Some s
    ∧ bridges s !! "c1" = None
    ∧ timers s !! 0 = Some (mkTimer "c1" 6000)
    ∧ exec demo_runtime 1 [Tick 5000; TimerFire 0] s = Some s'
    ∧ trace s' = trace s
    ∧ sockets s' = sockets s.
Proof.
  do 2 eexists. split; [vm_compute; reflexivity |].
  repeat split; vm_compute; reflexivity.
Qed.

(** C5, amended.  [closeBridge] never throws and is idempotent.  For an
    absent client it changes nothing.  For a registered bridge it clears the
    bridge's pending timer, calls [close()] on its socket swallowing what
    that throws, and removes the entry.  From then on, until a
    [createBridge] for the same client, the client has no entry, its
    callback is not invoked, no socket is created and no timer is armed for
    it: a reconnect timer that still runs does nothing. *)
Theorem C5_closeBridge_then_silence (rt : Runtime) (clientId : string) (s : state) :
  registered_live s →
  ∃ s',
    closeBridge rt clientId s = Ok tt s'
    ∧ (bridges s !! clientId = None → s' = s)
    ∧ (∀ a b,
         find_bridge clientId s = Some (a, b) →
         bridges s' = delete clientId (bridges s)
         ∧ (∀ t, reconnectTimeout b = Some t → timers s' !! t = None)
         ∧ (∀ w, ws b = Some w → close_throws rt w = false →
                 In (SocketClosed w) (trace s') ∧ is_open w s' = false))
    ∧ closeBridge rt clientId s' = Ok tt s'
    ∧ (∀ fuel es s'',
         Forall (fun e => ¬ creates clientId e) es →
         exec rt fuel es s' = Some s'' →
         absent_since clientId (trace s') s'').
Proof.
  intros Hlive.
  destruct (closeBridge_removes rt clientId s Hlive) as (s' & Hrun & Hm & _).
  destruct (closeBridge_then_absent rt clientId s s' Hlive Hrun) as [Habs Hquiet].
  exists s'. split; [exact Hrun | split; [| split; [| split]]].
  - intros Hnone. rewrite (closeBridge_absent rt _ _ Hnone) in Hrun. congruence.
  - intros a b Hf. split; [exact Hm |].
    rewrite (closeBridge_registered rt _ _ _ _ Hf) in Hrun.
    injection Hrun as <-. cbv zeta. split.
    + intros t ->. destruct (ws b) as [w |]; [destruct (close_throws rt w) |];
        simpl; apply lookup_delete_eq.
    + intros w -> ->. split.
      * simpl. destruct (reconnectTimeout b); simpl;
          apply in_or_app; right; left; reflexivity.
      * unfold is_open. simpl.
        destruct (reconnectTimeout b); simpl; rewrite lookup_alter;
          (destruct (decide (w = w)); [| congruence]);
          destruct (sockets s !! w) as [k |]; simpl; try reflexivity;
          unfold closing; destruct (readyState k) eqn:Hr; simpl;
          try rewrite Hr; reflexivity.
  - apply (closeBridge_absent rt _ _ Habs).
  - exact Hquiet.
Qed.

Lemma C5_witness :
  ∃ s',
    closeBridge demo_runtime "c1" demo_authenticated = Ok tt s'
    ∧ bridges s' !! "c1" = None
    ∧ closeBridge demo_runtime "c1" s' = Ok tt s'.
Proof.
  assert (Hlive : registered_live demo_authenticated).
  { apply (reachable_registered_live demo_runtime (Some demo_identity) 1000).
    exists 8, [CreateBridge "c1" 7; SocketOpen 0;
               SocketMessage 0 (Some (challenge_frame "abc" 1000));
               SocketMessage 0 (Some hello_ok_frame)].
    vm_compute. reflexivity. }
  destruct (C5_closeBridge_then_silence demo_runtime "c1" demo_authenticated Hlive)
    as (s' & Hrun & _ & _ & Hagain & Hquiet).
  exists s'. split; [exact Hrun | split; [| exact Hagain]].
  destruct (Hquiet 0%nat [] s' (List.Forall_nil _) eq_refl) as [Habs _].
  exact Habs.
Defined.

(** The two halves of the [close] listener. *)
Lemma on_close_reset_found (k : WebSocket) (b : BridgeConnection) (s : state) :
  heap s !! ws_bridge k = Some b →
  on_close_reset k s
  = Ok tt (put (ws_bridge k) (with_authenticated false (with_ws None b)) s).
Proof.
  intros Hb. unfold on_close_reset, bind.
  rewrite (update_found _ (with_ws None) s b Hb).
  rewrite (update_found _ (with_authenticated false) _ (with_ws None b))
    by (simpl; apply lookup_insert_eq).
  unfold put, set_heap. simpl. rewrite insert_insert_eq. reflexivity.
Qed.

Lemma on_close_schedule_found (k : WebSocket) (b : BridgeConnection) (s : state) :
  is_Some (bridges s !! ws_clientId k) →
  heap s !! ws_bridge k = Some b →
  on_close_schedule k s
  = Ok tt
      (put (ws_bridge k) (with_reconnectTimeout (Some (next_timer s)) b)
         (log_effect (TimerSet (next_timer s) (ws_clientId k) 5000)
            (set_timers (insert (next_timer s)
                           (mkTimer (ws_clientId k) (clock s + 5000)))
               (set_next_timer (S (next_timer s)) s)))).
Proof.
  intros Hm Hb. unfold on_close_schedule, bind at 1, gets.
  assert (Hhas : has_bridge (ws_clientId k) s = true)
    by (unfold has_bridge; apply bool_decide_eq_true, Hm).
  rewrite Hhas. unfold bind at 1.
  unfold setTimeout, bind, gets, modify, emit, modify, ret.
  apply (update_found _ (with_reconnectTimeout (Some (next_timer s)))).
  exact Hb.
Qed.

(** The [close] listener of a socket whose bridge is the one registered
    for its client. *)
Lemma run_socket_close_registered (rt : Runtime) (fuel w : nat) (k : WebSocket)
    (b : BridgeConnection) (s : state) :
  sockets s !! w = Some k →
  find_bridge (ws_clientId k) s = Some (ws_bridge k, b) →
  run rt fuel (SocketClose w) s
  = Ok tt
      (put (ws_bridge k)
         (with_reconnectTimeout (Some (next_timer s))
            (with_authenticated false (with_ws None b)))
         (log_effect (TimerSet (next_timer s) (ws_clientId k) 5000)
            (set_timers (insert (next_timer s)
                           (mkTimer (ws_clientId k) (clock s + 5000)))
               (set_next_timer (S (next_timer s))
                  (set_sockets
                     (alter (with_readyState CLOSED) w) s))))).
Proof.
  intros Hk Hf.
  destruct (find_bridge_heap _ _ _ _ Hf) as [Hm Hb].
  unfold run, bind at 1, gets. rewrite Hk.
  unfold bind at 1, set_readyState, modify.
  unfold on_close, bind.
  match goal with
  | |- context [on_close_reset k ?x] => rewrite (on_close_reset_found k b x Hb)
  end.
  rewrite (on_close_schedule_found k (with_authenticated false (with_ws None b)));
    [| simpl; rewrite Hm; eauto | simpl; apply lookup_insert_eq].
  f_equal. unfold put, set_heap, log_effect, set_timers, set_next_timer.
  simpl. rewrite insert_insert_eq. reflexivity.
Qed.





(* ===================================================================== *)
(** ** The [authenticated] flag (claim C9) *)
(* ===================================================================== *)

Section Flag.

Context (rt : Runtime).

Lemma connectToGateway_bridges (clientId : string) (s s' : state) :
  final (connectToGateway rt clientId s) = Some s' → bridges s' = bridges s.
Proof.
  unfold connectToGateway, bind at 1, gets.
  destruct (find_bridge clientId s) as [[a b] |]; [| intros [= <-]; reflexivity].
  unfold try_catch, bind, new_socket.
  destruct (socket_ctor_ok rt); simpl; intros [= <-]; reflexivity.
Qed.

(** [createBridge] returns, and the bridge it registers is a new object
    that is not authenticated. *)
Lemma createBridge_unauthenticated (clientId : string) (cb : nat) (s : state) :
  registered_live s →
  ∃ s' a, createBridge rt clientId cb s = Ok tt s'
          ∧ bridges s' !! clientId = Some a
          ∧ unauthenticated_at clientId a s'.
Proof.
  intros Hlive. unfold createBridge, bind at 1, gets.
  assert (Hclosed : ∃ s1, (if has_bridge clientId s then closeBridge rt clientId
                           else ret tt) s = Ok tt s1
                          ∧ registered_live s1).
  { destruct (has_bridge clientId s).
    - destruct (closeBridge_removes rt clientId s Hlive) as (s1 & Hrun & _ & _).
      exists s1. split; [exact Hrun |].
      eapply (keeps_final registered_live (closeBridge rt clientId) s s1);
        [apply (closeBridge_keeps rt _ _ _ _ (registered_live_stable rt)), I
        | exact Hlive | rewrite Hrun; reflexivity].
    - exists s. split; [reflexivity | exact Hlive]. }
  destruct Hclosed as (s1 & Hrun1 & Hlive1).
  unfold bind at 1. rewrite Hrun1. unfold bind at 1.
  unfold install, bind, gets, modify.
  set (s2 := set_bridges _ _).
  assert (Hm2 : bridges s2 !! clientId = Some (next_addr s1))
    by (simpl; apply lookup_insert_eq).
  assert (Hun2 : unauthenticated_at clientId (next_addr s1) s2).
  { split; [| split].
    - intros c Hc. simpl in Hc.
      destruct (decide (clientId = c)) as [<- | Hne]; [reflexivity |].
      rewrite lookup_insert_ne in Hc by exact Hne.
      destruct (Hlive1 c _ Hc) as (_ & Hlt & _). lia.
    - simpl. lia.
    - intros b. simpl. rewrite lookup_insert_eq. intros [= <-]. reflexivity. }
  pose proof (connectToGateway_keeps rt _ _ _ _
                (unauthenticated_at_stable rt clientId (next_addr s1))
                clientId I s2 Hun2) as Hkeep.
  pose proof (connectToGateway_bridges clientId s2) as Hsame.
  assert (Hok : ∃ s3, connectToGateway rt clientId s2 = Ok tt s3).
  { unfold connectToGateway, bind at 1, gets.
    destruct (find_bridge clientId s2) as [[a b] |]; [| eexists; reflexivity].
    unfold try_catch, bind, new_socket.
    destruct (socket_ctor_ok rt); simpl; eexists; reflexivity. }
  destruct Hok as (s3 & Hrun3). rewrite Hrun3 in *.
  exists s3, (next_addr s1). split; [reflexivity | split; [| exact Hkeep]].
  rewrite (Hsame s3 eq_refl). exact Hm2.
Qed.

End Flag.

(** C9 as stated fails twice.  An [error] event of the socket leaves an
    authenticated bridge authenticated (the listener only logs).  And a
    bridge can be authenticated while its own socket is still connecting:
    the handshake-success frame came from the socket of the session it
    replaced. *)
Lemma C9_flag_survives_error_and_stale_handshake :
  (∃ s,
     exec demo_runtime 1
       [CreateBridge "c1" 7; SocketOpen 0; SocketMessage 0 (Some hello_ok_frame)]
       demo_start = Some s
     ∧ enabled (SocketError 0) s = true
     ∧ run demo_runtime 1 (SocketError 0) s = Ok tt s
     ∧ find_bridge "c1" s = Some (0, mkBridge (Some 0) 7 None true [] None))
  ∧ (∃ s,
       exec demo_runtime 1
         [CreateBridge "c1" 1; SocketOpen 0;
          SocketMessage 0 (Some (challenge_frame "abc" 1000));
          CloseBridge "c1"; CreateBridge "c1" 2;
          SocketMessage 0 (Some hello_ok_frame)]
         demo_start = Some s
       ∧ find_bridge "c1" s = Some (1, mkBridge (Some 1) 2 None true [] None)
       ∧ sockets s !! 1 = Some (mkSocket "c1" 1 CONNECTING)).
Proof.
  split; eexists; (split; [vm_compute; reflexivity |]);
    repeat split; vm_compute; reflexivity.
Qed.

(** C9, amended.  A bridge is created not authenticated, and stays so
    until a handshake-success frame is delivered by a socket made for its
    client.  Every [close] event of a socket first sets the [authenticated]
    flag of the bridge the socket was made for to false, and only then arms
    the reconnect timer.  An [error] event changes nothing. *)
Theorem C9_authenticated_flag (rt : Runtime) (fuel : nat) (s : state) :
  (∀ clientId cb,
     registered_live s →
     ∃ s' a, createBridge rt clientId cb s = Ok tt s'
             ∧ bridges s' !! clientId = Some a
             ∧ unauthenticated_at clientId a s')
  ∧ (∀ clientId a e s',
       unauthenticated_at clientId a s →
       ¬ handshake_for clientId e s →
       final (run rt fuel e s) = Some s' →
       unauthenticated_at clientId a s')
  ∧ (∀ w k b,
       sockets s !! w = Some k →
       heap s !! ws_bridge k = Some b →
       ∃ s1,
         (set_readyState w CLOSED;; on_close_reset k) s = Ok tt s1
         ∧ heap s1 !! ws_bridge k
           = Some (with_authenticated false (with_ws None b))
         ∧ timers s1 = timers s
         ∧ trace s1 = trace s
         ∧ run rt fuel (SocketClose w) s = on_close_schedule k s1)
  ∧ (∀ w, run rt fuel (SocketError w) s = Ok tt s).
Proof.
  split; [| split; [| split]].
  - intros clientId cb Hlive. apply createBridge_unauthenticated, Hlive.
  - intros clientId a e s' Hun Hno Hf.
    apply (run_keeps_unauthenticated rt clientId a fuel e s s' Hno Hun Hf).
  - intros w k b Hk Hb. unfold bind at 1, set_readyState, modify.
    match goal with
    | |- context [on_close_reset k ?x] => rewrite (on_close_reset_found k b x Hb)
    end.
    eexists. split; [reflexivity |].
    split; [simpl; apply lookup_insert_eq |].
    split; [reflexivity | split; [reflexivity |]].
    unfold run, bind at 1, gets. rewrite Hk.
    unfold bind at 1, set_readyState, modify. unfold on_close, bind.
    match goal with
    | |- context [on_close_reset k ?x] => rewrite (on_close_reset_found k b x Hb)
    end.
    reflexivity.
  - intros w. unfold run, bind, gets.
    destruct (sockets s !! w); reflexivity.
Qed.

Lemma C9_witness :
  (∃ s' a, createBridge demo_runtime "c2" 9 demo_authenticated = Ok tt s'
           ∧ bridges s' !! "c2" = Some a
           ∧ unauthenticated_at "c2" a s')
  ∧ (∃ s1,
       (set_readyState 0 CLOSED;; on_close_reset (mkSocket "c1" 0 OPEN))
         demo_authenticated = Ok tt s1
       ∧ heap s1 !! 0%nat = Some (mkBridge None 7 None false [] None)
       ∧ timers s1 = timers demo_authenticated).
Proof.
  assert (Hreach : reachable demo_runtime (Some demo_identity) 1000
                     demo_authenticated).
  { exists 8%nat, [CreateBridge "c1" 7; SocketOpen 0;
                   SocketMessage 0 (Some (challenge_frame "abc" 1000));
                   SocketMessage 0 (Some hello_ok_frame)].
    vm_compute. reflexivity. }
  destruct (C9_authenticated_flag demo_runtime 1 demo_authenticated)
    as (Hcreate & _ & Hclose & _).
  split.
  - apply Hcreate, (reachable_registered_live _ _ _ _ Hreach).
  - destruct (Hclose 0%nat (mkSocket "c1" 0 OPEN)
                (mkBridge (Some 0%nat) 7 None true [] None))
      as (s1 & Hrun & Hheap & Htimers & _);
      [vm_compute; reflexivity | vm_compute; reflexivity |].
    exists s1. split; [exact Hrun | split; [exact Hheap | exact Htimers]].
Defined.

(* ===================================================================== *)
(** ** Base64url: alphabet, length, and nothing lost *)
(* ===================================================================== *)

Section Base64Facts.

Import Base64Url.

(** Lists of bytes, three at a time. *)
Lemma by_threes (P : list byte → Prop) :
  P [] → (∀ a, P [a]) → (∀ a b, P [a; b]) →
  (∀ a b c rest, P rest → P (a :: b :: c :: rest)) →
  ∀ bs, P bs.
Proof.
  intros H0 H1 H2 H3 bs.
  enough (H : P bs ∧ (∀ a, P (a :: bs)) ∧ (∀ a b, P (a :: b :: bs))) by apply H.
  induction bs as [| c rest (IH & IH1 & IH2)]; [auto |].
  split; [apply IH1 | split; [intros a; apply IH2 | intros a b; apply H3, IH]].
Qed.

Lemma below_64 (p : N → bool) :
  forallb p (List.map N.of_nat (seq 0 64)) = true →
  ∀ n, (n < 64)%N → p n = true.
Proof.
  intros H n Hn. rewrite forallb_forall in H. apply H.
  apply in_map_iff. exists (N.to_nat n). split; [lia | apply in_seq; lia].
Qed.

Ltac euclid := zify; Z.to_euclidean_division_equations; lia.

Lemma sextets_small (bs : list byte) : Forall (fun n => (n < 64)%N) (sextets bs).
Proof.
  induction bs as [| a | a b | a b c rest IH] using by_threes.
  - constructor.
  - pose proof (Byte.to_N_bounded a). cbn [sextets].
    repeat constructor; euclid.
  - pose proof (Byte.to_N_bounded a). pose proof (Byte.to_N_bounded b).
    cbn [sextets]. repeat constructor; euclid.
  - pose proof (Byte.to_N_bounded a). pose proof (Byte.to_N_bounded b).
    pose proof (Byte.to_N_bounded c). cbn [sextets].
    repeat (constructor; [euclid |]). exact IH.
Qed.

Lemma digit_not_pad (n : N) : (n < 64)%N → url_char (digit n) ≠ pad.
Proof.
  intros Hn.
  pose proof (below_64 (fun n => negb (Ascii.eqb (url_char (digit n)) pad))
                eq_refl n Hn) as H.
  simpl in H. intros E. rewrite E, Ascii.eqb_refl in H. discriminate.
Qed.

Lemma digit_url_safe (n : N) : (n < 64)%N → url_safe (url_char (digit n)) = true.
Proof. exact (below_64 (fun n => url_safe (url_char (digit n))) eq_refl n). Qed.

Lemma digit_sextet (n : N) : (n < 64)%N → sextet (url_char (digit n)) = Some n.
Proof.
  intros Hn.
  pose proof (below_64
                (fun n => match sextet (url_char (digit n)) with
                          | Some m => N.eqb m n
                          | None => false
                          end) eq_refl n Hn) as H.
  simpl in H. destruct (sextet (url_char (digit n))) as [m |]; [| discriminate].
  apply N.eqb_eq in H. congruence.
Qed.

Lemma strip_padding_cons (c : ascii) (cs : list ascii) :
  c ≠ pad → strip_padding (c :: cs) = c :: strip_padding cs.
Proof.
  intros Hc. unfold strip_padding. cbn [fold_right].
  destruct (fold_right _ [] cs); [| reflexivity].
  destruct (Ascii.eqb_spec c pad); [contradiction | reflexivity].
Qed.

(** The text [encode] returns, by six-bit groups. *)
Lemma encode_sextets (bs : list byte) :
  list_ascii_of_string (encode bs)
  = List.map (fun n => url_char (digit n)) (sextets bs).
Proof.
  unfold encode. rewrite list_ascii_of_string_of_list_ascii.
  induction bs as [| a | a b | a b c rest IH] using by_threes.
  - reflexivity.
  - pose proof (sextets_small [a]) as Hs. cbn [sextets] in Hs.
    inversion Hs as [| ? ? H1 Hs1]; subst. inversion Hs1 as [| ? ? H2 _]; subst.
    cbn [base64 sextets List.map].
    rewrite !strip_padding_cons by (apply digit_not_pad; assumption).
    reflexivity.
  - pose proof (sextets_small [a; b]) as Hs. cbn [sextets] in Hs.
    inversion Hs as [| ? ? H1 Hs1]; subst. inversion Hs1 as [| ? ? H2 Hs2]; subst.
    inversion Hs2 as [| ? ? H3 _]; subst.
    cbn [base64 sextets List.map].
    rewrite !strip_padding_cons by (apply digit_not_pad; assumption).
    reflexivity.
  - pose proof (sextets_small (a :: b :: c :: rest)) as Hs. cbn [sextets] in Hs.
    inversion Hs as [| ? ? H1 Hs1]; subst. inversion Hs1 as [| ? ? H2 Hs2]; subst.
    inversion Hs2 as [| ? ? H3 Hs3]; subst. inversion Hs3 as [| ? ? H4 _]; subst.
    cbn [base64 sextets List.map].
    rewrite !strip_padding_cons by (apply digit_not_pad; assumption).
    rewrite IH. reflexivity.
Qed.

Lemma sextets_length (bs : list byte) :
  length (sextets bs) = (4 * length bs + 2) / 3.
Proof.
  induction bs as [| a | a b | a b c rest IH] using by_threes;
    try reflexivity.
  cbn [sextets length]. rewrite IH.
  replace (4 * S (S (S (length rest))) + 2) with ((4 * length rest + 2) + 4 * 3) by lia.
  rewrite Nat.div_add by lia. lia.
Qed.

Lemma string_length_list (s : string) :
  String.length s = length (list_ascii_of_string s).
Proof. induction s as [| c s IH]; simpl; congruence. Qed.

End Base64Facts.

Lemma decode_sextets (bs : list byte) :
  decode (List.map (fun n => Base64Url.url_char (Base64Url.digit n)) (sextets bs))
  = Some bs.
Proof.
  induction bs as [| a | a b | a b c rest IH] using by_threes.
  - reflexivity.
  - pose proof (sextets_small [a]) as Hs. cbn [sextets] in Hs.
    inversion Hs as [| ? ? H1 Hs1]; subst. inversion Hs1 as [| ? ? H2 _]; subst.
    pose proof (Byte.to_N_bounded a).
    cbn [sextets List.map decode]. rewrite !digit_sextet by assumption.
    replace (Byte.to_N a / 4 * 4 + Byte.to_N a mod 4 * 16 / 16)%N
      with (Byte.to_N a) by (zify; Z.to_euclidean_division_equations; lia).
    rewrite Byte.of_to_N. reflexivity.
  - pose proof (sextets_small [a; b]) as Hs. cbn [sextets] in Hs.
    inversion Hs as [| ? ? H1 Hs1]; subst. inversion Hs1 as [| ? ? H2 Hs2]; subst.
    inversion Hs2 as [| ? ? H3 _]; subst.
    pose proof (Byte.to_N_bounded a). pose proof (Byte.to_N_bounded b).
    cbn [sextets List.map decode]. rewrite !digit_sextet by assumption.
    replace (Byte.to_N a / 4 * 4 + (Byte.to_N a mod 4 * 16 + Byte.to_N b / 16) / 16)%N
      with (Byte.to_N a) by (zify; Z.to_euclidean_division_equations; lia).
    replace ((Byte.to_N a mod 4 * 16 + Byte.to_N b / 16) mod 16 * 16
             + Byte.to_N b mod 16 * 4 / 4)%N
      with (Byte.to_N b) by (zify; Z.to_euclidean_division_equations; lia).
    rewrite !Byte.of_to_N. reflexivity.
  - pose proof (sextets_small (a :: b :: c :: rest)) as Hs. cbn [sextets] in Hs.
    inversion Hs as [| ? ? H1 Hs1]; subst. inversion Hs1 as [| ? ? H2 Hs2]; subst.
    inversion Hs2 as [| ? ? H3 Hs3]; subst. inversion Hs3 as [| ? ? H4 _]; subst.
    pose proof (Byte.to_N_bounded a). pose proof (Byte.to_N_bounded b).
    pose proof (Byte.to_N_bounded c).
    cbn [sextets List.map decode]. rewrite !digit_sextet by assumption.
    rewrite IH.
    replace (Byte.to_N a / 4 * 4 + (Byte.to_N a mod 4 * 16 + Byte.to_N b / 16) / 16)%N
      with (Byte.to_N a) by (zify; Z.to_euclidean_division_equations; lia).
    replace ((Byte.to_N a mod 4 * 16 + Byte.to_N b / 16) mod 16 * 16
             + (Byte.to_N b mod 16 * 4 + Byte.to_N c / 64) / 4)%N
      with (Byte.to_N b) by (zify; Z.to_euclidean_division_equations; lia).
    replace ((Byte.to_N b mod 16 * 4 + Byte.to_N c / 64) mod 4 * 64
             + Byte.to_N c mod 64)%N
      with (Byte.to_N c) by (zify; Z.to_euclidean_division_equations; lia).
    rewrite !Byte.of_to_N. reflexivity.
Qed.


(** X1.  The text [signMessage] and [generateDeviceIdentity] produce is
    URL-safe: every character is a letter, a digit, [-] or [_]; there is no
    [+], no [/] and no padding. *)
Theorem base64url_alphabet (bs : list byte) :
  Forall (fun c => url_safe c = true)
         (list_ascii_of_string (Base64Url.encode bs)).
Proof.
  rewrite encode_sextets. apply Forall_map.
  eapply Forall_impl; [apply sextets_small |].
  intros n Hn. apply digit_url_safe, Hn.
Qed.

(** X2.  [n] bytes are written with the least number of characters that
    hold [8 n] bits, six bits to a character. *)
Theorem base64url_length (bs : list byte) :
  String.length (Base64Url.encode bs) = (4 * length bs + 2) / 3.
Proof.
  rewrite string_length_list, encode_sextets, length_map. apply sextets_length.
Qed.

(** X3.  Nothing is lost: reading the text back gives the bytes that were
    encoded, so two byte strings with the same text are the same. *)
Theorem base64url_round_trip (bs : list byte) :
  decode (list_ascii_of_string (Base64Url.encode bs)) = Some bs
  ∧ ∀ bs', Base64Url.encode bs' = Base64Url.encode bs → bs' = bs.
Proof.
  split; [rewrite encode_sextets; apply decode_sextets |].
  intros bs' E.
  pose proof (decode_sextets bs') as H'. rewrite <- encode_sextets, E in H'.
  rewrite encode_sextets, decode_sextets in H'. congruence.
Qed.

(* ===================================================================== *)
(** ** The gateway address the constructor keeps *)
(* ===================================================================== *)

Section Strings.

Lemma append_cons (c : ascii) (a b : string) :
  String.append (String c a) b = String c (String.append a b).
Proof. reflexivity. Qed.

Lemma append_empty (s : string) : String.append s "" = s.
Proof.
  induction s as [| c s IH]; [reflexivity |]. rewrite append_cons, IH. reflexivity.
Qed.

Lemma append_assoc (a b c : string) :
  String.append (String.append a b) c = String.append a (String.append b c).
Proof.
  induction a as [| x a IH]; [reflexivity |]. rewrite !append_cons, IH. reflexivity.
Qed.

Lemma length_append (a b : string) :
  String.length (String.append a b) = (String.length a + String.length b)%nat.
Proof.
  induction a as [| x a IH]; [reflexivity |]. rewrite append_cons. simpl. congruence.
Qed.

Lemma substring_all (s : string) : substring 0 (String.length s) s = s.
Proof. induction s as [| c s IH]; simpl; congruence. Qed.

Lemma substring_append_left (a b : string) :
  substring 0 (String.length a) (String.append a b) = a.
Proof.
  induction a as [| x a IH]; [destruct b; reflexivity |].
  rewrite append_cons. simpl. rewrite IH. reflexivity.
Qed.

Lemma substring_append_right (a b : string) :
  substring (String.length a) (String.length b) (String.append a b) = b.
Proof.
  induction a as [| x a IH]; [apply substring_all |].
  rewrite append_cons. simpl. exact IH.
Qed.

Lemma substring_split (k : nat) (s : string) :
  (k ≤ String.length s)%nat →
  s = String.append (substring 0 k s) (substring k (String.length s - k) s).
Proof.
  revert k. induction s as [| c s IH]; intros k Hk.
  - destruct k; reflexivity.
  - destruct k as [| k]; simpl.
    + rewrite substring_all. reflexivity.
    + rewrite append_cons. f_equal. apply IH. simpl in Hk. lia.
Qed.

Lemma append_last (a b : string) (x y : ascii) :
  String.append a (String x "") = String.append b (String y "") → a = b ∧ x = y.
Proof.
  revert b. induction a as [| c a IH]; intros [| d b] E.
  - injection E as ->. split; reflexivity.
  - rewrite append_cons in E. injection E as -> E. destruct b; discriminate.
  - rewrite append_cons in E. injection E as -> E. destruct a; discriminate.
  - rewrite !append_cons in E. injection E as -> E.
    destruct (IH _ E) as [-> ->]. split; reflexivity.
Qed.

End Strings.

Section GatewayUrl.

Import Lifecycle.

Lemma ends_with_spec (lit s : string) :
  ends_with lit s = true ↔ ∃ p, s = String.append p lit.
Proof.
  unfold ends_with. rewrite andb_true_iff, Nat.leb_le, String.eqb_eq. split.
  - intros [Hm E].
    exists (substring 0 (String.length s - String.length lit) s).
    pose proof (substring_split (String.length s - String.length lit) s) as H.
    replace (String.length s - (String.length s - String.length lit))%nat
      with (String.length lit) in H by lia.
    rewrite E in H. apply H. lia.
  - intros [p ->]. rewrite length_append. split; [lia |].
    replace (String.length p + String.length lit - String.length lit)%nat
      with (String.length p) by lia.
    apply substring_append_right.
Qed.

Lemma strip_suffix_append (lit p : string) :
  strip_suffix lit (String.append p lit) = p.
Proof.
  unfold strip_suffix.
  destruct (ends_with lit (String.append p lit)) eqn:E.
  - rewrite length_append.
    replace (String.length p + String.length lit - String.length lit)%nat
      with (String.length p) by lia.
    apply substring_append_left.
  - exfalso. apply not_true_iff_false in E. apply E, ends_with_spec. eauto.
Qed.

Lemma strip_suffix_other (lit s : string) :
  ends_with lit s = false → strip_suffix lit s = s.
Proof. unfold strip_suffix. intros ->. reflexivity. Qed.

(** A string that ends with [/] does not end with [/ws/chat]. *)
Lemma slash_last_not_path (p : string) :
  ends_with "/ws/chat" (String.append p "/") = false.
Proof.
  apply not_true_iff_false. intros E. apply ends_with_spec in E as [q E].
  change "/ws/chat" with (String.append "/ws/cha" "t") in E.
  rewrite <- append_assoc in E. apply append_last in E as [_ E]. discriminate.
Qed.

End GatewayUrl.

(** X4.  The constructor accepts the gateway address with or without a
    trailing [/] or the path [/ws/chat] of the earlier revision: for an
    address [b] that ends with neither, the settings [b], [b/] and
    [b/ws/chat] all give [b], and without the setting the address is
    [ws://localhost:38191]. *)
Theorem gatewayUrl_spellings (b : string) :
  Lifecycle.ends_with "/" b = false →
  Lifecycle.ends_with "/ws/chat" b = false →
  Lifecycle.gatewayUrl (Some b) = b
  ∧ Lifecycle.gatewayUrl (Some (String.append b "/")) = b
  ∧ Lifecycle.gatewayUrl (Some (String.append b "/ws/chat")) = b
  ∧ Lifecycle.gatewayUrl None = "ws://localhost:38191".
Proof.
  intros Hs Hp. unfold Lifecycle.gatewayUrl. repeat split.
  - rewrite (strip_suffix_other _ _ Hp). apply strip_suffix_other, Hs.
  - rewrite (strip_suffix_other _ _ (slash_last_not_path b)).
    apply strip_suffix_append.
  - rewrite strip_suffix_append. apply strip_suffix_other, Hs.
Qed.

Lemma gatewayUrl_spellings_witness :
  Lifecycle.gatewayUrl (Some "wss://gw.example:443") = "wss://gw.example:443"
  ∧ Lifecycle.gatewayUrl (Some "wss://gw.example:443/") = "wss://gw.example:443"
  ∧ Lifecycle.gatewayUrl (Some "wss://gw.example:443/ws/chat") = "wss://gw.example:443"
  ∧ Lifecycle.gatewayUrl None = "ws://localhost:38191".
Proof.
  exact (gatewayUrl_spellings "wss://gw.example:443" eq_refl eq_refl).
Defined.

(** X5.  The two suffixes are removed in one order only, each at most once:
    a [/] after the path keeps the path, and of two trailing [/] one
    stays. *)
Theorem gatewayUrl_keeps_path_before_slash (b : string) :
  Lifecycle.gatewayUrl (Some (String.append b "/ws/chat/"))
  = String.append b "/ws/chat"
  ∧ Lifecycle.gatewayUrl (Some (String.append b "//")) = String.append b "/".
Proof.
  unfold Lifecycle.gatewayUrl. split.
  - change "/ws/chat/" with (String.append "/ws/chat" "/").
    rewrite <- append_assoc.
    rewrite (strip_suffix_other _ _ (slash_last_not_path _)).
    apply strip_suffix_append.
  - change "//" with (String.append "/" "/").
    rewrite <- append_assoc.
    rewrite (strip_suffix_other _ _ (slash_last_not_path _)).
    apply strip_suffix_append.
Qed.

(* ===================================================================== *)
(** ** What the listeners, the timer callback and [sendMessage] leave alone *)
(* ===================================================================== *)

Lemma settled_refl (s : state) : settled s s.
Proof.
  refine (conj _ (conj _ (conj _ (conj _ (conj _ _))))); try reflexivity.
  exists []. rewrite app_nil_r. split; [reflexivity | constructor].
Qed.

Lemma settled_find (s0 s : state) (c : string) (a : nat) (b : BridgeConnection) :
  settled s0 s → find_bridge c s = Some (a, b) →
  ∃ b0, find_bridge c s0 = Some (a, b0) ∧ onMessage b0 = onMessage b.
Proof.
  intros (Hb & _ & _ & Hcb & _) Hf.
  apply find_bridge_heap in Hf as [Hc Ha].
  specialize (Hcb a). rewrite Ha in Hcb. simpl in Hcb.
  destruct (heap s0 !! a) as [b0 |] eqn:Ha0; [| discriminate].
  exists b0. simpl in Hcb. split; [| congruence].
  unfold find_bridge. rewrite <- Hb, Hc, Ha0. reflexivity.
Qed.

Lemma settled_has (s0 s : state) (c : string) :
  settled s0 s → has_bridge c s = true → is_Some (bridges s0 !! c).
Proof.
  intros (Hb & _) H. unfold has_bridge in H. apply bool_decide_eq_true in H.
  rewrite <- Hb. exact H.
Qed.

Section Footprint.

Context (rt : Runtime) (s0 : state).

Lemma settled_update (a : nat) (f : BridgeConnection → BridgeConnection) :
  same_callback f → keeps (settled s0) (update a f).
Proof.
  intros Hf s (Hb & Hd & Hn & Hcb & Hsk & Htr). unfold update, modify.
  repeat split; try assumption.
  - intros a'. rewrite <- Hcb. simpl. rewrite lookup_alter.
    destruct (decide (a = a')) as [<- | Hne]; [| reflexivity].
    destruct (heap s !! a) as [b |]; simpl; [| reflexivity].
    f_equal. apply Hf.
  - intros a'. rewrite <- Hsk. simpl. rewrite lookup_alter.
    destruct (decide (a = a')) as [<- | Hne]; [| reflexivity].
    destruct (heap s !! a) as [b |]; simpl; [| reflexivity].
    f_equal. apply Hf.
Qed.

Lemma settled_emit (e : effect) : within s0 e → keeps (settled s0) (emit e).
Proof.
  intros He s (Hb & Hd & Hn & Hcb & Hsk & new & Htr & Hnew). unfold emit, modify.
  repeat split; try assumption.
  exists (new ++ [e]). simpl. rewrite Htr, app_assoc. split; [reflexivity |].
  apply Forall_app. split; [exact Hnew | repeat constructor; exact He].
Qed.

Lemma settled_uuids n : keeps (settled s0) (modify (set_uuids n)).
Proof. intros s Hs. exact Hs. Qed.

Lemma settled_timers f : keeps (settled s0) (modify (set_timers f)).
Proof. intros s Hs. exact Hs. Qed.

Lemma settled_sockets f : keeps (settled s0) (modify (set_sockets f)).
Proof. intros s Hs. exact Hs. Qed.

Lemma settled_next_timer n : keeps (settled s0) (modify (set_next_timer n)).
Proof. intros s Hs. exact Hs. Qed.

Lemma settled_next_socket n : keeps (settled s0) (modify (set_next_socket n)).
Proof. intros s Hs. exact Hs. Qed.

Lemma same_callback_with_ws w : same_callback (with_ws w).
Proof. intros b. split; reflexivity. Qed.
Lemma same_callback_with_reconnectTimeout t : same_callback (with_reconnectTimeout t).
Proof. intros b. split; reflexivity. Qed.
Lemma same_callback_with_authenticated f : same_callback (with_authenticated f).
Proof. intros b. split; reflexivity. Qed.
Lemma same_callback_with_messageQueue q : same_callback (with_messageQueue q).
Proof. intros b. split; reflexivity. Qed.
Lemma same_callback_push m :
  same_callback (fun b => with_messageQueue (messageQueue b ++ [m]) b).
Proof. intros b. split; reflexivity. Qed.

#[local] Hint Resolve same_callback_with_ws same_callback_with_reconnectTimeout
  same_callback_with_authenticated same_callback_with_messageQueue
  same_callback_push settled_uuids settled_timers settled_sockets
  settled_next_timer settled_next_socket : keeps.
#[local] Hint Extern 2 (keeps _ (update _ _)) =>
  apply settled_update; auto with keeps : keeps.
#[local] Hint Extern 1 (keeps _ (emit (Sent _ _))) =>
  apply settled_emit; exact I : keeps.
#[local] Hint Extern 1 (keeps _ (ws_send _ _)) =>
  apply settled_emit; exact I : keeps.

(** A handler that starts by reading the state may rely on what the
    invariant says about what it read. *)
Lemma keeps_reading {A B} (Inv : state → Prop) (P : A → Prop)
    (f : state → A) (k : A → M B) :
  (∀ s, Inv s → P (f s)) →
  (∀ x, P x → keeps Inv (k x)) →
  keeps Inv (bind (gets f) k).
Proof.
  intros Hread Hk s Hs. unfold bind, gets. apply (Hk (f s)); auto.
Qed.

Lemma settled_fresh_uuid : keeps (settled s0) (fresh_uuid rt).
Proof. unfold fresh_uuid. keeps_auto. Qed.
#[local] Hint Resolve settled_fresh_uuid : keeps.

Lemma settled_signMessage message : keeps (settled s0) (signMessage rt message).
Proof. unfold signMessage. keeps_auto. Qed.
#[local] Hint Resolve settled_signMessage : keeps.

Lemma settled_convertToGatewayFormat c message :
  keeps (settled s0) (convertToGatewayFormat rt c message).
Proof. unfold convertToGatewayFormat. keeps_auto. Qed.
#[local] Hint Resolve settled_convertToGatewayFormat : keeps.

Lemma settled_sendMessage c message : keeps (settled s0) (sendMessage rt c message).
Proof. unfold sendMessage. keeps_auto. Qed.
#[local] Hint Resolve settled_sendMessage : keeps.

Lemma settled_sendRaw c message : keeps (settled s0) (sendRaw c message).
Proof. unfold sendRaw. keeps_auto. Qed.
#[local] Hint Resolve settled_sendRaw : keeps.

Lemma settled_handleConnectChallenge c payload :
  keeps (settled s0) (handleConnectChallenge rt c payload).
Proof. unfold handleConnectChallenge. keeps_auto. Qed.
#[local] Hint Resolve settled_handleConnectChallenge : keeps.

Lemma settled_drain fuel c a : keeps (settled s0) (drain rt fuel c a).
Proof. induction fuel as [| fuel IH]; simpl; keeps_auto. Qed.
#[local] Hint Resolve settled_drain : keeps.

Lemma settled_known (c : string) (s : state) :
  settled s0 s → known s0 c (find_bridge c s).
Proof.
  intros Hs a b Hf. destruct (settled_find _ _ _ _ _ Hs Hf) as (b0 & H0 & Hcb).
  eauto.
Qed.

Lemma settled_notify c a b msg :
  known s0 c (Some (a, b)) →
  keeps (settled s0) (emit (Notified c (onMessage b) msg)).
Proof. intros Hk. apply settled_emit. simpl. apply (Hk a b eq_refl). Qed.

Lemma settled_handleConnectSuccess fuel c payload :
  keeps (settled s0) (handleConnectSuccess rt fuel c payload).
Proof.
  unfold handleConnectSuccess.
  apply (keeps_reading _ (known s0 c)); [apply settled_known |].
  intros [[a b] |] Hk; [| apply keeps_ret].
  pose proof (settled_notify c a b gateway_connected Hk).
  keeps_auto.
Qed.

Lemma settled_handleAgentEvent c payload :
  keeps (settled s0) (handleAgentEvent c payload).
Proof.
  unfold handleAgentEvent.
  apply (keeps_reading _ (known s0 c)); [apply settled_known |].
  intros [[a b] |] Hk; [| apply keeps_ret].
  pose proof (fun msg => settled_notify c a b msg Hk).
  keeps_auto.
Qed.

Lemma settled_handleGatewayMessage fuel c message :
  keeps (settled s0) (handleGatewayMessage rt fuel c message).
Proof.
  unfold handleGatewayMessage.
  apply (keeps_reading _ (known s0 c)); [apply settled_known |].
  intros [[a b] |] Hk; [| apply keeps_ret].
  pose proof (fun msg => settled_notify c a b msg Hk).
  pose proof (settled_handleConnectSuccess fuel c).
  pose proof (settled_handleAgentEvent c).
  keeps_auto.
Qed.

Lemma settled_on_message fuel k data :
  keeps (settled s0) (on_message rt fuel k data).
Proof.
  unfold on_message. pose proof (settled_handleGatewayMessage fuel (ws_clientId k)).
  keeps_auto.
Qed.

Lemma settled_setTimeout c delay :
  is_Some (bridges s0 !! c) → keeps (settled s0) (setTimeout c delay).
Proof.
  intros Hc. unfold setTimeout.
  pose proof (settled_emit (TimerSet (next_timer s0) c delay)).
  assert (∀ t, keeps (settled s0) (emit (TimerSet t c delay)))
    by (intros t; apply settled_emit; exact Hc).
  keeps_auto.
Qed.

Lemma settled_on_close k : keeps (settled s0) (on_close k).
Proof.
  unfold on_close, on_close_reset, on_close_schedule.
  apply keeps_bind; [keeps_auto | intros _].
  apply (keeps_reading _ (fun present => present = true → is_Some (bridges s0 !! ws_clientId k))).
  - intros s Hs. apply settled_has, Hs.
  - intros [|] Hp; [| apply keeps_ret].
    pose proof (settled_setTimeout (ws_clientId k) 5000 (Hp eq_refl)).
    keeps_auto.
Qed.

Lemma settled_connectToGateway c : keeps (settled s0) (connectToGateway rt c).
Proof.
  unfold connectToGateway.
  apply (keeps_reading _ (fun found => is_Some found → is_Some (bridges s0 !! c))).
  - intros s (Hb & _) [[a b] Hf]. apply find_bridge_heap in Hf as [Hc _].
    rewrite <- Hb, Hc. eauto.
  - intros [[a b] |] Hp; [| apply keeps_ret].
    assert (∀ w, keeps (settled s0) (emit (SocketCreated w c)))
      by (intros w; apply settled_emit; apply Hp; eauto).
    unfold new_socket. keeps_auto.
Qed.

Lemma settled_on_timer c : keeps (settled s0) (on_timer rt c).
Proof.
  unfold on_timer. pose proof (settled_connectToGateway c). keeps_auto.
Qed.

Lemma settled_run (fuel : nat) (e : event) :
  keeps_registry e → keeps (settled s0) (run rt fuel e).
Proof.
  intros He.
  destruct e as [c cb | c m | c | w | w data | w | w | w | t | ms];
    try contradiction; simpl.
  - apply settled_sendMessage.
  - unfold set_readyState, on_open. keeps_auto.
  - pose proof (fun k => settled_on_message fuel k data). keeps_auto.
  - unfold set_readyState. keeps_auto.
  - pose proof settled_on_close. unfold set_readyState. keeps_auto.
  - unfold on_error. keeps_auto.
  - pose proof settled_on_timer. keeps_auto.
  - intros s Hs. exact Hs.
Qed.

End Footprint.

Lemma settled_trans (s0 s1 s2 : state) :
  settled s0 s1 → settled s1 s2 → settled s0 s2.
Proof.
  intros H01 H12.
  pose proof H01 as (Hb & Hd & Hn & Hcb & Hsk & new1 & Htr1 & Hnew1).
  pose proof H12 as (Hb' & Hd' & Hn' & Hcb' & Hsk' & new2 & Htr2 & Hnew2).
  refine (conj _ (conj _ (conj _ (conj _ (conj _ _))))); try congruence.
  exists (new1 ++ new2). rewrite Htr2, Htr1, app_assoc. split; [reflexivity |].
    apply Forall_app. split; [exact Hnew1 |].
  eapply Forall_impl; [exact Hnew2 |].
  intros [w f | c cb m | w c | w | t c d | t]; simpl; try tauto.
  - intros (a & b & Hf & Hcbm).
    destruct (settled_find _ _ _ _ _ H01 Hf) as (b0 & Hf0 & Hcb0).
    exists a, b0. split; [exact Hf0 | congruence].
  - rewrite Hb. tauto.
  - rewrite Hb. tauto.
Qed.

Lemma settled_exec (rt : Runtime) (fuel : nat) (es : list event) (s s' : state) :
  Forall keeps_registry es → exec rt fuel es s = Some s' → settled s s'.
Proof.
  revert s. induction es as [| e es IH]; intros s Hes Hex; simpl in Hex.
  - injection Hex as <-. apply settled_refl.
  - inversion Hes as [| ? ? He Hes']; subst.
    destruct (enabled e s); [| discriminate].
    destruct (final (run rt fuel e s)) as [s1 |] eqn:Hf; [| discriminate].
    apply (settled_trans s s1 s').
    + eapply keeps_final; [apply settled_run, He | apply settled_refl | exact Hf].
    + apply IH; assumption.
Qed.

(* ===================================================================== *)
(** ** The chat gateway over the bridge service *)
(* ===================================================================== *)

Section BridgeCalls.

Context (rt : Runtime).

(** [closeBridge], for what the gateway needs of it *)
Lemma closeBridge_effects (c : string) (s : state) :
  registered_live s →
  ∃ s', closeBridge rt c s = Ok tt s'
        ∧ bridges s' = delete c (bridges s)
        ∧ heap s' = heap s
        ∧ next_addr s' = next_addr s
        ∧ next_socket s' = next_socket s
        ∧ ∃ new, trace s' = trace s ++ new ∧ Forall no_callback new.
Proof.
  intros Hlive.
  destruct (bridges s !! c) as [a |] eqn:Hm.
  - destruct (Hlive _ _ Hm) as [[b Hb] _].
    assert (Hf : find_bridge c s = Some (a, b))
      by (unfold find_bridge; rewrite Hm, Hb; reflexivity).
    rewrite (closeBridge_registered _ _ _ _ _ Hf). cbv zeta.
    eexists. split; [reflexivity |].
    destruct (reconnectTimeout b) as [t |]; destruct (ws b) as [w |];
      try destruct (close_throws rt w); simpl;
      (repeat (split; [reflexivity |]));
      first [ exists []; rewrite app_nil_r; split; [reflexivity | constructor]
            | eexists [_]; split; [reflexivity | repeat constructor]
            | eexists [_; _]; split;
              [rewrite <- app_assoc; reflexivity | repeat constructor] ].
  - rewrite (closeBridge_absent rt _ _ Hm). exists s.
    split; [reflexivity |]. split; [symmetry; apply delete_id, Hm |].
    repeat (split; [reflexivity |]).
    exists []. rewrite app_nil_r. split; [reflexivity | constructor].
Qed.

(** [createBridge] returns; it registers a new object holding the
    callback, leaves the other objects alone and calls no callback. *)
Lemma createBridge_registers (c : string) (cb : nat) (s : state) :
  registered_live s →
  ∃ s' b, createBridge rt c cb s = Ok tt s'
          ∧ bridges s' = <[c := next_addr s]> (bridges s)
          ∧ heap s' = <[next_addr s := b]> (heap s)
          ∧ onMessage b = cb
          ∧ authenticated b = false
          ∧ messageQueue b = []
          ∧ reconnectTimeout b = None
          ∧ ws b = (if socket_ctor_ok rt then Some (next_socket s) else None)
          ∧ sessionKey b = None
          ∧ ∃ new, trace s' = trace s ++ new ∧ Forall no_callback new.
Proof.
  intros Hlive. unfold createBridge, bind at 1, gets.
  assert (Hclosed : ∃ s1, (if has_bridge c s then closeBridge rt c else ret tt) s
                          = Ok tt s1
                          ∧ delete c (bridges s1) = delete c (bridges s)
                          ∧ heap s1 = heap s
                          ∧ next_addr s1 = next_addr s
                          ∧ next_socket s1 = next_socket s
                          ∧ ∃ new, trace s1 = trace s ++ new ∧ Forall no_callback new).
  { destruct (has_bridge c s).
    - destruct (closeBridge_effects c s Hlive)
        as (s1 & Hrun & Hb & Hh & Hn & Hns & Htr).
      exists s1. rewrite Hb, delete_delete_eq. auto 10.
    - exists s. repeat (split; [reflexivity |]).
      exists []. rewrite app_nil_r. split; [reflexivity | constructor]. }
  destruct Hclosed as (s1 & Hrun1 & Hb1 & Hh1 & Hn1 & Hns1 & new1 & Htr1 & Hnew1).
  unfold bind at 1. rewrite Hrun1. unfold bind at 1.
  unfold install, connectToGateway, try_catch, new_socket, update, emit,
    bind, gets, modify, find_bridge.
  cbn [bridges heap set_bridges set_heap set_next_addr].
  rewrite !lookup_insert_eq.
  destruct (socket_ctor_ok rt); simpl.
  - eexists _, (mkBridge (Some (next_socket s)) cb None false [] None).
    split; [reflexivity |]. simpl.
    split; [rewrite <- insert_delete_eq, Hb1, insert_delete_eq, Hn1; reflexivity |].
    split.
    { rewrite Hh1, Hn1. apply map_eq. intros a.
      rewrite lookup_alter.
      destruct (decide (next_addr s = a)) as [<- | Hne].
      - rewrite !lookup_insert_eq. simpl. rewrite Hns1. reflexivity.
      - rewrite !lookup_insert_ne by exact Hne. reflexivity. }
    repeat (split; [reflexivity |]).
    exists (new1 ++ [SocketCreated (next_socket s1) c]).
    rewrite Htr1, app_assoc. split; [reflexivity |].
    apply Forall_app. split; [exact Hnew1 | repeat constructor].
  - eexists _, (mkBridge None cb None false [] None).
    split; [reflexivity |]. simpl.
    split; [rewrite <- insert_delete_eq, Hb1, insert_delete_eq, Hn1; reflexivity |].
    split; [rewrite Hh1, Hn1; reflexivity |].
    repeat (split; [reflexivity |]).
    exists new1. split; [exact Htr1 | exact Hnew1].
Qed.

End BridgeCalls.

Section ChatSound.

Import Chat.

Context (rt : Runtime) (cfg : Auth.Settings).

Lemma is_authenticated_insert (c id : string) (g : gateway) :
  is_authenticated id (set_authenticatedClients (insert c true) g)
  = if decide (c = id) then true else is_authenticated id g.
Proof.
  unfold is_authenticated. simpl.
  destruct (decide (c = id)) as [<- | Hne].
  - rewrite lookup_insert_eq. reflexivity.
  - rewrite lookup_insert_ne by exact Hne. reflexivity.
Qed.

Lemma is_authenticated_delete (c id : string) (g : gateway) :
  is_authenticated id (set_authenticatedClients (delete c) g)
  = if decide (c = id) then false else is_authenticated id g.
Proof.
  unfold is_authenticated. simpl.
  destruct (decide (c = id)) as [<- | Hne].
  - rewrite lookup_delete_eq. reflexivity.
  - rewrite lookup_delete_ne by exact Hne. reflexivity.
Qed.

(** Soundness looks at the map, the service and the closures only. *)
Lemma sound_outbox (g : gateway) (out : list client_effect) :
  sound g →
  sound (mkGateway (authenticatedClients g) (bridgeService g) (callbacks g) out).
Proof. intros H. exact H. Qed.

(** A service call that leaves the registry and the callbacks alone keeps
    the gateway sound. *)
Lemma sound_settled (g : gateway) (s' : state) :
  sound g → settled (bridgeService g) s' → registered_live s' →
  sound (set_bridgeService s' g).
Proof.
  intros (Hlive & Hbooks & Hcb & Htr) Hs Hlive'.
  pose proof Hs as (Hb & _ & _ & _ & _ & new & Hnew & Hwithin).
  split; [exact Hlive' | split; [| split]].
  - intros id. simpl. rewrite Hb. apply Hbooks.
  - intros c a b Hf. simpl in *.
    destruct (settled_find _ _ _ _ _ Hs Hf) as (b0 & Hf0 & Hsame).
    rewrite <- Hsame. apply (Hcb c a b0 Hf0).
  - intros c cb msg Hin. simpl in *. rewrite Hnew in Hin.
    apply in_app_or in Hin as [Hold | Hin]; [apply (Htr c cb msg Hold) |].
    rewrite List.Forall_forall in Hwithin.
    destruct (Hwithin _ Hin) as (a & b & Hf & <-).
    apply (Hcb c a b Hf).
Qed.

Lemma call_settled (m : M unit) (g : gateway) :
  keeps (settled (bridgeService g)) m →
  keeps registered_live m →
  sound g → holds_after sound (call m g).
Proof.
  intros Hm Hl Hg. unfold call.
  specialize (Hm _ (settled_refl _)). specialize (Hl _ (proj1 Hg)).
  destruct (m (bridgeService g)) as [[] s' | s' |]; simpl; try exact I;
    apply sound_settled; assumption.
Qed.

Lemma sendMessage_sound (c : string) (message : jsval) (g : gateway) :
  sound g → holds_after sound (call (sendMessage rt c message) g).
Proof.
  apply call_settled.
  - apply settled_sendMessage.
  - apply (sendMessage_keeps rt _ _ _ _ (registered_live_stable rt)).
Qed.

Lemma handleConnection_sound (client : Socket) (g : gateway) :
  sound g → holds_after sound (handleConnection rt cfg client g).
Proof.
  intros Hg. unfold handleConnection.
  destruct (truthy (token_of (handshake client))); simpl; [| exact Hg].
  destruct (truthy (Auth.validateToken cfg _)); simpl; [| exact Hg].
  destruct Hg as (Hlive & Hbooks & Hcb & Htr).
  unfold call. cbn [bridgeService add_callback set_authenticatedClients callbacks].
  destruct (createBridge_registers rt (client_id client) (length (callbacks g))
              (bridgeService g) Hlive)
    as (s' & b & Hrun & Hb & Hh & Hon & _ & _ & _ & _ & _ & new & Hnew & Hquiet).
  rewrite Hrun. simpl.
  assert (Hlive' : registered_live s').
  { eapply (keeps_final registered_live
              (createBridge rt (client_id client) (length (callbacks g))));
      [apply (createBridge_keeps rt _ _ _ _ (registered_live_stable rt)), I
      | exact Hlive | rewrite Hrun; reflexivity]. }
  split; [exact Hlive' | split; [| split]].
  - intros id. unfold is_authenticated. simpl. rewrite Hb.
    destruct (decide (client_id client = id)) as [<- | Hne].
    + rewrite !lookup_insert_eq. split; eauto.
    + rewrite !lookup_insert_ne by exact Hne. apply Hbooks.
  - intros c a b' Hf. simpl in *.
    apply find_bridge_heap in Hf as [Hc Ha]. rewrite Hb in Hc. rewrite Hh in Ha.
    destruct (decide (client_id client = c)) as [<- | Hne].
    + rewrite lookup_insert_eq in Hc. injection Hc as <-.
      rewrite lookup_insert_eq in Ha. injection Ha as <-.
      rewrite Hon. rewrite lookup_app_r by lia.
      rewrite Nat.sub_diag. reflexivity.
    + rewrite lookup_insert_ne in Hc by exact Hne.
      destruct (Hlive _ _ Hc) as (_ & Hlt & _).
      rewrite lookup_insert_ne in Ha by lia.
      apply lookup_app_l_Some, (Hcb c a b').
      unfold find_bridge. rewrite Hc, Ha. reflexivity.
  - intros c cb msg Hin. simpl in *. rewrite Hnew in Hin.
    apply in_app_or in Hin as [Hold | Hin].
    + apply lookup_app_l_Some, (Htr c cb msg Hold).
    + rewrite List.Forall_forall in Hquiet.
      destruct (Hquiet _ Hin).
Qed.

Lemma handleDisconnect_sound (id : string) (g : gateway) :
  sound g → holds_after sound (handleDisconnect rt id g).
Proof.
  intros (Hlive & Hbooks & Hcb & Htr). unfold handleDisconnect, call.
  cbn [bridgeService set_authenticatedClients].
  destruct (closeBridge_effects rt id (bridgeService g) Hlive)
    as (s' & Hrun & Hb & Hh & _ & _ & new & Hnew & Hquiet).
  rewrite Hrun. simpl.
  assert (Hlive' : registered_live s').
  { eapply (keeps_final registered_live (closeBridge rt id));
      [apply (closeBridge_keeps rt _ _ _ _ (registered_live_stable rt)), I
      | exact Hlive | rewrite Hrun; reflexivity]. }
  split; [exact Hlive' | split; [| split]].
  - intros id'. unfold is_authenticated. simpl. rewrite Hb.
    destruct (decide (id = id')) as [<- | Hne].
    + rewrite !lookup_delete_eq. split; [discriminate | intros [? [=]]].
    + rewrite !lookup_delete_ne by exact Hne. apply Hbooks.
  - intros c a b Hf. simpl in *.
    apply find_bridge_heap in Hf as [Hc Ha]. rewrite Hb in Hc. rewrite Hh in Ha.
    apply lookup_delete_Some in Hc as [_ Hc].
    apply (Hcb c a b). unfold find_bridge. rewrite Hc, Ha. reflexivity.
  - intros c cb msg Hin. simpl in *. rewrite Hnew in Hin.
    apply in_app_or in Hin as [Hold | Hin]; [apply (Htr c cb msg Hold) |].
    rewrite List.Forall_forall in Hquiet.
    destruct (Hquiet _ Hin).
Qed.

Lemma and_then_emit_sound (r : result) (id event : string) (payload : jsval) :
  holds_after sound r →
  holds_after sound
    (and_then r (fun g => Returned (client_emit id event payload g))).
Proof. destruct r as [g | g |]; simpl; auto. Qed.

Lemma handle_sound (fuel : nat) (r : request) (g : gateway) :
  permitted r g = true → sound g → holds_after sound (handle rt cfg fuel r g).
Proof.
  intros Hp Hg. destruct r as [client | id | id payload | id payload | id | e]; simpl.
  - apply handleConnection_sound, Hg.
  - apply handleDisconnect_sound, Hg.
  - unfold handleMessage.
    destruct (is_authenticated id g); simpl; [| exact Hg].
    destruct (trimmed (get_opt payload "text")) as [text |]; [| exact Hg].
    destruct (truthy text); simpl; [| exact Hg].
    apply and_then_emit_sound, sendMessage_sound, Hg.
  - unfold handleHistory.
    destruct (is_authenticated id g); simpl; [| exact Hg].
    apply sendMessage_sound, Hg.
  - unfold handleTyping.
    destruct (is_authenticated id g); simpl; [| exact Hg].
    apply sendMessage_sound, Hg.
  - simpl in Hp. apply andb_true_iff in Hp as [Hrt _].
    apply call_settled; [| | exact Hg].
    + apply settled_run. destruct e; try discriminate; exact I.
    + apply run_keeps_any, registered_live_stable.
Qed.

Lemma serve_sound (fuel : nat) (rs : list request) (g g' : gateway) :
  sound g → serve rt cfg fuel rs g = Some g' → sound g'.
Proof.
  revert g. induction rs as [| r rs IH]; intros g Hg Hs; simpl in Hs.
  - congruence.
  - destruct (permitted r g) eqn:Hp; [| discriminate].
    pose proof (handle_sound fuel r g Hp Hg) as Hr.
    destruct (handle rt cfg fuel r g) as [g1 | g1 |]; [| | discriminate];
      apply (IH g1); assumption.
Qed.

Lemma start_sound (identity : option DeviceIdentity) (now : Z) :
  sound (start identity now).
Proof.
  split; [| split; [| split]].
  - intros c a Hc. simpl in Hc. rewrite lookup_empty in Hc. discriminate.
  - intros id. unfold is_authenticated. simpl. rewrite !lookup_empty.
    split; [discriminate | intros [? [=]]].
  - intros c a b Hf. unfold find_bridge in Hf. simpl in Hf.
    rewrite lookup_empty in Hf. discriminate.
  - intros c cb msg [].
Qed.

End ChatSound.

Section ChatGate.

Import Chat.

Context (rt : Runtime) (cfg : Auth.Settings).
Context (id : string) (before : list effect) (sent : list client_effect).

Lemma outside_emit (c event : string) (payload : jsval) (g : gateway) :
  (c = id → event = "error") →
  outside id before sent g →
  outside id before sent (client_emit c event payload g).
Proof.
  intros He (Hauth & Habs & out & Hout & Hrefusals).
  split; [exact Hauth | split; [exact Habs |]].
  exists (out ++ [Emitted c event payload]). simpl. rewrite Hout, app_assoc.
  split; [reflexivity |].
  apply Forall_app. split; [exact Hrefusals | repeat constructor; exact He].
Qed.

Lemma outside_disconnect (c : string) (g : gateway) :
  outside id before sent g →
  outside id before sent (client_disconnect c g).
Proof.
  intros (Hauth & Habs & out & Hout & Hrefusals).
  split; [exact Hauth | split; [exact Habs |]].
  exists (out ++ [Disconnected c]). simpl. rewrite Hout, app_assoc.
  split; [reflexivity |].
  apply Forall_app. split; [exact Hrefusals | repeat constructor].
Qed.

(** A service call that keeps the client absent keeps it outside. *)
Lemma outside_call (m : M unit) (g : gateway) :
  keeps (absent_since id before) m →
  outside id before sent g →
  holds_after (outside id before sent) (call m g).
Proof.
  intros Hm (Hauth & Habs & Hout). unfold call. specialize (Hm _ Habs).
  destruct (m (bridgeService g)) as [[] s' | s' |]; simpl; try exact I;
    (split; [exact Hauth | split; [exact Hm | exact Hout]]).
Qed.

Lemma outside_and_then_emit (r : result) (c event : string) (payload : jsval) :
  (c = id → event = "error") →
  holds_after (outside id before sent) r →
  holds_after (outside id before sent)
    (and_then r (fun g => Returned (client_emit c event payload g))).
Proof.
  intros He. destruct r as [g | g |]; simpl; auto using outside_emit.
Qed.

Lemma outside_other (c : string) (f : gmap string bool → gmap string bool)
    (g : gateway) :
  f (authenticatedClients g) !! id = authenticatedClients g !! id →
  outside id before sent g →
  outside id before sent (set_authenticatedClients f g).
Proof.
  intros Hf (Hauth & Habs & Hout). split; [| split; assumption].
  unfold is_authenticated in *. simpl. rewrite Hf. exact Hauth.
Qed.

Lemma sendMessage_outside (c : string) (message : jsval) (g : gateway) :
  outside id before sent g →
  holds_after (outside id before sent) (call (sendMessage rt c message) g).
Proof.
  apply outside_call.
  apply (sendMessage_keeps rt _ _ _ _ (absent_since_stable rt id before)).
Qed.

Lemma handle_keeps_outside (fuel : nat) (r : request) (g : gateway) :
  permitted r g = true →
  ¬ admits cfg id r →
  outside id before sent g →
  holds_after (outside id before sent) (handle rt cfg fuel r g).
Proof.
  intros Hp Hr Hg.
  destruct r as [client | c | c payload | c payload | c | e]; simpl.
  - unfold handleConnection.
    destruct (truthy (token_of (handshake client))) eqn:Htoken; simpl;
      [| apply outside_disconnect, outside_emit; auto].
    destruct (truthy (Auth.validateToken cfg _)) eqn:Hvalid; simpl;
      [| apply outside_disconnect, outside_emit; auto].
    assert (Hne : client_id client ≠ id).
    { intros Heq. apply Hr. split; [exact Heq |].
      unfold admitted. rewrite Htoken, Hvalid. reflexivity. }
    apply outside_and_then_emit; [intros Heq; contradiction |].
    apply outside_call.
    + apply (createBridge_keeps rt _ _ _ _ (absent_since_stable rt id before)), Hne.
    + apply (outside_other (client_id client)).
      * apply lookup_insert_ne, Hne.
      * destruct Hg as (Hauth & Habs & Hout). split; [| split]; assumption.
  - unfold handleDisconnect.
    destruct (decide (c = id)) as [-> | Hne].
    + destruct Hg as (Hauth & Habs & Hout). unfold call. simpl.
      rewrite (closeBridge_absent rt id _ (proj1 Habs)). simpl.
      split; [| split; assumption].
      unfold is_authenticated. simpl. rewrite lookup_delete_eq. reflexivity.
    + apply outside_call.
      * apply (closeBridge_keeps rt _ _ _ _ (absent_since_stable rt id before)), Hne.
      * apply (outside_other c); [apply lookup_delete_ne, Hne | exact Hg].
  - unfold handleMessage.
    destruct (is_authenticated c g) eqn:Hc; simpl;
      [| apply outside_emit; auto].
    assert (Hne : c ≠ id) by (intros ->; destruct Hg as (Hauth & _); congruence).
    destruct (trimmed (get_opt payload "text")) as [text |]; [| exact Hg].
    destruct (truthy text); simpl; [| exact Hg].
    apply outside_and_then_emit; [intros Heq; contradiction |].
    apply sendMessage_outside, Hg.
  - unfold handleHistory.
    destruct (is_authenticated c g) eqn:Hc; simpl;
      [| apply outside_emit; auto].
    apply sendMessage_outside, Hg.
  - unfold handleTyping.
    destruct (is_authenticated c g) eqn:Hc; simpl; [| exact Hg].
    apply sendMessage_outside, Hg.
  - simpl in Hp. apply andb_true_iff in Hp as [Hrt _].
    apply outside_call; [| exact Hg].
    apply run_keeps_absent. destruct e; try discriminate; exact (fun H => H).
Qed.

Lemma serve_keeps_outside (fuel : nat) (rs : list request) (g g' : gateway) :
  Forall (fun r => ¬ admits cfg id r) rs →
  outside id before sent g →
  serve rt cfg fuel rs g = Some g' →
  outside id before sent g'.
Proof.
  revert g. induction rs as [| r rs IH]; intros g Hrs Hg Hs; simpl in Hs.
  - congruence.
  - inversion Hrs as [| ? ? Hr Hrs']; subst.
    destruct (permitted r g) eqn:Hp; [| discriminate].
    pose proof (handle_keeps_outside fuel r g Hp Hr Hg) as Hnext.
    destruct (handle rt cfg fuel r g) as [g1 | g1 |]; [| | discriminate];
      apply (IH g1); assumption.
Qed.

End ChatGate.

(* ===================================================================== *)
(** ** Tokens and admission *)
(* ===================================================================== *)

Lemma drop_prefix_append (pat rest : string) :
  Text.drop_prefix pat (String.append pat rest) = Some rest.
Proof.
  induction pat as [| c pat IH]; [destruct rest; reflexivity |].
  rewrite append_cons. simpl. rewrite Ascii.eqb_refl. exact IH.
Qed.

Lemma remove_first_prefix (pat rest : string) :
  Text.remove_first pat (String.append pat rest) = rest.
Proof.
  pose proof (drop_prefix_append pat rest) as H.
  destruct (String.append pat rest); simpl; rewrite H; reflexivity.
Qed.

Lemma truthy_JStr (t : string) : t ≠ "" → truthy (JStr t) = true.
Proof.
  intros Ht. simpl. destruct (String.eqb_spec t ""); [contradiction | reflexivity].
Qed.

(** X6.  [getToken] gives a token for the configured key and for no other:
    for the empty key and, when [API_KEY] is not set, for every key it
    throws.  The token it gives signs the subject [chat-client] and the time
    in seconds, and expires after [JWT_EXPIRATION] or 30 minutes. *)
Theorem getToken_needs_the_configured_key (cfg : Auth.Settings) (now : Z)
    (key : string) :
  (is_Some (Auth.getToken cfg now key) ↔ key ≠ "" ∧ key = Auth.apiKey cfg)
  ∧ (Auth.API_KEY cfg = None → Auth.getToken cfg now key = None)
  ∧ (∀ r, Auth.getToken cfg now key = Some r →
          Auth.accessToken r
          = Auth.jwt_sign cfg
              (JObj [("sub", JStr "chat-client"); ("type", JStr "access");
                     ("iat", JNum (now / 1000))])
          ∧ Auth.expiresIn r = match Auth.JWT_EXPIRATION cfg with
                               | Some e => e
                               | None => "30m"
                               end).
Proof.
  unfold Auth.getToken.
  destruct (String.eqb_spec key "") as [-> | Hne]; simpl.
  - split; [| split].
    + split; [intros [? [=]] | intros [[] _]; reflexivity].
    + reflexivity.
    + intros r [=].
  - destruct (String.eqb_spec key (Auth.apiKey cfg)) as [He | Hk]; simpl.
    + split; [| split].
      * split; eauto.
      * intros Hunset. unfold Auth.apiKey in He. rewrite Hunset in He.
        contradiction.
      * intros r [= <-]. split; reflexivity.
    + split; [| split].
      * split; [intros [? [=]] | intros [_ ?]; contradiction].
      * reflexivity.
      * intros r [=].
Qed.

Lemma getToken_needs_the_configured_key_witness :
  is_Some (Auth.getToken demo_settings 1700000000123 "k3y")
  ∧ Auth.getToken demo_settings 1700000000123 "" = None
  ∧ Auth.getToken demo_settings 1700000000123 "other" = None
  ∧ Auth.getToken (Auth.mkSettings None None (fun _ => "t") (fun _ => None))
      1700000000123 "" = None.
Proof.
  pose proof (getToken_needs_the_configured_key demo_settings 1700000000123 "k3y")
    as (Hiff & _).
  split; [apply Hiff; split; [discriminate | reflexivity] |].
  repeat split; vm_compute; reflexivity.
Defined.

(** X7.  A connection is let in exactly when it carries a token that
    [JwtService] verifies with subject [chat-client].  Without one the
    client gets one [error] and is disconnected, and nothing else changes;
    with one the client is marked authenticated, a new bridge with an empty
    queue is registered under its id with a callback that emits to it, and
    the client gets [connected]. *)
Theorem handleConnection_admits (rt : Runtime) (cfg : Auth.Settings)
    (client : Chat.Socket) (g : Chat.gateway) :
  registered_live (Chat.bridgeService g) →
  let id := Chat.client_id client in
  let token := Chat.token_of (Chat.handshake client) in
  (admitted cfg client = true
   ↔ truthy token = true
     ∧ ∃ claims, Auth.jwt_verify cfg token = Some claims
                 ∧ truthy claims = true
                 ∧ get_opt claims "sub" = JStr "chat-client")
  ∧ (admitted cfg client = false →
     ∃ text,
       Chat.handleConnection rt cfg client g
       = Chat.Returned
           (Chat.client_disconnect id
              (Chat.client_emit id "error" (Chat.notice text) g)))
  ∧ (admitted cfg client = true →
     ∃ g' a b,
       Chat.handleConnection rt cfg client g = Chat.Returned g'
       ∧ Chat.is_authenticated id g' = true
       ∧ find_bridge id (Chat.bridgeService g') = Some (a, b)
       ∧ authenticated b = false
       ∧ messageQueue b = []
       ∧ Chat.callbacks g' !! onMessage b = Some id
       ∧ Chat.outbox g'
         = Chat.outbox g
           ++ [Chat.Emitted id "connected"
                 (Chat.notice "Connected to OpenClaw Face Server")]).
Proof.
  intros Hlive id token. split; [| split].
  - unfold admitted. fold token. rewrite andb_true_iff.
    unfold Auth.validateToken.
    destruct (Auth.jwt_verify cfg token) as [claims |]; simpl.
    + destruct (truthy claims) eqn:Hclaims; simpl.
      * split.
        -- intros [Ht Hsub]. split; [exact Ht |]. exists claims.
           split; [reflexivity | split; [exact Hclaims |]].
           destruct (get_opt claims "sub") as [| | | | sub | |];
             try discriminate.
           simpl in Hsub. apply String.eqb_eq in Hsub. congruence.
        -- intros [Ht (claims' & [= <-] & _ & Hsub)]. rewrite Hsub.
           split; [exact Ht | reflexivity].
      * split.
        -- intros [_ Hfalse]. congruence.
        -- intros [_ (claims' & [= <-] & Hfalse & _)]. congruence.
    + split; [intros [_ [=]] | intros [_ (claims' & [=] & _)]].
  - unfold admitted. fold token. intros Hno. unfold Chat.handleConnection.
    fold token id.
    destruct (truthy token); simpl in *; [| eexists; reflexivity].
    rewrite Hno. simpl. eexists; reflexivity.
  - unfold admitted. fold token. intros Hyes.
    apply andb_true_iff in Hyes as [Ht Hv].
    unfold Chat.handleConnection. fold token id. rewrite Ht, Hv. simpl.
    unfold Chat.call.
    cbn [Chat.bridgeService Chat.add_callback Chat.set_authenticatedClients
         Chat.callbacks].
    destruct (createBridge_registers rt id (length (Chat.callbacks g))
                (Chat.bridgeService g) Hlive)
      as (s' & b & Hrun & Hb & Hh & Hon & Hau & Hq & _ & _ & _).
    rewrite Hrun. simpl.
    eexists _, (next_addr (Chat.bridgeService g)), b.
    split; [reflexivity |]. simpl.
    split; [unfold Chat.is_authenticated; simpl; rewrite lookup_insert_eq;
            reflexivity |].
    split; [unfold find_bridge; rewrite Hb, Hh, !lookup_insert_eq; reflexivity |].
    split; [exact Hau | split; [exact Hq | split; [| reflexivity]]].
    rewrite Hon, lookup_app_r by lia. rewrite Nat.sub_diag. reflexivity.
Qed.

Lemma handleConnection_admits_witness :
  (∃ text,
     Chat.handleConnection demo_runtime demo_settings (demo_stranger "c2")
       (served [])
     = Chat.Returned
         (Chat.client_disconnect "c2"
            (Chat.client_emit "c2" "error" (Chat.notice text) (served []))))
  ∧ (∃ g' a b,
       Chat.handleConnection demo_runtime demo_settings
         (demo_client "c1" "jwt:chat-client") (served [])
       = Chat.Returned g'
       ∧ Chat.is_authenticated "c1" g' = true
       ∧ find_bridge "c1" (Chat.bridgeService g') = Some (a, b)).
Proof.
  assert (Hlive : registered_live (Chat.bridgeService (served []))).
  { intros c a Hc. vm_compute in Hc. discriminate. }
  assert (Hyes : admitted demo_settings (demo_client "c1" "jwt:chat-client") = true)
    by (vm_compute; reflexivity).
  split.
  - apply (proj1 (proj2 (handleConnection_admits demo_runtime demo_settings
                           (demo_stranger "c2") (served []) Hlive))).
    vm_compute. reflexivity.
  - destruct (proj2 (proj2 (handleConnection_admits demo_runtime demo_settings
                              (demo_client "c1" "jwt:chat-client") (served [])
                              Hlive)) Hyes)
      as (g' & a & b & Hrun & Hauth & Hf & _).
    exists g', a, b. split; [exact Hrun | split; [exact Hauth | exact Hf]].
Defined.

(** X8.  A token [getToken] has issued opens the gateway wherever the
    client puts it: in the query string, in the [auth] object of the
    handshake, or in an [Authorization: Bearer] header (in that order of
    precedence), provided [JwtService] verifies the token it has signed. *)
Theorem issued_token_admits (cfg : Auth.Settings) (now : Z) (key id : string)
    (r : Auth.TokenResponse) (h : Chat.Handshake) :
  (∃ claims,
     Auth.jwt_verify cfg (JStr (Auth.jwt_sign cfg (Auth.token_payload now)))
     = Some claims
     ∧ truthy claims = true
     ∧ get_opt claims "sub" = JStr "chat-client") →
  Auth.getToken cfg now key = Some r →
  Auth.accessToken r ≠ "" →
  Chat.query_token h = JStr (Auth.accessToken r)
  ∨ (truthy (Chat.query_token h) = false
     ∧ get_opt (Chat.handshake_auth h) "token" = JStr (Auth.accessToken r))
  ∨ (truthy (Chat.query_token h) = false
     ∧ truthy (get_opt (Chat.handshake_auth h) "token") = false
     ∧ Chat.authorization h
       = Some (String.append "Bearer " (Auth.accessToken r))) →
  Chat.token_of h = JStr (Auth.accessToken r)
  ∧ admitted cfg (Chat.mkClient id h) = true.
Proof.
  intros Hjwt Hr Hne Hwhere.
  pose proof (truthy_JStr _ Hne) as Htruthy.
  assert (Htoken : Chat.token_of h = JStr (Auth.accessToken r)).
  { unfold Chat.token_of, or_else.
    destruct Hwhere as [Hq | [(Hq & Ha) | (Hq & Ha & Hh)]].
    - rewrite Hq, Htruthy. cbn [truthy]. simpl in Htruthy. rewrite Htruthy.
      reflexivity.
    - rewrite Hq, Ha, Htruthy. reflexivity.
    - rewrite Hq, Ha, Hh, remove_first_prefix. reflexivity. }
  split; [exact Htoken |].
  unfold admitted. cbn [Chat.handshake]. rewrite Htoken, Htruthy. simpl.
  unfold Auth.getToken in Hr.
  destruct (String.eqb key "" || negb (String.eqb key (Auth.apiKey cfg)));
    [discriminate |].
  injection Hr as <-. cbn [Auth.accessToken] in *.
  unfold Auth.validateToken.
  destruct Hjwt as (claims & Hv & Hc & Hsub).
  rewrite Hv, Hc, Hsub. reflexivity.
Qed.

Lemma issued_token_admits_witness :
  ∃ r, Auth.getToken demo_settings 1700000000123 "k3y" = Some r
       ∧ admitted demo_settings
           (Chat.mkClient "c1"
              (Chat.mkHandshake JUndefined JNull
                 (Some (String.append "Bearer " (Auth.accessToken r)))))
         = true.
Proof.
  eexists. split; [vm_compute; reflexivity |].
  refine (proj2 (issued_token_admits demo_settings 1700000000123 "k3y" "c1" _ _
                   _ eq_refl _ _)).
  - eexists. repeat split; vm_compute; reflexivity.
  - discriminate.
  - right. right. repeat split; reflexivity.
Defined.

(* ===================================================================== *)
(** ** The gateway and its bridges *)
(* ===================================================================== *)

(** [sendMessage] on a bridge that cannot send at once appends to its
    queue. *)
Lemma sendMessage_holds (rt : Runtime) (clientId : string) (m : jsval)
    (s : state) (a : nat) (b : BridgeConnection) :
  find_bridge clientId s = Some (a, b) →
  ready b s = false →
  sendMessage rt clientId m s
  = Ok tt (put a (with_messageQueue (messageQueue b ++ [m]) b) s).
Proof.
  intros Hf Hr. unfold sendMessage, bind, gets. rewrite Hf.
  unfold ready in Hr.
  destruct (authenticated b); cbn [negb andb] in *.
  - rewrite Hr. cbn [negb].
    apply (update_found a (fun b => with_messageQueue (messageQueue b ++ [m]) b)).
    apply (find_bridge_heap _ _ _ _ Hf).
  - apply (update_found a (fun b => with_messageQueue (messageQueue b ++ [m]) b)).
    apply (find_bridge_heap _ _ _ _ Hf).
Qed.

(** X9.  In every state of the gateway a client is marked authenticated
    exactly when a bridge is registered under its id: [handleConnection]
    makes both, [handleDisconnect] removes both, and nothing else touches
    either. *)
Theorem gateway_books_agree (rt : Runtime) (cfg : Auth.Settings) (fuel : nat)
    (rs : list Chat.request) (identity : option DeviceIdentity) (now : Z)
    (g : Chat.gateway) :
  Chat.serve rt cfg fuel rs (Chat.start identity now) = Some g →
  ∀ id, Chat.is_authenticated id g = true
        ↔ is_Some (bridges (Chat.bridgeService g) !! id).
Proof.
  intros Hs.
  exact (proj1 (proj2 (serve_sound rt cfg fuel rs _ g (start_sound identity now) Hs))).
Qed.

Lemma gateway_books_agree_witness :
  let g := served [Chat.Connection (demo_client "c1" "jwt:chat-client");
                   Chat.Connection (demo_stranger "c2");
                   Chat.Upstream (SocketOpen 0);
                   Chat.Connection (demo_client "c3" "jwt:chat-client");
                   Chat.Disconnect "c1"] in
  (Chat.is_authenticated "c3" g = true
   ↔ is_Some (bridges (Chat.bridgeService g) !! "c3"))
  ∧ Chat.is_authenticated "c3" g = true
  ∧ Chat.is_authenticated "c1" g = false
  ∧ bridges (Chat.bridgeService g) !! "c2" = None.
Proof.
  split; [| repeat split; vm_compute; reflexivity].
  apply (gateway_books_agree demo_runtime demo_settings 8
           [Chat.Connection (demo_client "c1" "jwt:chat-client");
            Chat.Connection (demo_stranger "c2");
            Chat.Upstream (SocketOpen 0);
            Chat.Connection (demo_client "c3" "jwt:chat-client");
            Chat.Disconnect "c1"] (Some demo_identity) 1000).
  vm_compute. reflexivity.
Defined.

(** X10.  What the bridge forwards for a client id reaches the client with
    that id and no other: the callback of the bridge registered under an
    id, and every callback the service has ever invoked for that id, is a
    closure the gateway made for the client with that id. *)
Theorem gateway_callbacks_isolated (rt : Runtime) (cfg : Auth.Settings)
    (fuel : nat) (rs : list Chat.request) (identity : option DeviceIdentity)
    (now : Z) (g : Chat.gateway) :
  Chat.serve rt cfg fuel rs (Chat.start identity now) = Some g →
  (∀ c a b, find_bridge c (Chat.bridgeService g) = Some (a, b) →
            Chat.callbacks g !! onMessage b = Some c)
  ∧ (∀ c cb msg, In (Notified c cb msg) (trace (Chat.bridgeService g)) →
                 Chat.callbacks g !! cb = Some c).
Proof.
  intros Hs.
  exact (proj2 (proj2 (serve_sound rt cfg fuel rs _ g (start_sound identity now) Hs))).
Qed.

Lemma gateway_callbacks_isolated_witness :
  let g := served [Chat.Connection (demo_client "c1" "jwt:chat-client");
                   Chat.Connection (demo_client "c2" "jwt:chat-client");
                   Chat.Upstream (SocketOpen 1);
                   Chat.Upstream (SocketMessage 1 (Some (chat_frame (JStr "for c2"))))] in
  In (Notified "c2" 1 (JStr "for c2")) (trace (Chat.bridgeService g))
  ∧ Chat.callbacks g !! 1%nat = Some "c2".
Proof.
  intros g. assert (Hin : In (Notified "c2" 1 (JStr "for c2"))
                            (trace (Chat.bridgeService g))).
  { vm_compute. right. right. left. reflexivity. }
  split; [exact Hin |].
  assert (Hrun : Chat.serve demo_runtime demo_settings 8
                   [Chat.Connection (demo_client "c1" "jwt:chat-client");
                    Chat.Connection (demo_client "c2" "jwt:chat-client");
                    Chat.Upstream (SocketOpen 1);
                    Chat.Upstream (SocketMessage 1 (Some (chat_frame (JStr "for c2"))))]
                   (Chat.start (Some demo_identity) 1000) = Some g)
    by (vm_compute; reflexivity).
  exact (proj2 (gateway_callbacks_isolated demo_runtime demo_settings 8 _
                  (Some demo_identity) 1000 g Hrun) "c2" 1%nat (JStr "for c2") Hin).
Defined.

(** X11.  A client that is not let in stays outside.  From a state in which
    the id is not marked authenticated and has no bridge, and for as long
    as no connection with that id carries a valid token, the id is never
    marked authenticated, no bridge is registered under it, the bridge
    service makes no socket, timer or notification for it, and the gateway
    emits nothing to it but [error]. *)
Theorem gateway_keeps_strangers_out (rt : Runtime) (cfg : Auth.Settings)
    (fuel : nat) (id : string) (rs : list Chat.request) (g g' : Chat.gateway) :
  Chat.is_authenticated id g = false →
  bridges (Chat.bridgeService g) !! id = None →
  Forall (fun r => ¬ admits cfg id r) rs →
  Chat.serve rt cfg fuel rs g = Some g' →
  Chat.is_authenticated id g' = false
  ∧ bridges (Chat.bridgeService g') !! id = None
  ∧ (∃ new, trace (Chat.bridgeService g') = trace (Chat.bridgeService g) ++ new
            ∧ Forall (effect_allowed (fun c => c ≠ id)) new)
  ∧ (∃ out, Chat.outbox g' = Chat.outbox g ++ out ∧ Forall (refusal id) out).
Proof.
  intros Hauth Habs Hrs Hs.
  assert (Hg : outside id (trace (Chat.bridgeService g)) (Chat.outbox g) g).
  { split; [exact Hauth | split; [split; [exact Habs |] |]].
    - exists []. rewrite app_nil_r. split; [reflexivity | constructor].
    - exists []. rewrite app_nil_r. split; [reflexivity | constructor]. }
  destruct (serve_keeps_outside rt cfg id _ _ fuel rs g g' Hrs Hg Hs)
    as (Hauth' & (Habs' & Htr) & Hout).
  auto.
Qed.

Lemma gateway_keeps_strangers_out_witness :
  let rs := [Chat.Connection (demo_stranger "c2");
             Chat.Connection (demo_client "c2" "jwt:someone-else");
             Chat.Message "c2" (JObj [("text", JStr "let me in")]);
             Chat.Connection (demo_client "c1" "jwt:chat-client");
             Chat.Typing "c2"] in
  Chat.is_authenticated "c2" (served rs) = false
  ∧ bridges (Chat.bridgeService (served rs)) !! "c2" = None
  ∧ Chat.is_authenticated "c1" (served rs) = true.
Proof.
  intros rs.
  destruct (gateway_keeps_strangers_out demo_runtime demo_settings 8 "c2" rs
              (served []) (served rs)) as (Hauth & Habs & _).
  - vm_compute. reflexivity.
  - vm_compute. reflexivity.
  - unfold rs. repeat apply List.Forall_cons; try apply List.Forall_nil;
      intros Hadm; vm_compute in Hadm; try contradiction;
      destruct Hadm as [Hid Hadm]; first [discriminate Hid | discriminate Hadm].
  - vm_compute. reflexivity.
  - split; [exact Hauth | split; [exact Habs | vm_compute; reflexivity]].
Defined.

(** X12.  [handleMessage] drops a message whose text is blank and hands on
    every other with its text trimmed; the bridge queues it when it cannot
    send at once (not authenticated with the gateway, or its socket not
    open) and otherwise sends it as an [agent] request whose
    [params.message] is the trimmed text and whose [idempotencyKey] is its
    [id]: a chat message never goes through untranslated.  The client is
    then told the assistant is typing. *)
Theorem handleMessage_forwards (rt : Runtime) (id text : string)
    (payload : jsval) (g : Chat.gateway) :
  Chat.is_authenticated id g = true →
  get_opt payload "text" = JStr text →
  let s := Chat.bridgeService g in
  let typing g' :=
    Chat.Returned
      (Chat.client_emit id "typing" (JObj [("isTyping", JBool true)]) g') in
  (Text.trim text = "" → Chat.handleMessage rt id payload g = Chat.Returned g)
  ∧ (Text.trim text ≠ "" →
     ∀ a b, find_bridge id s = Some (a, b) →
       (ready b s = false →
        Chat.handleMessage rt id payload g
        = typing
            (Chat.set_bridgeService
               (put a (with_messageQueue
                         (messageQueue b ++ [client_message (Text.trim text)]) b) s)
               g))
       ∧ (∀ w, ready b s = true → ws b = Some w →
          Chat.handleMessage rt id payload g
          = typing
              (Chat.set_bridgeService
                 (log_effect
                    (Sent w (agent_request (uuidv4 rt (uuids s))
                               (JStr (Text.trim text))
                               (session_key_of (Some (a, b)))))
                    (set_uuids (S (uuids s)) s))
                 g))).
Proof.
  intros Hauth Htext s typing. unfold Chat.handleMessage.
  rewrite Hauth, Htext. cbn [negb Chat.trimmed]. split.
  - intros ->. reflexivity.
  - intros Hne a b Hf. rewrite (truthy_JStr _ Hne). cbn [negb].
    fold (client_message (Text.trim text)). unfold Chat.call. fold s. split.
    + intros Hb. rewrite (sendMessage_holds rt id _ s a b Hf Hb). reflexivity.
    + intros w Hr Hw. unfold ready in Hr. rewrite Hw in Hr.
      apply andb_true_iff in Hr as [Hb Ho].
      rewrite (sendMessage_live rt id _ s a w b Hf Hb Hw Ho);
        [| discriminate].
      unfold translate, takes_id, client_message. cbn [get_opt get assoc String.eqb
        Ascii.eqb Bool.eqb is_str andb orb].
      rewrite (truthy_JStr _ Hne). reflexivity.
Qed.

Lemma handleMessage_forwards_witness :
  let g := served [Chat.Connection (demo_client "c1" "jwt:chat-client");
                   Chat.Upstream (SocketOpen 0);
                   Chat.Upstream (SocketMessage 0 (Some hello_ok_frame))] in
  Chat.handleMessage demo_runtime "c1" (JObj [("text", JStr "   ")]) g
  = Chat.Returned g
  ∧ Chat.handleMessage demo_runtime "c1" (JObj [("text", JStr " hello  ")]) g
    = Chat.Returned
        (Chat.client_emit "c1" "typing" (JObj [("isTyping", JBool true)])
           (Chat.set_bridgeService
              (log_effect
                 (Sent 0 (agent_request "uuid-0" (JStr "hello") (JStr "main")))
                 (set_uuids 1 (Chat.bridgeService g)))
              g)).
Proof.
  intros g.
  assert (Hauth : Chat.is_authenticated "c1" g = true) by (vm_compute; reflexivity).
  assert (Hf : find_bridge "c1" (Chat.bridgeService g)
               = Some (0%nat, mkBridge (Some 0%nat) 0 None true [] None))
    by (vm_compute; reflexivity).
  assert (Hblank : Text.trim "   " = "") by (vm_compute; reflexivity).
  assert (Htext : Text.trim " hello  " ≠ "") by (vm_compute; discriminate).
  assert (Hready : ready (mkBridge (Some 0%nat) 0 None true [] None)
                         (Chat.bridgeService g) = true)
    by (vm_compute; reflexivity).
  split.
  - exact (proj1 (handleMessage_forwards demo_runtime "c1" "   "
                    (JObj [("text", JStr "   ")]) g Hauth eq_refl) Hblank).
  - pose proof (proj2 (proj2 (handleMessage_forwards demo_runtime "c1" " hello  "
                                (JObj [("text", JStr " hello  ")]) g Hauth eq_refl)
                         Htext _ _ Hf) 0%nat Hready eq_refl) as Hsend.
    rewrite Hsend. vm_compute. reflexivity.
Defined.

(* ===================================================================== *)
(** ** Start-up: the device identity *)
(* ===================================================================== *)

(** X13.  [generateDeviceIdentity] keeps the DER private key, takes the
    device id from the SHA-256 of the raw public key, and publishes the raw
    key, the 32 bytes after the 12-byte header of a 44-byte Ed25519 SPKI
    key, as 43 URL-safe characters without padding from which the raw key
    can be read back; [onModuleInit] installs that identity. *)
Theorem generateDeviceIdentity_public_key (cr : Lifecycle.Crypto)
    (spki pkcs8 : list byte) (now : Z) :
  Lifecycle.generateKeyPairSync cr = (spki, pkcs8) →
  length spki = 44%nat →
  let d := Lifecycle.generateDeviceIdentity cr in
  let raw := skipn 12 spki in
  length raw = 32%nat
  ∧ deviceId d = Lifecycle.sha256_hex cr raw
  ∧ privateKey d = pkcs8
  ∧ String.length (publicKey d) = 43%nat
  ∧ Forall (fun c => url_safe c = true) (list_ascii_of_string (publicKey d))
  ∧ decode (list_ascii_of_string (publicKey d)) = Some raw
  ∧ Lifecycle.onModuleInit cr (initial None now) = Ok tt (initial (Some d) now).
Proof.
  intros Hpair Hlen d raw.
  assert (Hraw : length raw = 32%nat) by (unfold raw; rewrite length_skipn; lia).
  assert (Hd : d = mkIdentity (Lifecycle.sha256_hex cr raw)
                              (Base64Url.encode raw) pkcs8).
  { unfold d, Lifecycle.generateDeviceIdentity. rewrite Hpair. reflexivity. }
  rewrite Hd. cbn [deviceId privateKey publicKey].
  split; [exact Hraw | split; [reflexivity | split; [reflexivity |]]].
  split; [| split; [| split]].
  - rewrite string_length_list, encode_sextets, length_map, sextets_length, Hraw.
    reflexivity.
  - rewrite encode_sextets. apply Forall_map.
    eapply Forall_impl; [apply sextets_small |].
    intros n Hn. apply digit_url_safe, Hn.
  - rewrite encode_sextets. apply decode_sextets.
  - unfold Lifecycle.onModuleInit, modify. fold d. rewrite Hd. reflexivity.
Qed.

Lemma generateDeviceIdentity_public_key_witness :
  publicKey (Lifecycle.generateDeviceIdentity demo_crypto)
  = "-_v7-_v7-_v7-_v7-_v7-_v7-_v7-_v7-_v7-_v7-_s"
  ∧ String.length (publicKey (Lifecycle.generateDeviceIdentity demo_crypto)) = 43%nat
  ∧ decode (list_ascii_of_string
              (publicKey (Lifecycle.generateDeviceIdentity demo_crypto)))
    = Some (repeat Byte.xfb 32).
Proof.
  destruct (generateDeviceIdentity_public_key demo_crypto
              (repeat Byte.x30 12 ++ repeat Byte.xfb 32) [Byte.x01; Byte.x02] 0
              eq_refl eq_refl) as (_ & _ & _ & Hlen & _ & Hdec & _).
  split; [vm_compute; reflexivity | split; [exact Hlen | exact Hdec]].
Defined.

Lemma deviceIdentity_stable (rt : Runtime) (d : option DeviceIdentity) :
  stable rt (fun _ => True) (fun _ => True) (fun _ => True)
         (fun s => deviceIdentity s = d).
Proof.
  split.
  - intros a f _ _ s Hs. exact Hs.
  - intros c a b s _ Hs _ s' [= <-]. exact Hs.
  - intros a t _ s Hs. exact Hs.
  - intros w s Hs. exact Hs.
  - intros w r k s Hs _ _ _. exact Hs.
  - intros n s Hs. exact Hs.
  - intros t s Hs. exact Hs.
  - intros e _ s Hs. exact Hs.
  - intros c delay _ s Hs. exact Hs.
  - intros c a b s _ Hs _. unfold new_socket.
    destruct (socket_ctor_ok rt); exact Hs.
  - intros c cb _ s Hs. exact Hs.
  - intros c _ s Hs. exact Hs.
  - intros f s Hs. exact Hs.
Qed.

(** X14.  The identity generated at start-up is the identity of the process
    for good: no call of the service and no event of its sockets and timers
    changes it, so every handshake is signed for the same device. *)
Theorem device_identity_fixed (rt : Runtime) (fuel : nat) (es : list event)
    (s s' : state) :
  exec rt fuel es s = Some s' → deviceIdentity s' = deviceIdentity s.
Proof.
  intros Hex.
  exact (exec_keeps_any rt _ fuel es s s'
           (deviceIdentity_stable rt (deviceIdentity s)) eq_refl Hex).
Qed.

Lemma device_identity_fixed_witness :
  deviceIdentity demo_authenticated = Some demo_identity.
Proof.
  assert (Hrun : exec demo_runtime 8
                   [CreateBridge "c1" 7; SocketOpen 0;
                    SocketMessage 0 (Some (challenge_frame "abc" 1000));
                    SocketMessage 0 (Some hello_ok_frame)]
                   demo_start = Some demo_authenticated)
    by (vm_compute; reflexivity).
  exact (device_identity_fixed demo_runtime 8 _ demo_start demo_authenticated Hrun).
Defined.

(* ===================================================================== *)
(** ** Shutdown: [onModuleDestroy] *)
(* ===================================================================== *)

Section Shutdown.

Context (rt : Runtime).

(** [closeBridge], for what follows it: it removes the entry, leaves the
    objects alone, only cancels timers and closes sockets. *)
Lemma closeBridge_summary (c : string) (s : state) :
  registered_live s →
  ∃ s', closeBridge rt c s = Ok tt s'
        ∧ registered_live s'
        ∧ bridges s' = delete c (bridges s)
        ∧ heap s' = heap s
        ∧ (∀ t, timers s !! t = None → timers s' !! t = None)
        ∧ (∀ w, is_open w s = false → is_open w s' = false)
        ∧ (∀ a b, find_bridge c s = Some (a, b) →
             (∀ t, reconnectTimeout b = Some t → timers s' !! t = None)
             ∧ (∀ w, ws b = Some w → close_throws rt w = false →
                     is_open w s' = false))
        ∧ ∃ new, trace s' = trace s ++ new ∧ Forall closing_only new.
Proof.
  intros Hlive.
  assert (Hkeep : ∀ s', closeBridge rt c s = Ok tt s' → registered_live s').
  { intros s' Hrun.
    eapply (keeps_final registered_live (closeBridge rt c));
      [apply (closeBridge_keeps rt _ _ _ _ (registered_live_stable rt)), I
      | exact Hlive | rewrite Hrun; reflexivity]. }
  destruct (bridges s !! c) as [a |] eqn:Hm.
  - destruct (Hlive _ _ Hm) as [[b Hb] _].
    assert (Hf : find_bridge c s = Some (a, b))
      by (unfold find_bridge; rewrite Hm, Hb; reflexivity).
    pose proof (closeBridge_registered rt _ _ _ _ Hf) as Hrun. cbv zeta in Hrun.
    assert (Hopen : ∀ w w' s1, is_open w s1 = false →
                      is_open w (set_sockets (alter closing w') s1) = false).
    { intros w w' s1. unfold is_open. simpl. rewrite lookup_alter.
      destruct (decide (w' = w)) as [-> | Hne]; [| auto].
      destruct (sockets s1 !! w) as [k |]; simpl; [| auto].
      unfold closing. destruct (readyState k) eqn:Hr; simpl; rewrite ?Hr; auto. }
    assert (Hclosed : ∀ w s1, is_open w (set_sockets (alter closing w) s1) = false).
    { intros w s1. unfold is_open. simpl. rewrite lookup_alter.
      destruct (decide (w = w)); [| congruence].
      destruct (sockets s1 !! w) as [k |]; simpl; [| reflexivity].
      unfold closing. destruct (readyState k) eqn:Hr; simpl; rewrite ?Hr;
        reflexivity. }
    destruct (reconnectTimeout b) as [t |] eqn:Ht;
      destruct (ws b) as [w |] eqn:Hw;
      try destruct (close_throws rt w) eqn:Hthrows;
      (eexists; split; [exact Hrun |]); (split; [apply Hkeep, Hrun |]);
      (split; [reflexivity |]); (split; [reflexivity |]);
      (split; [intros t' Ht'; simpl;
               try (destruct (decide (t = t')) as [<- | Hne];
                    [apply lookup_delete_eq
                    | rewrite lookup_delete_ne by exact Hne]);
               exact Ht' |]);
      (split; [intros w' Hw'; try (apply Hopen); exact Hw' |]);
      (split;
       [intros a' b' Hf'; rewrite Hf in Hf'; injection Hf' as <- <-; split;
        [intros t'; rewrite Ht; intros [= <-]; simpl; apply lookup_delete_eq
        | intros w'; rewrite Hw; intros [= <-] Hno;
          first [congruence | apply Hclosed] ] |]);
      simpl;
      first [ exists []; rewrite app_nil_r; split; [reflexivity | constructor]
            | eexists [_]; split; [reflexivity | repeat constructor]
            | eexists [_; _]; split;
              [rewrite <- app_assoc; reflexivity | repeat constructor] ].
  - pose proof (closeBridge_absent rt _ _ Hm) as Hrun.
    exists s. split; [exact Hrun |]. split; [exact Hlive |].
    split; [symmetry; apply delete_id, Hm |].
    split; [reflexivity | split; [auto | split; [auto | split]]].
    + intros a b Hf. apply find_bridge_heap in Hf as [Hc _]. congruence.
    + exists []. rewrite app_nil_r. split; [reflexivity | constructor].
Qed.

(** [closeBridge] for every key of a list. *)
Lemma close_each_summary (visit : list string) :
  ∀ s, registered_live s →
  ∃ s', Lifecycle.close_each rt visit s = Ok tt s'
        ∧ (∀ c, bridges s' !! c = if decide (c ∈ visit) then None
                                  else bridges s !! c)
        ∧ heap s' = heap s
        ∧ (∀ t, timers s !! t = None → timers s' !! t = None)
        ∧ (∀ w, is_open w s = false → is_open w s' = false)
        ∧ (∀ c a b, c ∈ visit → find_bridge c s = Some (a, b) →
             (∀ t, reconnectTimeout b = Some t → timers s' !! t = None)
             ∧ (∀ w, ws b = Some w → close_throws rt w = false →
                     is_open w s' = false))
        ∧ ∃ new, trace s' = trace s ++ new ∧ Forall closing_only new.
Proof.
  induction visit as [| c rest IH]; intros s Hlive.
  - exists s. split; [reflexivity |].
    split; [intros c; rewrite decide_False by apply not_elem_of_nil; reflexivity |].
    split; [reflexivity | split; [auto | split; [auto | split]]].
    + intros c a b Hc. apply not_elem_of_nil in Hc. contradiction.
    + exists []. rewrite app_nil_r. split; [reflexivity | constructor].
  - destruct (closeBridge_summary c s Hlive)
      as (s1 & Hrun1 & Hlive1 & Hb1 & Hh1 & Ht1 & Ho1 & Hc1 & new1 & Htr1 & Hnew1).
    destruct (IH s1 Hlive1)
      as (s2 & Hrun2 & Hb2 & Hh2 & Ht2 & Ho2 & Hc2 & new2 & Htr2 & Hnew2).
    exists s2. cbn [Lifecycle.close_each]. unfold bind. rewrite Hrun1.
    split; [exact Hrun2 |].
    split; [| split; [congruence | split; [auto | split; [auto | split]]]].
    + intros c'. rewrite Hb2, Hb1.
      destruct (decide (c' ∈ rest)) as [Hin | Hout].
      * rewrite decide_True by (right; exact Hin). reflexivity.
      * destruct (decide (c = c')) as [<- | Hne].
        -- rewrite decide_True by left. apply lookup_delete_eq.
        -- rewrite lookup_delete_ne by exact Hne.
           rewrite decide_False; [reflexivity |].
           intros Hin. apply elem_of_cons in Hin as [-> | Hin]; contradiction.
    + intros c' a b Hin Hf.
      destruct (decide (c' = c)) as [-> | Hne].
      * destruct (Hc1 a b Hf) as [Htimer Hsock]. split.
        -- intros t Ht. apply Ht2, Htimer, Ht.
        -- intros w Hw Hno. apply Ho2, (Hsock w Hw Hno).
      * apply elem_of_cons in Hin as [-> | Hin]; [contradiction |].
        apply (Hc2 c' a b Hin).
        apply find_bridge_heap in Hf as [Hc Ha].
        unfold find_bridge. rewrite Hb1, lookup_delete_ne by auto.
        rewrite Hc, Hh1, Ha. reflexivity.
    + exists (new1 ++ new2). rewrite Htr2, Htr1, app_assoc.
      split; [reflexivity | apply Forall_app; split; assumption].
Qed.

(** [forEach] visits every registered key. *)
Lemma forEach_order_complete (c : string) (s : state) :
  is_Some (bridges s !! c) → c ∈ Lifecycle.forEach_order s.
Proof.
  intros [a Ha]. unfold Lifecycle.forEach_order.
  apply list_elem_of_fmap. exists (c, a). split; [reflexivity |].
  rewrite merge_sort_Permutation. apply elem_of_map_to_list, Ha.
Qed.

End Shutdown.

(** X15.  [onModuleDestroy] closes every bridge and never throws: afterwards
    the registry is empty, the reconnect timer of every bridge that was
    registered is cancelled and its socket, unless [close()] threw, is no
    longer open; nothing was done but clearing timers and closing sockets,
    and from then on the service creates no socket, arms no timer and calls
    no callback for any client until [createBridge] is called for it. *)
Theorem onModuleDestroy_closes_every_bridge (rt : Runtime) (s : state) :
  registered_live s →
  ∃ s',
    Lifecycle.onModuleDestroy rt s = Ok tt s'
    ∧ bridges s' = ∅
    ∧ (∀ c a b, find_bridge c s = Some (a, b) →
         (∀ t, reconnectTimeout b = Some t → timers s' !! t = None)
         ∧ (∀ w, ws b = Some w → close_throws rt w = false →
                 is_open w s' = false))
    ∧ (∃ new, trace s' = trace s ++ new ∧ Forall closing_only new)
    ∧ (∀ c fuel es s'',
         Forall (fun e => ¬ creates c e) es →
         exec rt fuel es s' = Some s'' →
         absent_since c (trace s') s'').
Proof.
  intros Hlive.
  destruct (close_each_summary rt (Lifecycle.forEach_order s) s Hlive)
    as (s' & Hrun & Hb & _ & _ & _ & Hc & Htr).
  assert (Hempty : ∀ c, bridges s' !! c = None).
  { intros c. rewrite Hb.
    destruct (decide (c ∈ Lifecycle.forEach_order s)) as [Hin | Hout];
      [reflexivity |].
    destruct (bridges s !! c) as [a |] eqn:Ha; [| reflexivity].
    exfalso. apply Hout, forEach_order_complete. eauto. }
  exists s'. split; [exact Hrun |].
  split; [apply map_eq; intros c; rewrite Hempty, lookup_empty; reflexivity |].
  split; [| split; [exact Htr |]].
  - intros c a b Hf. apply (Hc c a b); [| exact Hf].
    apply forEach_order_complete. apply find_bridge_heap in Hf as [Hf _]. eauto.
  - intros c fuel es s'' Hes Hex.
    apply (exec_keeps_absent rt c (trace s') fuel es s' s'' Hes); [| exact Hex].
    split; [apply Hempty |].
    exists []. rewrite app_nil_r. split; [reflexivity | constructor].
Qed.

Lemma onModuleDestroy_closes_every_bridge_witness :
  let s := after [CreateBridge "b" 1; CreateBridge "a" 2; SocketOpen 1;
                  SocketClose 1; CreateBridge "b" 3] demo_start in
  Lifecycle.forEach_order s = ["a"; "b"]
  ∧ ∃ s', Lifecycle.onModuleDestroy demo_runtime s = Ok tt s'
          ∧ bridges s' = ∅
          ∧ trace s' = trace s ++ [TimerCleared 0; SocketClosed 2].
Proof.
  intros s.
  assert (Hlive : registered_live s).
  { apply (reachable_registered_live demo_runtime (Some demo_identity) 1000).
    exists 8, [CreateBridge "b" 1; CreateBridge "a" 2; SocketOpen 1;
               SocketClose 1; CreateBridge "b" 3].
    vm_compute. reflexivity. }
  split; [vm_compute; reflexivity |].
  destruct (onModuleDestroy_closes_every_bridge demo_runtime s Hlive)
    as (s' & Hrun & Hempty & _).
  exists s'. split; [exact Hrun | split; [exact Hempty |]].
  assert (Hs' : Lifecycle.onModuleDestroy demo_runtime s
                = Ok tt (log_all [TimerCleared 0; SocketClosed 2]
                           (set_bridges (fun _ => ∅)
                              (set_sockets (alter closing 2%nat)
                                 (set_timers (delete 0%nat) s)))))
    by (vm_compute; reflexivity).
  rewrite Hs' in Hrun. injection Hrun as <-. vm_compute. reflexivity.
Defined.

(* ===================================================================== *)
(** ** Allowed origins *)
(* ===================================================================== *)





(** X17.  [bootstrap] trims the comma-separated entries of
    [ALLOWED_ORIGINS] and drops the empty ones: the origins it hands to the
    CORS middleware are never empty strings, each is a trimmed piece of the
    setting, and when no piece is left (the setting is missing, empty or
    all blanks and commas) every origin is allowed. *)
Theorem http_origin_drops_blank_entries (ALLOWED_ORIGINS : option string) :
  let pieces := Text.split_on ","
                  match ALLOWED_ORIGINS with
                  | Some v => v
                  | None => ""
                  end in
  (Cors.http_origin ALLOWED_ORIGINS = Cors.Reflect
   ↔ Forall (fun piece => Text.trim piece = "") pieces)
  ∧ (∀ l, Cors.http_origin ALLOWED_ORIGINS = Cors.Origins l →
          l ≠ []
          ∧ Forall (fun o => o ≠ "" ∧ ∃ piece, In piece pieces ∧ o = Text.trim piece) l)
  ∧ Cors.http_origin None = Cors.Reflect
  ∧ Cors.http_origin (Some "") = Cors.Reflect
  ∧ Cors.http_origin (Some " , ,") = Cors.Reflect.
Proof.
  intros pieces. split; [| split; [| repeat split; vm_compute; reflexivity]].
  - unfold Cors.http_origin, Cors.allowedOrigins. fold pieces.
    induction pieces as [| p ps IH]; cbn [List.map List.filter].
    + split; [constructor | reflexivity].
    + destruct (String.eqb_spec (Text.trim p) "") as [Hp | Hp]; cbn [negb].
      * rewrite IH. split; [intros H; constructor; assumption |].
        intros H. inversion H; assumption.
      * split; [discriminate |]. intros H. inversion H; contradiction.
  - intros l. unfold Cors.http_origin, Cors.allowedOrigins. fold pieces.
    set (kept := List.filter _ _).
    assert (Hkept : Forall (fun o => o ≠ "" ∧ ∃ piece, In piece pieces ∧ o = Text.trim piece)
                      kept).
    { apply List.Forall_forall. intros o Ho. apply filter_In in Ho as [Hin Hne].
      apply in_map_iff in Hin as (piece & <- & Hpiece). split; [| eauto].
      intros E. rewrite E in Hne. discriminate. }
    destruct kept as [| o os]; [discriminate |].
    intros [= <-]. split; [discriminate | exact Hkept].
Qed.

(* ===================================================================== *)
(** ** The registry, the callbacks and the session key *)
(* ===================================================================== *)

(** X18.  Only [createBridge] and [closeBridge] change the registry.
    [sendMessage] and every event of the sockets and timers leave the
    registered bridges, their callbacks and their session keys as they
    are; they clear no timer and close no socket; every notification they
    make goes to the callback registered under the client id the socket was
    made for, and they make sockets and timers for registered clients
    only. *)
Theorem listeners_keep_registry (rt : Runtime) (fuel : nat) (es : list event)
    (s s' : state) :
  Forall keeps_registry es →
  exec rt fuel es s = Some s' →
  bridges s' = bridges s
  ∧ next_addr s' = next_addr s
  ∧ (∀ c a b', find_bridge c s' = Some (a, b') →
               ∃ b, find_bridge c s = Some (a, b)
                    ∧ onMessage b = onMessage b'
                    ∧ sessionKey b = sessionKey b')
  ∧ ∃ new, trace s' = trace s ++ new ∧ Forall (within s) new.
Proof.
  intros Hes Hex. pose proof (settled_exec rt fuel es s s' Hes Hex) as Hs.
  pose proof Hs as (Hb & _ & Hn & _ & Hsk & Htr).
  split; [exact Hb | split; [exact Hn | split; [| exact Htr]]].
  intros c a b' Hf.
  destruct (settled_find _ _ _ _ _ Hs Hf) as (b & Hf0 & Hcb).
  exists b. split; [exact Hf0 | split; [exact Hcb |]].
  apply find_bridge_heap in Hf as [_ Ha]. apply find_bridge_heap in Hf0 as [_ Ha0].
  specialize (Hsk a). rewrite Ha, Ha0 in Hsk. simpl in Hsk. congruence.
Qed.

Lemma listeners_keep_registry_witness :
  bridges demo_authenticated = bridges demo_connected
  ∧ ∃ new, trace demo_authenticated = trace demo_connected ++ new
           ∧ Forall (within demo_connected) new.
Proof.
  assert (Hrun : exec demo_runtime 8
                   [SocketMessage 0 (Some (challenge_frame "abc" 1000));
                    SocketMessage 0 (Some hello_ok_frame)] demo_connected
                 = Some demo_authenticated) by (vm_compute; reflexivity).
  assert (Hes : Forall keeps_registry
                  [SocketMessage 0 (Some (challenge_frame "abc" 1000));
                   SocketMessage 0 (Some hello_ok_frame)])
    by (repeat constructor).
  destruct (listeners_keep_registry demo_runtime 8 _ demo_connected
              demo_authenticated Hes Hrun)
    as (Hb & _ & _ & Htr).
  split; [exact Hb | exact Htr].
Defined.

(** Nothing assigns [sessionKey]. *)
Lemma no_session_key_run (rt : Runtime) (fuel : nat) (e : event) (s s' : state) :
  registered_live s →
  (∀ a b, heap s !! a = Some b → sessionKey b = None) →
  final (run rt fuel e s) = Some s' →
  ∀ a b, heap s' !! a = Some b → sessionKey b = None.
Proof.
  intros Hlive Hnone Hrun a b Ha.
  assert (Hsettled : keeps_registry e → sessionKey b = None).
  { intros He.
    pose proof (keeps_final _ _ s s' (settled_run rt s fuel e He)
                  (settled_refl s) Hrun) as (_ & _ & _ & _ & Hsk & _).
    specialize (Hsk a). rewrite Ha in Hsk. simpl in Hsk.
    destruct (heap s !! a) as [b0 |] eqn:Ha0; [| discriminate].
    simpl in Hsk. rewrite (Hnone a b0 Ha0) in Hsk. congruence. }
  destruct e as [c cb | c m | c | w | w data | w | w | w | t | ms];
    try (apply Hsettled; exact I); simpl in Hrun.
  - destruct (createBridge_registers rt c cb s Hlive)
      as (s1 & b1 & Hrun1 & _ & Hh & _ & _ & _ & _ & _ & Hsk & _).
    rewrite Hrun1 in Hrun. injection Hrun as <-. rewrite Hh in Ha.
    destruct (decide (next_addr s = a)) as [<- | Hne].
    + rewrite lookup_insert_eq in Ha. congruence.
    + rewrite lookup_insert_ne in Ha by exact Hne. apply (Hnone a b Ha).
  - destruct (closeBridge_effects rt c s Hlive) as (s1 & Hrun1 & _ & Hh & _).
    rewrite Hrun1 in Hrun. injection Hrun as <-. rewrite Hh in Ha.
    apply (Hnone a b Ha).
Qed.

Lemma no_session_key_exec (rt : Runtime) (fuel : nat) (es : list event) :
  ∀ s s',
    registered_live s →
    (∀ a b, heap s !! a = Some b → sessionKey b = None) →
    exec rt fuel es s = Some s' →
    ∀ a b, heap s' !! a = Some b → sessionKey b = None.
Proof.
  induction es as [| e es IH]; intros s s' Hlive Hnone Hex; simpl in Hex.
  - injection Hex as <-. exact Hnone.
  - destruct (enabled e s); [| discriminate].
    destruct (final (run rt fuel e s)) as [s1 |] eqn:Hf; [| discriminate].
    apply (IH s1 s'); [| | exact Hex].
    + eapply keeps_final;
        [apply run_keeps_any, registered_live_stable | exact Hlive | exact Hf].
    + apply (no_session_key_run rt fuel e s s1 Hlive Hnone Hf).
Qed.

(** X19.  No bridge ever has a session key of its own: the field is read
    by [convertToGatewayFormat] and assigned nowhere, so in every reachable
    state the requests made for every client, chat messages and history
    alike, carry the session key [main]. *)
Theorem every_request_uses_session_main (rt : Runtime)
    (identity : option DeviceIdentity) (now : Z) (s : state) (c : string)
    (message : jsval) :
  reachable rt identity now s →
  non_null message →
  session_key_of (find_bridge c s) = JStr "main"
  ∧ convertToGatewayFormat rt c message s
    = Ok (translate (JStr "main") (uuidv4 rt (uuids s)) message)
         (if takes_id message then set_uuids (S (uuids s)) s else s).
Proof.
  intros (fuel & es & Hex) Hm.
  assert (Hkey : session_key_of (find_bridge c s) = JStr "main").
  { destruct (find_bridge c s) as [[a b] |] eqn:Hf; [| reflexivity].
    apply find_bridge_heap in Hf as [_ Ha].
    assert (Hnone : sessionKey b = None).
    { apply (no_session_key_exec rt fuel es (initial identity now) s) with (a := a);
        try assumption.
      - intros c' a' Hc'. simpl in Hc'. rewrite lookup_empty in Hc'. discriminate.
      - intros a' b' Ha'. simpl in Ha'. rewrite lookup_empty in Ha'. discriminate. }
    unfold session_key_of. rewrite Hnone. reflexivity. }
  split; [exact Hkey |].
  rewrite (convertToGatewayFormat_translate rt c message s Hm), Hkey. reflexivity.
Qed.

Lemma every_request_uses_session_main_witness :
  convertToGatewayFormat demo_runtime "c1" (chat_message "hello") demo_authenticated
  = Ok (agent_request "uuid-1" (JStr "hello") (JStr "main"))
       (set_uuids 2 demo_authenticated).
Proof.
  assert (Hreach : reachable demo_runtime (Some demo_identity) 1000 demo_authenticated).
  { exists 8, [CreateBridge "c1" 7; SocketOpen 0;
               SocketMessage 0 (Some (challenge_frame "abc" 1000));
               SocketMessage 0 (Some hello_ok_frame)].
    vm_compute. reflexivity. }
  rewrite (proj2 (every_request_uses_session_main demo_runtime (Some demo_identity)
                    1000 demo_authenticated "c1" (chat_message "hello") Hreach
                    ltac:(discriminate))).
  vm_compute. reflexivity.
Defined.

(* ===================================================================== *)
(** ** Edges of the handshake and of the queue *)
(* ===================================================================== *)

Section Edges.

Context (rt : Runtime).

(** On a bridge that can send at once, [sendMessage] throws for a message
    that is [null] or [undefined], before anything is sent. *)
Lemma sendMessage_null (clientId : string) (poison : jsval) (s : state)
    (a : nat) (b : BridgeConnection) :
  find_bridge clientId s = Some (a, b) →
  ready b s = true →
  get poison "type" = None →
  sendMessage rt clientId poison s = Raise s.
Proof.
  intros Hf Hr Hp. unfold ready in Hr. apply andb_true_iff in Hr as [Ha Ho].
  unfold sendMessage, bind at 1, gets. rewrite Hf, Ha. cbn [negb].
  unfold bind at 1, gets. rewrite Ho. cbn [negb].
  unfold bind at 1, convertToGatewayFormat, bind at 1, gets.
  unfold bind, prop. rewrite Hp. reflexivity.
Qed.

(** The drain loop stops at such a message: the messages before it are
    sent, it is taken off the queue, and the loop throws. *)
Lemma drain_stops_at_null (clientId : string) (a w : nat) (poison : jsval)
    (q2 : list jsval) (q1 : list jsval) :
  ∀ (fuel : nat) (s : state) (b : BridgeConnection),
    find_bridge clientId s = Some (a, b) →
    authenticated b = true →
    ws b = Some w →
    is_open w s = true →
    messageQueue b = q1 ++ poison :: q2 →
    Forall non_null q1 →
    get poison "type" = None →
    (length q1 < fuel)%nat →
    drain rt fuel clientId a s
    = Raise (log_all
               (List.map (Sent w)
                  (translate_all rt (session_key_of (Some (a, b))) (uuids s) q1))
               (set_uuids (ids_after (uuids s) q1)
                  (put a (with_messageQueue q2 b) s))).
Proof.
  induction q1 as [| m q1 IH]; intros fuel s b Hf Ha Hw Ho Hq Hnn Hp Hfuel;
    (destruct fuel as [| fuel]; [simpl in Hfuel; lia |]);
    destruct (find_bridge_heap _ _ _ _ Hf) as [_ Hb];
    simpl drain; unfold bind at 1, gets; rewrite Hb, Hq; cbn [app];
    unfold bind at 1; rewrite (update_found a _ s b Hb).
  - set (b1 := with_messageQueue q2 b).
    assert (Hf1 : find_bridge clientId (put a b1 s) = Some (a, b1))
      by (apply (find_bridge_put _ _ _ _ _ Hf)).
    unfold bind at 1.
    rewrite (sendMessage_null clientId poison (put a b1 s) a b1 Hf1); [| | exact Hp].
    + subst b1. destruct s; reflexivity.
    + unfold ready. change (authenticated b1) with (authenticated b).
      change (ws b1) with (ws b). rewrite Ha, Hw. exact Ho.
  - inversion Hnn as [| ? ? Hm Hrest]; subst.
    set (b1 := with_messageQueue (q1 ++ poison :: q2) b).
    assert (Hf1 : find_bridge clientId (put a b1 s) = Some (a, b1))
      by (apply (find_bridge_put _ _ _ _ _ Hf)).
    unfold bind at 1.
    rewrite (sendMessage_live rt _ m (put a b1 s) a w b1 Hf1 Ha Hw Ho Hm).
    set (e := Sent w _).
    destruct (takes_id m) eqn:Hid;
      (rewrite (IH fuel _ b1); try assumption; try reflexivity;
       [| simpl in Hfuel; lia]);
      simpl; rewrite Hid; do 2 f_equal;
      unfold put, set_heap, set_uuids, log_effect; simpl;
      rewrite insert_insert_eq; reflexivity.
Qed.

End Edges.

(** X20.  A message that is [null] or [undefined] is accepted while the
    bridge cannot send at once (it is queued like any other), thrown back
    to the caller when it can, and fatal to the flush: on handshake success
    the messages queued before it are sent, it is taken off the queue, and
    the exception it raises ends the handler inside the message listener,
    which swallows it.  The bridge is left authenticated with the messages
    that were queued behind it still in the queue, and the client is not
    told that the gateway is connected. *)
Theorem null_message_aborts_flush (rt : Runtime) (fuel wk w : nat)
    (k : WebSocket) (message poison : jsval) (q1 q2 : list jsval) (s : state)
    (a : nat) (b : BridgeConnection) :
  sockets s !! wk = Some k →
  find_bridge (ws_clientId k) s = Some (a, b) →
  ws b = Some w →
  is_open w s = true →
  is_handshake_success message →
  get poison "type" = None →
  Forall non_null q1 →
  (length q1 < fuel)%nat →
  let clientId := ws_clientId k in
  (ready b s = false →
   sendMessage rt clientId poison s
   = Ok tt (put a (with_messageQueue (messageQueue b ++ [poison]) b) s))
  ∧ (ready b s = true → sendMessage rt clientId poison s = Raise s)
  ∧ (messageQueue b = q1 ++ poison :: q2 →
     ∃ s', run rt fuel (SocketMessage wk (Some message)) s = Ok tt s'
           ∧ trace s'
             = trace s
               ++ List.map (Sent w)
                    (translate_all rt (session_key_of (Some (a, b))) (uuids s) q1)
           ∧ find_bridge clientId s'
             = Some (a, with_authenticated true (with_messageQueue q2 b))).
Proof.
  intros Hk Hf Hw Ho Hhello Hp Hnn Hfuel clientId. subst clientId.
  split; [apply (sendMessage_holds rt _ poison s a b Hf) |].
  split; [intros Hr; apply (sendMessage_null rt _ poison s a b Hf Hr Hp) |].
  intros Hq.
  destruct (find_bridge_heap _ _ _ _ Hf) as [_ Hb].
  rewrite (run_handshake_success rt fuel wk k message s a b Hk Hf Hhello).
  unfold try_catch, handleConnectSuccess, bind at 1, gets.
  rewrite Hf. unfold bind at 1. rewrite (update_found a _ s b Hb).
  unfold bind at 1.
  rewrite (drain_stops_at_null rt (ws_clientId k) a w poison q2 q1 fuel
             (put a (with_authenticated true b) s) (with_authenticated true b));
    try assumption; try reflexivity;
    [| apply (find_bridge_put _ _ _ _ _ Hf)].
  eexists. split; [reflexivity |]. split.
  - rewrite trace_log_all. reflexivity.
  - unfold find_bridge.
    assert (Hsame : ∀ es u s1, bridges (log_all es (set_uuids u s1)) = bridges s1
                               ∧ heap (log_all es (set_uuids u s1)) = heap s1).
    { induction es as [| e es IH]; intros u s1; [split; reflexivity |].
      apply (IH u (log_effect e s1)). }
    destruct (Hsame (List.map (Sent w)
                       (translate_all rt
                          (session_key_of (Some (a, with_authenticated true b)))
                          (uuids (put a (with_authenticated true b) s)) q1))
                    (ids_after (uuids (put a (with_authenticated true b) s)) q1)
                    (put a (with_messageQueue q2 (with_authenticated true b))
                       (put a (with_authenticated true b) s)))
      as [-> ->].
    simpl. apply find_bridge_heap in Hf as [-> _].
    rewrite lookup_insert_eq. reflexivity.
Qed.

Lemma null_message_aborts_flush_witness :
  let b := mkBridge (Some 0%nat) 7 None false [] None in
  let s := put 0 (with_messageQueue [chat_message "one"; JNull; chat_message "two"] b)
             demo_connected in
  ∃ s', run demo_runtime 3 (SocketMessage 0 (Some hello_ok_frame)) s = Ok tt s'
        ∧ trace s'
          = trace demo_connected
            ++ [Sent 0 (agent_request "uuid-0" (JStr "one") (JStr "main"))]
        ∧ find_bridge "c1" s'
          = Some (0%nat, mkBridge (Some 0%nat) 7 None true [chat_message "two"] None).
Proof.
  intros b s.
  assert (Hk : sockets s !! 0%nat = Some (mkSocket "c1" 0 OPEN))
    by (vm_compute; reflexivity).
  assert (Hf : find_bridge "c1" s
               = Some (0%nat, with_messageQueue
                                [chat_message "one"; JNull; chat_message "two"] b))
    by (vm_compute; reflexivity).
  assert (Ho : is_open 0 s = true) by (vm_compute; reflexivity).
  assert (Hhello : is_handshake_success hello_ok_frame)
    by (repeat split; reflexivity).
  destruct (proj2 (proj2 (null_message_aborts_flush demo_runtime 3 0 0
                            (mkSocket "c1" 0 OPEN) hello_ok_frame JNull
                            [chat_message "one"] [chat_message "two"] s 0 _
                            Hk Hf eq_refl Ho Hhello eq_refl
                            ltac:(repeat constructor; discriminate)
                            ltac:(simpl; lia))) eq_refl)
    as (s' & Hrun & Htr & Hf').
  exists s'. split; [exact Hrun | split; [| exact Hf']].
  rewrite Htr. vm_compute. reflexivity.
Defined.

(** X21.  A challenge that cannot be answered is dropped without a trace.
    When the device identity is not yet generated, when the bridge has no
    socket, when the payload is [null] (reading its nonce throws, inside
    the message listener) or when signing throws, the state does not
    change; when the request is built but the bridge's socket is not open,
    only an identifier from [uuidv4] is used up.  In every case nothing is
    sent, no callback is invoked and nothing is scheduled: the handshake
    waits for the gateway to send another challenge. *)
Theorem challenge_without_answer (rt : Runtime) (fuel w : nat) (k : WebSocket)
    (message : jsval) (s : state) (a : nat) (b : BridgeConnection) :
  sockets s !! w = Some k →
  find_bridge (ws_clientId k) s = Some (a, b) →
  is_str (get_opt message "type") "event" = true →
  is_str (get_opt message "event") "connect.challenge" = true →
  let payload := get_opt message "payload" in
  let outcome := run rt fuel (SocketMessage w (Some message)) s in
  (deviceIdentity s = None ∨ ws b = None → outcome = Ok tt s)
  ∧ (∀ d wb,
       deviceIdentity s = Some d → ws b = Some wb →
       (get payload "nonce" = None → outcome = Ok tt s)
       ∧ (∀ nonce,
            get payload "nonce" = Some nonce →
            let signed := ed25519_sign rt (privateKey d)
                            (signaturePayload rt d (clock s) nonce) in
            (signed = None → outcome = Ok tt s)
            ∧ (is_Some signed → is_open wb s = false →
               outcome = Ok tt (set_uuids (S (uuids s)) s)))).
Proof.
  intros Hk Hf Hty Hev payload outcome.
  assert (Hrun : outcome
                 = try_catch (handleConnectChallenge rt (ws_clientId k) payload)
                             (ret tt) s).
  { unfold outcome. rewrite (run_socket_message rt fuel w k message s Hk).
    unfold try_catch.
    rewrite (handleGatewayMessage_routes rt fuel _ _ _ _ _ Hf
               (is_str_get_opt_non_null _ _ _ Hty)).
    cbv zeta. rewrite Hty, Hev. reflexivity. }
  assert (Hstart : ∀ rest : option (nat * BridgeConnection) →
                           option DeviceIdentity → M unit,
            (do found <- gets (find_bridge (ws_clientId k));
             do identity <- gets deviceIdentity;
             rest found identity) s
            = rest (Some (a, b)) (deviceIdentity s) s).
  { intros rest. unfold bind, gets. rewrite Hf. reflexivity. }
  assert (Hgo : outcome
                = match deviceIdentity s with
                  | Some d =>
                      match ws b with
                      | Some _ =>
                          match get payload "nonce" with
                          | Some nonce =>
                              try_catch
                                (try_catch
                                   (do signature <-
                                      signMessage rt
                                        (signaturePayload rt d (clock s) nonce);
                                    do id <- fresh_uuid rt;
                                    sendRaw (ws_clientId k)
                                      (connectRequest rt d id signature (clock s)
                                         nonce))
                                   (ret tt))
                                (ret tt) s
                          | None => Ok tt s
                          end
                      | None => Ok tt s
                      end
                  | None => Ok tt s
                  end).
  { rewrite Hrun. unfold try_catch at 1, handleConnectChallenge.
    rewrite Hstart.
    destruct (deviceIdentity s) as [d |]; [| reflexivity].
    destruct (ws b) as [wb |]; [| reflexivity].
    unfold bind at 1, gets. unfold bind at 1, prop.
    destruct (get payload "nonce") as [nonce |]; reflexivity. }
  clear Hstart Hrun. split.
  - intros [Hid | Hws]; rewrite Hgo.
    + rewrite Hid. reflexivity.
    + rewrite Hws. destruct (deviceIdentity s); reflexivity.
  - intros d wb Hid Hws. rewrite Hid, Hws in Hgo. split.
    + intros Hn. rewrite Hgo, Hn. reflexivity.
    + intros nonce Hn signed. rewrite Hn in Hgo.
      unfold try_catch, bind at 1, signMessage, bind at 1, gets in Hgo.
      rewrite Hid in Hgo. fold signed in Hgo. split.
      * intros Hs. rewrite Hgo, Hs. reflexivity.
      * intros [sig Hs] Ho. rewrite Hgo, Hs.
        unfold ret at 1, bind at 1, fresh_uuid, bind, gets, modify, ret, sendRaw,
          bind, gets.
        assert (Hf' : find_bridge (ws_clientId k) (set_uuids (S (uuids s)) s)
                      = Some (a, b)) by exact Hf.
        rewrite Hf', Hws.
        assert (Ho' : is_open wb (set_uuids (S (uuids s)) s) = false) by exact Ho.
        rewrite Ho'. reflexivity.
Qed.

Lemma challenge_without_answer_witness :
  let s := after [CreateBridge "c1" 7; SocketOpen 0] (initial None 1000) in
  run demo_runtime 1 (SocketMessage 0 (Some (challenge_frame "abc" 1000))) s
  = Ok tt s.
Proof.
  intros s.
  assert (Hk : sockets s !! 0%nat = Some (mkSocket "c1" 0 OPEN))
    by (vm_compute; reflexivity).
  assert (Hf : find_bridge "c1" s
               = Some (0%nat, mkBridge (Some 0%nat) 7 None false [] None))
    by (vm_compute; reflexivity).
  apply (proj1 (challenge_without_answer demo_runtime 1 0 (mkSocket "c1" 0 OPEN)
                  (challenge_frame "abc" 1000) s 0 _ Hk Hf eq_refl eq_refl)).
  left. vm_compute. reflexivity.
Defined.

(** [createBridge], in full. *)
Lemma createBridge_summary (rt : Runtime) (c : string) (cb : nat) (s : state) :
  registered_live s →
  ∃ s',
    createBridge rt c cb s = Ok tt s'
    ∧ find_bridge c s'
      = Some (next_addr s,
              mkBridge (if socket_ctor_ok rt then Some (next_socket s) else None)
                       cb None false [] None)
    ∧ (∀ c', c' ≠ c → bridges s' !! c' = bridges s !! c')
    ∧ (∀ a0, a0 ≠ next_addr s → heap s' !! a0 = heap s !! a0)
    ∧ (∀ t, timers s !! t = None → timers s' !! t = None)
    ∧ (∀ a0 b0, find_bridge c s = Some (a0, b0) →
         (∀ t, reconnectTimeout b0 = Some t → timers s' !! t = None)
         ∧ (∀ w, ws b0 = Some w → close_throws rt w = false →
                 is_open w s' = false))
    ∧ ∃ closed, Forall closing_only closed
                ∧ trace s'
                  = trace s ++ closed
                    ++ (if socket_ctor_ok rt
                        then [SocketCreated (next_socket s) c] else []).
Proof.
  intros Hlive. unfold createBridge, bind at 1, gets.
  assert (Hclosed : ∃ s1,
             (if has_bridge c s then closeBridge rt c else ret tt) s = Ok tt s1
             ∧ delete c (bridges s1) = delete c (bridges s)
             ∧ heap s1 = heap s
             ∧ next_addr s1 = next_addr s
             ∧ next_socket s1 = next_socket s
             ∧ (∀ t, timers s !! t = None → timers s1 !! t = None)
             ∧ (∀ a0 b0, find_bridge c s = Some (a0, b0) →
                  (∀ t, reconnectTimeout b0 = Some t → timers s1 !! t = None)
                  ∧ (∀ w, ws b0 = Some w → close_throws rt w = false →
                          is_open w s1 = false))
             ∧ ∃ closed, trace s1 = trace s ++ closed ∧ Forall closing_only closed).
  { destruct (has_bridge c s) eqn:Hhas.
    - destruct (closeBridge_summary rt c s Hlive)
        as (s1 & Hrun & _ & Hb & Hh & Ht & _ & Hold & Htr).
      destruct (closeBridge_effects rt c s Hlive)
        as (s1' & Hrun' & _ & _ & Hn & Hns & _).
      rewrite Hrun in Hrun'. injection Hrun' as <-.
      exists s1. rewrite Hb, delete_delete_eq. auto 10.
    - exists s. repeat (split; [reflexivity |]). split; [auto |]. split.
      + intros a0 b0 Hf0. apply find_bridge_heap in Hf0 as [Hc _].
        unfold has_bridge in Hhas. apply bool_decide_eq_false in Hhas.
        exfalso. apply Hhas. eauto.
      + exists []. rewrite app_nil_r. split; [reflexivity | constructor]. }
  destruct Hclosed
    as (s1 & Hrun1 & Hb1 & Hh1 & Hn1 & Hns1 & Ht1 & Hold1 & closed & Htr1 & Hcl).
  unfold bind at 1. rewrite Hrun1. unfold bind at 1.
  unfold install, connectToGateway, try_catch, new_socket, update, emit,
    bind, gets, modify, find_bridge.
  cbn [bridges heap set_bridges set_heap set_next_addr].
  rewrite !lookup_insert_eq.
  assert (Hopen : ∀ w w2 s2, is_open w s2 = false →
            is_open w (set_sockets (insert w2 (mkSocket c (next_addr s1) CONNECTING)) s2)
            = false).
  { intros w w2 s2. unfold is_open. simpl.
    destruct (decide (w2 = w)) as [-> | Hne].
    - rewrite lookup_insert_eq. reflexivity.
    - rewrite lookup_insert_ne by exact Hne. auto. }
  destruct (socket_ctor_ok rt); simpl.
  - eexists. split; [reflexivity |]. simpl.
    split; [rewrite !lookup_insert_eq, lookup_alter, decide_True by reflexivity;
            rewrite lookup_insert_eq; simpl; rewrite Hn1, Hns1; reflexivity |].
    split; [intros c' Hne; rewrite lookup_insert_ne by auto;
            rewrite <- (lookup_delete_ne (bridges s1) c c') by auto;
            rewrite Hb1; apply lookup_delete_ne; auto |].
    split; [intros a0 Hne; rewrite lookup_alter, decide_False by (rewrite Hn1; auto);
            rewrite lookup_insert_ne by (rewrite Hn1; auto); rewrite Hh1;
            reflexivity |].
    split; [exact Ht1 |].
    split.
    + intros a0 b0 Hf0. destruct (Hold1 a0 b0 Hf0) as [Htimer Hsock].
      split; [exact Htimer |].
      intros w Hw Hno. specialize (Hsock w Hw Hno).
      revert Hsock. unfold is_open. simpl.
      destruct (decide (next_socket s1 = w)) as [-> | Hne].
      * rewrite lookup_insert_eq. reflexivity.
      * rewrite lookup_insert_ne by exact Hne. auto.
    + exists closed. split; [exact Hcl |].
      rewrite Htr1, Hns1, <- app_assoc. reflexivity.
  - eexists. split; [reflexivity |]. simpl.
    split; [rewrite !lookup_insert_eq, Hn1; reflexivity |].
    split; [intros c' Hne; rewrite lookup_insert_ne by auto;
            rewrite <- (lookup_delete_ne (bridges s1) c c') by auto;
            rewrite Hb1; apply lookup_delete_ne; auto |].
    split; [intros a0 Hne; rewrite lookup_insert_ne by (rewrite Hn1; auto);
            rewrite Hh1; reflexivity |].
    split; [exact Ht1 | split; [exact Hold1 |]].
    exists closed. split; [exact Hcl |]. rewrite Htr1, app_nil_r. reflexivity.
Qed.

(** X22.  [createBridge] never throws and always starts afresh.  The bridge
    it registers is a new object: not authenticated, its queue empty, no
    timer, its socket the one just made, or none when [new WebSocket]
    throws (the exception is swallowed and no retry is scheduled).  A
    bridge registered under the id before is closed first, its timer
    cancelled and its socket closed, and the object is left as it was: the
    messages in its queue are not carried over.  Other clients are not
    touched and no callback is invoked. *)
Theorem createBridge_starts_afresh (rt : Runtime) (c : string) (cb : nat)
    (s : state) :
  registered_live s →
  ∃ s',
    createBridge rt c cb s = Ok tt s'
    ∧ find_bridge c s'
      = Some (next_addr s,
              mkBridge (if socket_ctor_ok rt then Some (next_socket s) else None)
                       cb None false [] None)
    ∧ (∀ a0 b0, find_bridge c s = Some (a0, b0) →
         heap s' !! a0 = Some b0
         ∧ a0 ≠ next_addr s
         ∧ (∀ t, reconnectTimeout b0 = Some t → timers s' !! t = None)
         ∧ (∀ w, ws b0 = Some w → close_throws rt w = false →
                 is_open w s' = false))
    ∧ (∀ c', c' ≠ c → find_bridge c' s' = find_bridge c' s)
    ∧ ∃ closed, Forall closing_only closed
                ∧ trace s'
                  = trace s ++ closed
                    ++ (if socket_ctor_ok rt
                        then [SocketCreated (next_socket s) c] else []).
Proof.
  intros Hlive.
  destruct (createBridge_summary rt c cb s Hlive)
    as (s' & Hrun & Hnew & Hothers & Hheap & _ & Hold & Htr).
  exists s'. split; [exact Hrun | split; [exact Hnew |]].
  split; [| split; [| exact Htr]].
  - intros a0 b0 Hf0. pose proof (find_bridge_heap _ _ _ _ Hf0) as [Hc Ha].
    destruct (Hlive _ _ Hc) as (_ & Hlt & _).
    assert (Hne : a0 ≠ next_addr s) by lia.
    split; [rewrite (Hheap a0 Hne); exact Ha | split; [exact Hne |]].
    apply (Hold a0 b0 Hf0).
  - intros c' Hne. unfold find_bridge. rewrite (Hothers c' Hne).
    destruct (bridges s !! c') as [a' |] eqn:Hc'; [| reflexivity].
    destruct (Hlive _ _ Hc') as (_ & Hlt & _).
    rewrite (Hheap a') by lia. reflexivity.
Qed.

Lemma createBridge_starts_afresh_witness :
  let s := after [SendMessage "c1" (chat_message "lost")] demo_connected in
  ∃ s', createBridge demo_runtime "c1" 8 s = Ok tt s'
        ∧ find_bridge "c1" s = Some (0%nat, mkBridge (Some 0%nat) 7 None false
                                              [chat_message "lost"] None)
        ∧ find_bridge "c1" s' = Some (1%nat, mkBridge (Some 1%nat) 8 None false [] None)
        ∧ is_open 0 s' = false.
Proof.
  intros s.
  assert (Hlive : registered_live s).
  { apply (reachable_registered_live demo_runtime (Some demo_identity) 1000).
    exists 8, [CreateBridge "c1" 7; SocketOpen 0;
               SendMessage "c1" (chat_message "lost")].
    vm_compute. reflexivity. }
  assert (Hf : find_bridge "c1" s
               = Some (0%nat, mkBridge (Some 0%nat) 7 None false
                                [chat_message "lost"] None))
    by (vm_compute; reflexivity).
  destruct (createBridge_starts_afresh demo_runtime "c1" 8 s Hlive)
    as (s' & Hrun & Hnew & Hold & _).
  exists s'. split; [exact Hrun | split; [exact Hf | split]].
  - rewrite Hnew. vm_compute. reflexivity.
  - apply (proj2 (proj2 (proj2 (Hold _ _ Hf))) 0%nat); reflexivity.
Defined.

(* ===================================================================== *)
(** ** An outage: close, queue, reconnect, flush *)
(* ===================================================================== *)

Section Outage.

Context (rt : Runtime).

Lemma exec_app (fuel : nat) (es1 es2 : list event) (s : state) :
  exec rt fuel (es1 ++ es2) s
  = match exec rt fuel es1 s with
    | Some s1 => exec rt fuel es2 s1
    | None => None
    end.
Proof.
  revert s. induction es1 as [| e es1 IH]; intros s; [reflexivity |].
  cbn [app exec]. destruct (enabled e s); [| reflexivity].
  destruct (final (run rt fuel e s)) as [s1 |]; [apply IH | reflexivity].
Qed.

Lemma exec_step (fuel : nat) (e : event) (es : list event) (s s1 : state) :
  enabled e s = true →
  run rt fuel e s = Ok tt s1 →
  exec rt fuel (e :: es) s = exec rt fuel es s1.
Proof. intros He Hr. cbn [exec]. rewrite He, Hr. reflexivity. Qed.

Lemma put_put (a : nat) (b b' : BridgeConnection) (s : state) :
  put a b' (put a b s) = put a b' s.
Proof. unfold put, set_heap. simpl. rewrite insert_insert_eq. reflexivity. Qed.

(** Calls of [sendMessage] on a bridge that is not authenticated *)
Lemma exec_sends_queue (fuel : nat) (c : string) (a : nat) (ms : list jsval) :
  ∀ (s : state) (b : BridgeConnection),
    find_bridge c s = Some (a, b) →
    authenticated b = false →
    exec rt fuel (List.map (SendMessage c) ms) s
    = Some (put a (with_messageQueue (messageQueue b ++ ms) b) s).
Proof.
  induction ms as [| m ms IH]; intros s b Hf Ha.
  - cbn [List.map exec]. rewrite app_nil_r.
    rewrite put_same; [reflexivity |].
    destruct b; apply (find_bridge_heap _ _ _ _ Hf).
  - cbn [List.map exec enabled run].
    rewrite (sendMessage_appends rt c a m s b Hf Ha). cbn [final].
    rewrite (IH _ (with_messageQueue (messageQueue b ++ [m]) b)
               (find_bridge_put _ _ _ _ _ Hf) Ha).
    rewrite put_put. cbn [messageQueue with_messageQueue].
    rewrite <- app_assoc. reflexivity.
Qed.

(** The reconnect timer runs for a registered client. *)
Lemma run_timer_reconnects (fuel t : nat) (tm : Timer) (a : nat)
    (b : BridgeConnection) (s : state) :
  timers s !! t = Some tm →
  find_bridge (timer_clientId tm) s = Some (a, b) →
  socket_ctor_ok rt = true →
  run rt fuel (TimerFire t) s
  = Ok tt
      (put a (with_ws (Some (next_socket s)) b)
         (log_effect (SocketCreated (next_socket s) (timer_clientId tm))
            (set_sockets
               (insert (next_socket s) (mkSocket (timer_clientId tm) a CONNECTING))
               (set_next_socket (S (next_socket s))
                  (set_timers (delete t) s))))).
Proof.
  intros Ht Hf Hctor. pose proof (find_bridge_heap _ _ _ _ Hf) as [Hc Hb].
  cbn [run]. unfold bind at 1, gets. rewrite Ht.
  unfold bind at 1, modify, on_timer, bind at 1, gets.
  assert (Hhas : has_bridge (timer_clientId tm) (set_timers (delete t) s) = true).
  { unfold has_bridge. apply bool_decide_eq_true. simpl. rewrite Hc. eauto. }
  rewrite Hhas. unfold connectToGateway, bind at 1, gets.
  assert (Hf1 : find_bridge (timer_clientId tm) (set_timers (delete t) s)
                = Some (a, b)) by exact Hf.
  rewrite Hf1. unfold try_catch, bind at 1, new_socket. rewrite Hctor.
  unfold bind, gets, modify, emit, modify, ret.
  apply (update_found a (with_ws (Some (next_socket s)))). exact Hb.
Qed.

(** A socket opens. *)
Lemma run_socket_open (fuel w : nat) (k : WebSocket) (b : BridgeConnection)
    (s : state) :
  sockets s !! w = Some k →
  heap s !! ws_bridge k = Some b →
  run rt fuel (SocketOpen w) s
  = Ok tt (put (ws_bridge k) (with_ws (Some w) b)
             (set_sockets (alter (with_readyState OPEN) w) s)).
Proof.
  intros Hk Hb. cbn [run]. unfold bind at 1, gets. rewrite Hk.
  unfold bind, set_readyState, modify, on_open.
  apply (update_found (ws_bridge k) (with_ws (Some w))). exact Hb.
Qed.

End Outage.

(** X23.  No message is lost across a reconnect.  When the socket of a
    registered bridge closes, the messages submitted from then on join the
    ones already queued; five seconds later the timer makes a new socket,
    and once that socket has opened and the gateway has accepted the
    handshake, every queued message is sent on the new socket, in the order
    submitted, before the client is told the gateway is connected. *)
Theorem messages_survive_reconnect (rt : Runtime) (fuel w : nat) (k : WebSocket)
    (b : BridgeConnection) (ms : list jsval) (hello : jsval) (s : state) :
  sockets s !! w = Some k →
  find_bridge (ws_clientId k) s = Some (ws_bridge k, b) →
  readyState k ≠ CLOSED →
  socket_ctor_ok rt = true →
  is_handshake_success hello →
  Forall non_null (messageQueue b ++ ms) →
  (length (messageQueue b ++ ms) ≤ fuel)%nat →
  let c := ws_clientId k in
  let t := next_timer s in
  let w2 := next_socket s in
  ∃ s',
    exec rt fuel
      ([SocketClose w] ++ List.map (SendMessage c) ms
       ++ [Tick 5000; TimerFire t; SocketOpen w2; SocketMessage w2 (Some hello)])
      s = Some s'
    ∧ trace s'
      = trace s
        ++ [TimerSet t c 5000; SocketCreated w2 c]
        ++ List.map (Sent w2)
             (translate_all rt (session_key_of (Some (ws_bridge k, b))) (uuids s)
                (messageQueue b ++ ms))
        ++ [Notified c (onMessage b) gateway_connected]
    ∧ find_bridge c s'
      = Some (ws_bridge k,
              mkBridge (Some w2) (onMessage b) (Some t) true [] (sessionKey b)).
Proof.
  intros Hk Hf Hlive Hctor Hhello Hnn Hfuel c t w2.
  pose proof (find_bridge_heap _ _ _ _ Hf) as [Hc Hb]. fold c in Hc.
  set (a := ws_bridge k) in *.
  (* the close *)
  set (b1 := with_reconnectTimeout (Some t) (with_authenticated false (with_ws None b))).
  pose proof (run_socket_close_registered rt fuel w k b s Hk Hf) as Hclose.
  set (s1 := put _ _ _) in Hclose.
  assert (Hen1 : enabled (SocketClose w) s = true).
  { simpl. rewrite Hk. destruct (readyState k); try reflexivity. contradiction. }
  assert (Hf1 : find_bridge c s1 = Some (a, b1)).
  { unfold find_bridge, s1. simpl. fold c. rewrite Hc, lookup_insert_eq.
    reflexivity. }
  (* the messages *)
  set (b2 := with_messageQueue (messageQueue b ++ ms) b1).
  pose proof (exec_sends_queue rt fuel c a ms s1 b1 Hf1 eq_refl) as Hsend.
  change (messageQueue b1) with (messageQueue b) in Hsend. fold b2 in Hsend.
  set (s2 := put a b2 s1) in *.
  assert (Hf2 : find_bridge c s2 = Some (a, b2))
    by (apply (find_bridge_put _ _ _ _ _ Hf1)).
  (* the delay *)
  set (s3 := set_clock (clock s2 + 5000) s2).
  assert (Ht3 : timers s3 !! t = Some (mkTimer c (clock s + 5000)))
    by (simpl; apply lookup_insert_eq).
  assert (Hen3 : enabled (TimerFire t) s3 = true).
  { cbn [enabled]. rewrite Ht3. apply Z.leb_le. simpl. lia. }
  (* the timer *)
  pose proof (run_timer_reconnects rt fuel t _ a b2 s3 Ht3 Hf2 Hctor) as Htimer.
  cbn [timer_clientId] in Htimer.
  change (next_socket s3) with w2 in Htimer.
  set (s4 := put a (with_ws (Some w2) b2) _) in Htimer.
  assert (Hk4 : sockets s4 !! w2 = Some (mkSocket c a CONNECTING))
    by (simpl; apply lookup_insert_eq).
  assert (Hen4 : enabled (SocketOpen w2) s4 = true)
    by (cbn [enabled]; rewrite Hk4; reflexivity).
  (* the new socket opens *)
  assert (Hb4 : heap s4 !! a = Some (with_ws (Some w2) b2))
    by (simpl; apply lookup_insert_eq).
  pose proof (run_socket_open rt fuel w2 _ _ s4 Hk4 Hb4) as Hopen.
  cbn [ws_bridge] in Hopen.
  set (b5 := with_ws (Some w2) (with_ws (Some w2) b2)) in Hopen.
  set (s5 := put a b5 _) in Hopen.
  assert (Hk5 : sockets s5 !! w2 = Some (mkSocket c a OPEN)).
  { simpl. rewrite lookup_alter, decide_True by reflexivity.
    rewrite lookup_insert_eq. reflexivity. }
  assert (Hen5 : enabled (SocketMessage w2 (Some hello)) s5 = true)
    by (cbn [enabled]; rewrite Hk5; reflexivity).
  assert (Hf5 : find_bridge c s5 = Some (a, b5)).
  { unfold find_bridge. simpl. fold c. rewrite Hc, lookup_insert_eq. reflexivity. }
  assert (Ho5 : is_open w2 s5 = true) by (unfold is_open; rewrite Hk5; reflexivity).
  (* the handshake succeeds *)
  pose proof (run_handshake_success rt fuel w2 _ hello s5 a b5 Hk5 Hf5 Hhello)
    as Hflush.
  cbn [ws_clientId] in Hflush. unfold try_catch in Hflush.
  rewrite (handleConnectSuccess_flushes rt fuel c _ s5 a w2 b5 Hf5 eq_refl Ho5
             Hnn Hfuel) in Hflush.
  set (s6 := log_effect _ _) in Hflush.
  exists s6. split; [| split].
  - rewrite exec_app, (exec_step rt fuel _ [] s s1 Hen1 Hclose). cbn [exec].
    rewrite exec_app, Hsend.
    rewrite (exec_step rt fuel (Tick 5000) _ s2 s3 eq_refl eq_refl).
    rewrite (exec_step rt fuel _ _ s3 s4 Hen3 Htimer).
    rewrite (exec_step rt fuel _ _ s4 s5 Hen4 Hopen).
    rewrite (exec_step rt fuel _ _ s5 s6 Hen5 Hflush). reflexivity.
  - unfold s6. cbn [trace log_effect]. rewrite trace_log_all.
    cbn [trace set_uuids put set_heap]. simpl.
    rewrite <- !app_assoc. reflexivity.
  - unfold find_bridge, s6.
    assert (Hsame : ∀ es u s0, bridges (log_all es (set_uuids u s0)) = bridges s0
                               ∧ heap (log_all es (set_uuids u s0)) = heap s0).
    { induction es as [| e es IH]; intros u s0; [split; reflexivity |].
      apply (IH u (log_effect e s0)). }
    cbn [bridges heap log_effect].
    match goal with
    | |- context [log_all ?es (set_uuids ?u ?s0)] =>
        destruct (Hsame es u s0) as [-> ->]
    end.
    simpl. fold c. rewrite Hc, lookup_insert_eq. reflexivity.
Qed.

Lemma messages_survive_reconnect_witness :
  ∃ s',
    exec demo_runtime 2
      [SocketClose 0; SendMessage "c1" (chat_message "one");
       SendMessage "c1" (history_message (JNum 5));
       Tick 5000; TimerFire 0; SocketOpen 1; SocketMessage 1 (Some hello_ok_frame)]
      demo_authenticated = Some s'
    ∧ trace s'
      = trace demo_authenticated
        ++ [TimerSet 0 "c1" 5000; SocketCreated 1 "c1";
            Sent 1 (agent_request "uuid-1" (JStr "one") (JStr "main"));
            Sent 1 (history_request "uuid-2" (JNum 5));
            Notified "c1" 7 gateway_connected].
Proof.
  assert (Hk : sockets demo_authenticated !! 0%nat = Some (mkSocket "c1" 0 OPEN))
    by (vm_compute; reflexivity).
  assert (Hf : find_bridge "c1" demo_authenticated
               = Some (0%nat, mkBridge (Some 0%nat) 7 None true [] None))
    by (vm_compute; reflexivity).
  assert (Hhello : is_handshake_success hello_ok_frame)
    by (repeat split; reflexivity).
  destruct (messages_survive_reconnect demo_runtime 2 0 (mkSocket "c1" 0 OPEN) _
              [chat_message "one"; history_message (JNum 5)] hello_ok_frame
              demo_authenticated Hk Hf ltac:(discriminate) eq_refl Hhello
              ltac:(repeat constructor; discriminate) ltac:(simpl; lia))
    as (s' & Hrun & Htr & _).
  exists s'. split; [exact Hrun |]. rewrite Htr. vm_compute. reflexivity.
Defined.

(** X24.  [handleHistory] and [handleTyping] answer a client that is not
    authenticated with one [error], respectively with nothing, and leave
    the bridge service alone.  For an authenticated client whose bridge can
    send at once, the history request goes out as one [sessions.history]
    request whose [params.limit] is the client's [limit] when that is truthy
    and 50 otherwise, and the typing notice goes to the OpenClaw gateway as
    it is, the object [{type: 'user_typing'}], which is no request of the
    gateway protocol; when the bridge cannot send at once both are
    queued. *)
Theorem handleHistory_and_handleTyping (rt : Runtime) (id : string)
    (payload : jsval) (g : Chat.gateway) :
  let s := Chat.bridgeService g in
  let limit := or_else (get_opt payload "limit") (JNum 50) in
  let history := JObj [("type", JStr "history"); ("limit", limit)] in
  let typing := JObj [("type", JStr "user_typing")] in
  (Chat.is_authenticated id g = false →
   Chat.handleHistory rt id payload g
   = Chat.Returned (Chat.client_emit id "error" (Chat.notice "Not authenticated") g)
   ∧ Chat.handleTyping rt id g = Chat.Returned g)
  ∧ (Chat.is_authenticated id g = true →
     ∀ a b, find_bridge id s = Some (a, b) →
       (ready b s = false →
        Chat.handleHistory rt id payload g
        = Chat.Returned
            (Chat.set_bridgeService
               (put a (with_messageQueue (messageQueue b ++ [history]) b) s) g)
        ∧ Chat.handleTyping rt id g
          = Chat.Returned
              (Chat.set_bridgeService
                 (put a (with_messageQueue (messageQueue b ++ [typing]) b) s) g))
       ∧ (∀ w, ready b s = true → ws b = Some w →
          Chat.handleHistory rt id payload g
          = Chat.Returned
              (Chat.set_bridgeService
                 (log_effect
                    (Sent w (JObj [("type", JStr "req");
                                   ("id", JStr (uuidv4 rt (uuids s)));
                                   ("method", JStr "sessions.history");
                                   ("params",
                                    JObj [("sessionKey", session_key_of (Some (a, b)));
                                          ("limit", limit)])]))
                    (set_uuids (S (uuids s)) s))
                 g)
          ∧ Chat.handleTyping rt id g
            = Chat.Returned (Chat.set_bridgeService (log_effect (Sent w typing) s) g))).
Proof.
  intros s limit history typing.
  unfold Chat.handleHistory, Chat.handleTyping. split.
  - intros ->. split; reflexivity.
  - intros -> a b Hf. cbn [negb]. unfold Chat.call. fold s. fold limit. split.
    + intros Hb. rewrite !(sendMessage_holds rt id _ s a b Hf Hb). split; reflexivity.
    + intros w Hr Hw. unfold ready in Hr. rewrite Hw in Hr.
      apply andb_true_iff in Hr as [Hb Ho].
      rewrite !(sendMessage_live rt id _ s a w b Hf Hb Hw Ho) by discriminate.
      unfold translate, takes_id.
      cbn [get_opt get assoc String.eqb Ascii.eqb Bool.eqb is_str andb orb].
      assert (Hlim : or_else limit (JNum 50) = limit).
      { unfold limit, or_else. destruct (truthy (get_opt payload "limit")) eqn:Ht.
        - rewrite Ht. reflexivity.
        - reflexivity. }
      rewrite Hlim. split; reflexivity.
Qed.

(* ===================================================================== *)
(** ** One session per client id *)
(* ===================================================================== *)

Lemma unused_stable (rt : Runtime) (c : string) :
  stable rt (fun c' => c' ≠ c) (fun _ => True) (fun _ => True) (unused c).
Proof.
  pose proof (registered_live_stable rt) as L.
  split.
  - intros a f Hc Hg s [U1 U2 U3 U4]. split; try assumption.
    apply (stable_update _ _ _ _ _ L a f Hc Hg s U4).
  - intros c' a b s _ [U1 U2 U3 U4] Hf s' Hs'. pose proof Hs' as [= <-].
    split; try assumption.
    apply (stable_authenticate _ _ _ _ _ L c' a b s I U4 Hf _ Hs').
  - intros a t _ s [U1 U2 U3 U4]. split; try assumption.
    apply (stable_rearm _ _ _ _ _ L a t I s U4).
  - intros w s [U1 U2 U3 U4]. split; try assumption.
    intros w' k' Hk'. simpl in Hk'. rewrite lookup_alter in Hk'.
    destruct (decide (w = w')) as [<- |]; [| apply (U2 w' k' Hk')].
    destruct (sockets s !! w) as [k |] eqn:Hk; simpl in Hk'; [| discriminate].
    injection Hk' as <-. specialize (U2 w k Hk).
    unfold closing. destruct (readyState k); exact U2.
  - intros w r k s [U1 U2 U3 U4] Hk _ _. split; try assumption.
    intros w' k' Hk'. simpl in Hk'. rewrite lookup_alter in Hk'.
    destruct (decide (w = w')) as [<- |]; [| apply (U2 w' k' Hk')].
    rewrite Hk in Hk'. simpl in Hk'. injection Hk' as <-. apply (U2 w k Hk).
  - intros n s Hs. destruct Hs. split; assumption.
  - intros t s [U1 U2 U3 U4]. split; try assumption.
    intros t' tm Htm. simpl in Htm.
    apply lookup_delete_Some in Htm as [_ Htm]. apply (U3 t' tm Htm).
  - intros e _ s Hs. destruct Hs. split; assumption.
  - intros c' delay Hc s [U1 U2 U3 U4]. split; try assumption.
    intros t' tm Htm. simpl in Htm.
    destruct (decide (next_timer s = t')) as [<- | Hne].
    + rewrite lookup_insert_eq in Htm. injection Htm as <-. exact Hc.
    + rewrite lookup_insert_ne in Htm by exact Hne. apply (U3 t' tm Htm).
  - intros c' a b s Hc [U1 U2 U3 U4] Hf. unfold new_socket.
    destruct (socket_ctor_ok rt); [| split; assumption].
    simpl. split; try assumption.
    intros w' k' Hk'. simpl in Hk'.
    destruct (decide (next_socket s = w')) as [<- | Hne].
    + rewrite lookup_insert_eq in Hk'. injection Hk' as <-. simpl.
      split; [exact Hc |].
      destruct (find_bridge_heap _ _ _ _ Hf) as [Hm _].
      apply (U4 c' a Hm).
    + rewrite lookup_insert_ne in Hk' by exact Hne. apply (U2 w' k' Hk').
  - intros c' cb Hc s [U1 U2 U3 U4]. split.
    + simpl. rewrite lookup_insert_ne by exact Hc. exact U1.
    + intros w k Hk. simpl in Hk. destruct (U2 w k Hk) as [H1 H2].
      split; [exact H1 | simpl; lia].
    + exact U3.
    + apply (stable_install _ _ _ _ _ L c' cb I s U4).
  - intros c' Hc s [U1 U2 U3 U4]. split; try assumption.
    + simpl. rewrite lookup_delete_ne by exact Hc. exact U1.
    + apply (stable_remove _ _ _ _ _ L c' I s U4).
  - intros f s Hs. destruct Hs. split; assumption.
Qed.

Lemma session_update (c : string) (a a' : nat)
    (f : BridgeConnection → BridgeConnection) (s : state) :
  a' ≠ a ∨ gentle f →
  a' ≠ a ∨ calm f
  ∨ (∃ w k, sockets s !! w = Some k ∧ ws_clientId k = c ∧ talking k) →
  session c a s →
  session c a (set_heap (alter f a') s).
Proof.
  intros Hg Hc [S1 S2 S3 S4 S5 S6 S7 S8].
  split; try assumption.
  - simpl. rewrite lookup_alter.
    destruct (decide (a' = a)) as [-> |]; [apply fmap_is_Some |]; exact S6.
  - intros b Hb Hauth. simpl in Hb |- *. rewrite lookup_alter in Hb.
    destruct (decide (a' = a)) as [-> | Hne]; [| apply (S7 b Hb Hauth)].
    destruct (heap s !! a) as [b0 |] eqn:Hb0; simpl in Hb; [| discriminate].
    injection Hb as <-.
    destruct Hc as [Hc | [Hc | Hc]]; [congruence | | exact Hc].
    apply (S7 b0 eq_refl), Hc, Hauth.
  - intros b t tm Hb Htm Hcl. simpl in Hb, Htm |- *. rewrite lookup_alter in Hb.
    destruct (decide (a' = a)) as [-> | Hne]; [| apply (S8 b t tm Hb Htm Hcl)].
    destruct (heap s !! a) as [b0 |] eqn:Hb0; simpl in Hb; [| discriminate].
    injection Hb as <-.
    destruct Hg as [Hg | Hg]; [congruence |]. rewrite Hg.
    apply (S8 b0 t tm eq_refl Htm Hcl).
Qed.

(** A change of one socket's state that keeps closed sockets closed, the
    others not closed, and a socket that can deliver frames able to. *)
Lemma session_alter (c : string) (a w : nat) (g : WebSocket → WebSocket)
    (s : state) :
  (∀ k, ws_clientId (g k) = ws_clientId k ∧ ws_bridge (g k) = ws_bridge k) →
  (∀ k, sockets s !! w = Some k → ws_clientId k = c →
        (readyState (g k) = CLOSED ↔ readyState k = CLOSED)
        ∧ (talking k → talking (g k))) →
  session c a s →
  session c a (set_sockets (alter g w) s).
Proof.
  intros Hsame Hown [S1 S2 S3 S4 S5 S6 S7 S8].
  assert (Hback : ∀ w' k', alter g w (sockets s) !! w' = Some k' →
            ∃ k, sockets s !! w' = Some k
                 ∧ ws_clientId k' = ws_clientId k
                 ∧ ws_bridge k' = ws_bridge k
                 ∧ (ws_clientId k = c →
                    (readyState k' = CLOSED ↔ readyState k = CLOSED))).
  { intros w' k' Hk'. rewrite lookup_alter in Hk'.
    destruct (decide (w = w')) as [<- |]; [| exists k'; tauto].
    destruct (sockets s !! w) as [k |] eqn:Hk; simpl in Hk'; [| discriminate].
    injection Hk' as <-. exists k. destruct (Hsame k) as [H1 H2].
    repeat split; try assumption; apply (Hown k eq_refl); assumption. }
  split; try assumption.
  - intros w' k' Hk' Hrel. simpl in Hk' |- *.
    destruct (Hback w' k' Hk') as (k & Hk & Hc & Hb & _).
    rewrite Hc, Hb in *. apply (S4 w' k Hk Hrel).
  - intros w1 k1 w2 k2 H1 H2 Hc1 Hc2 Hl1 Hl2. simpl in H1, H2.
    destruct (Hback w1 k1 H1) as (k1' & Hk1 & Hc1' & _ & Hr1).
    destruct (Hback w2 k2 H2) as (k2' & Hk2 & Hc2' & _ & Hr2).
    rewrite Hc1' in Hc1. rewrite Hc2' in Hc2.
    apply (S5 w1 k1' w2 k2' Hk1 Hk2 Hc1 Hc2).
    + intros H. apply Hl1, (Hr1 Hc1), H.
    + intros H. apply Hl2, (Hr2 Hc2), H.
  - intros b Hb Hauth. simpl in Hb |- *.
    destruct (S7 b Hb Hauth) as (w' & k & Hk & Hc & Ht).
    destruct (decide (w = w')) as [<- | Hne].
    + exists w, (g k). rewrite lookup_alter.
      destruct (decide (w = w)); [| congruence]. rewrite Hk.
      split; [reflexivity |]. destruct (Hsame k) as [H1 _].
      split; [congruence |]. apply (Hown k Hk Hc), Ht.
    + exists w', k. rewrite lookup_alter.
      destruct (decide (w = w')); [congruence |]. auto.
  - intros b t tm Hb Htm Hcl. simpl in Hb, Htm |- *.
    destruct (S8 b t tm Hb Htm Hcl) as (H1 & H2 & H3).
    split; [exact H1 | split; [exact H2 |]].
    intros w' k' Hk' Hc'.
    destruct (Hback w' k' Hk') as (k & Hk & Hc & _ & Hr).
    rewrite Hc in Hc'. apply (Hr Hc'), (H3 w' k Hk Hc').
Qed.

Lemma session_stable (rt : Runtime) (c : string) (a : nat) :
  stable rt (fun c' => c' ≠ c) (fun c' => c' ≠ c) (fun a' => a' ≠ a)
         (session c a).
Proof.
  split.
  - intros a' f Hc Hg s Hs. apply session_update; auto.
  - intros c' a' b s Hc Hs Hf s' [= <-].
    apply session_update; [right; apply gentle_with_authenticated | left | exact Hs].
    intros ->. apply Hc, (session_owner _ _ _ Hs).
    apply (find_bridge_heap _ _ _ _ Hf).
  - intros a' t Hne s Hs. apply session_update; auto.
  - intros w s Hs. apply session_alter; [| | exact Hs].
    + intros k. unfold closing. destruct (readyState k); split; reflexivity.
    + intros k _ _. unfold closing, talking.
      destruct (readyState k) eqn:Hr; simpl; rewrite ?Hr; split;
        try tauto; try (split; congruence); intros [H | H]; congruence.
  - intros w r k s Hs Hk Hc _. apply session_alter; [| | exact Hs].
    + intros k'. split; reflexivity.
    + intros k' Hk' Hc'. congruence.
  - intros n s Hs. destruct Hs. split; assumption.
  - intros t s [S1 S2 S3 S4 S5 S6 S7 S8]. split; try assumption.
    intros b t' tm Hb Htm Hcl. simpl in Hb, Htm |- *.
    apply lookup_delete_Some in Htm as [_ Htm]. apply (S8 b t' tm Hb Htm Hcl).
  - intros e _ s Hs. destruct Hs. split; assumption.
  - intros c' delay Hc s [S1 S2 S3 S4 S5 S6 S7 S8]. split; try assumption.
    intros b t' tm Hb Htm Hcl. simpl in Hb, Htm |- *.
    destruct (decide (next_timer s = t')) as [<- | Hne].
    + rewrite lookup_insert_eq in Htm. injection Htm as <-. simpl in Hcl.
      congruence.
    + rewrite lookup_insert_ne in Htm by exact Hne. apply (S8 b t' tm Hb Htm Hcl).
  - intros c' a' b s Hc [S1 S2 S3 S4 S5 S6 S7 S8] Hf. unfold new_socket.
    destruct (socket_ctor_ok rt); [| split; assumption].
    assert (Ha : a' ≠ a).
    { intros ->. apply Hc, S2, (find_bridge_heap _ _ _ _ Hf). }
    assert (Hback : ∀ w' k',
              <[next_socket s := mkSocket c' a' CONNECTING]> (sockets s) !! w'
              = Some k' →
              ws_clientId k' = c ∨ ws_bridge k' = a →
              sockets s !! w' = Some k').
    { intros w' k' Hk' Hrel.
      destruct (decide (next_socket s = w')) as [<- | Hne].
      - rewrite lookup_insert_eq in Hk'. injection Hk' as <-. simpl in Hrel.
        destruct Hrel; congruence.
      - rewrite lookup_insert_ne in Hk' by exact Hne. exact Hk'. }
    simpl. split; try assumption.
    + intros w' k' Hk' Hrel. simpl in Hk' |- *.
      destruct (S4 w' k' (Hback w' k' Hk' Hrel) Hrel) as (H1 & H2 & H3).
      repeat split; try assumption. lia.
    + intros w1 k1 w2 k2 H1 H2 Hc1 Hc2. simpl in H1, H2.
      apply (S5 w1 k1 w2 k2); auto.
    + intros b0 Hb0 Hauth. simpl in Hb0 |- *.
      destruct (S7 b0 Hb0 Hauth) as (w' & k & Hk & Hck & Ht).
      exists w', k. rewrite lookup_insert_ne; [auto |].
      destruct (S4 w' k Hk (or_introl Hck)) as (_ & _ & Hlt). lia.
    + intros b0 t tm Hb0 Htm Hcl. simpl in Hb0, Htm |- *.
      destruct (S8 b0 t tm Hb0 Htm Hcl) as (H1 & H2 & H3).
      split; [exact H1 | split; [exact H2 |]].
      intros w' k' Hk' Hc'. apply (H3 w' k'); auto.
  - intros c' cb Hc s [S1 S2 S3 S4 S5 S6 S7 S8]. split; try assumption.
    + intros a'. simpl. rewrite lookup_insert_ne by exact Hc. apply S1.
    + intros c''. simpl. destruct (decide (c' = c'')) as [<- | Hne].
      * rewrite lookup_insert_eq. intros [= Heq]. lia.
      * rewrite lookup_insert_ne by exact Hne. apply S2.
    + simpl. lia.
    + simpl. rewrite lookup_insert_ne by lia. exact S6.
    + intros b. simpl. rewrite lookup_insert_ne by lia. apply S7.
    + intros b t tm. simpl. rewrite !lookup_insert_ne by (try lia; exact Hc).
      apply S8.
  - intros c' Hc s [S1 S2 S3 S4 S5 S6 S7 S8]. split; try assumption.
    + intros a'. simpl. rewrite lookup_delete_ne by exact Hc. apply S1.
    + intros c''. simpl. intros H. apply lookup_delete_Some in H as [_ H].
      apply S2, H.
    + intros b t tm. simpl. rewrite lookup_delete_ne by exact Hc. apply S8.
  - intros f s Hs. destruct Hs. split; assumption.
Qed.

(** The handlers of a frame and [sendMessage] assign fields of bridge
    objects other than the timer handle, call [uuidv4] and make effects;
    they do nothing else. *)
Section Quiet.

Context (rt : Runtime) (Q : state → Prop).
Hypothesis Q_update : ∀ a f, gentle f → keeps Q (update a f).
Hypothesis Q_emit : ∀ e, keeps Q (emit e).
Hypothesis Q_uuids : ∀ n, keeps Q (modify (set_uuids n)).

#[local] Hint Resolve gentle_with_ws gentle_with_messageQueue gentle_push
  gentle_with_authenticated Q_emit Q_uuids : keeps.
#[local] Hint Extern 2 (keeps _ (update _ _)) =>
  apply Q_update; auto with keeps : keeps.
#[local] Hint Extern 1 (keeps _ (ws_send _ _)) => apply Q_emit : keeps.

Lemma quiet_fresh_uuid : keeps Q (fresh_uuid rt).
Proof. unfold fresh_uuid. keeps_auto. Qed.
#[local] Hint Resolve quiet_fresh_uuid : keeps.

Lemma quiet_signMessage message : keeps Q (signMessage rt message).
Proof. unfold signMessage. keeps_auto. Qed.
#[local] Hint Resolve quiet_signMessage : keeps.

Lemma quiet_convertToGatewayFormat c message :
  keeps Q (convertToGatewayFormat rt c message).
Proof. unfold convertToGatewayFormat. keeps_auto. Qed.
#[local] Hint Resolve quiet_convertToGatewayFormat : keeps.

Lemma quiet_sendMessage c message : keeps Q (sendMessage rt c message).
Proof. unfold sendMessage. keeps_auto. Qed.
#[local] Hint Resolve quiet_sendMessage : keeps.

Lemma quiet_sendRaw c message : keeps Q (sendRaw c message).
Proof. unfold sendRaw. keeps_auto. Qed.
#[local] Hint Resolve quiet_sendRaw : keeps.

Lemma quiet_handleConnectChallenge c payload :
  keeps Q (handleConnectChallenge rt c payload).
Proof. unfold handleConnectChallenge. keeps_auto. Qed.
#[local] Hint Resolve quiet_handleConnectChallenge : keeps.

Lemma quiet_drain fuel c a : keeps Q (drain rt fuel c a).
Proof. induction fuel as [| fuel IH]; simpl; keeps_auto. Qed.
#[local] Hint Resolve quiet_drain : keeps.

Lemma quiet_handleConnectSuccess fuel c payload :
  keeps Q (handleConnectSuccess rt fuel c payload).
Proof. unfold handleConnectSuccess. keeps_auto. Qed.
#[local] Hint Resolve quiet_handleConnectSuccess : keeps.

Lemma quiet_handleAgentEvent c payload : keeps Q (handleAgentEvent c payload).
Proof. unfold handleAgentEvent. keeps_auto. Qed.
#[local] Hint Resolve quiet_handleAgentEvent : keeps.

Lemma quiet_handleGatewayMessage fuel c message :
  keeps Q (handleGatewayMessage rt fuel c message).
Proof. unfold handleGatewayMessage. keeps_auto. Qed.

Lemma quiet_on_message fuel k data : keeps Q (on_message rt fuel k data).
Proof.
  unfold on_message. pose proof (quiet_handleGatewayMessage fuel (ws_clientId k)).
  keeps_auto.
Qed.

End Quiet.

Section OwnEvents.

Context (rt : Runtime) (c : string) (a : nat).

Lemma session_log (e : effect) (s : state) :
  session c a s → session c a (log_effect e s).
Proof. intros Hs. destruct Hs. split; assumption. Qed.

Lemma session_talking_not_closed (k : WebSocket) :
  talking k → readyState k ≠ CLOSED.
Proof. intros [H | H]; rewrite H; discriminate. Qed.

(** A frame delivered by a socket of the client *)
Lemma session_on_message (fuel w : nat) (k : WebSocket) (data : option jsval)
    (s s' : state) :
  session c a s →
  sockets s !! w = Some k → ws_clientId k = c → talking k →
  final (on_message rt fuel k data s) = Some s' →
  session c a s'.
Proof.
  intros Hs Hk Hc Ht Hf.
  set (Q := fun s => session c a s
                     ∧ ∃ k, sockets s !! w = Some k ∧ ws_clientId k = c ∧ talking k).
  assert (HQ : Q s') ; [| exact (proj1 HQ)].
  apply (keeps_final Q (on_message rt fuel k data) s s'); [| | exact Hf].
  - apply quiet_on_message.
    + intros a' f Hg s1 [H1 (k1 & Hk1 & Hc1 & Ht1)]. split.
      * apply session_update; [right; exact Hg | | exact H1].
        right. right. exists w, k1. auto.
      * exists k1. auto.
    + intros e s1 [H1 H2]. split; [apply session_log, H1 | exact H2].
    + intros n s1 [H1 H2]. split; [destruct H1; split; assumption | exact H2].
  - split; [exact Hs | exists k; auto].
Qed.

(** The socket of the client opens, or its peer starts closing it. *)
Lemma session_readyState (w : nat) (k : WebSocket) (r : ready_state) (s : state) :
  session c a s →
  sockets s !! w = Some k →
  readyState k ≠ CLOSED →
  r = OPEN ∨ r = CLOSING →
  session c a (set_sockets (alter (with_readyState r) w) s).
Proof.
  intros Hs Hk Hl Hr. apply session_alter; [| | exact Hs].
  - intros k'. split; reflexivity.
  - intros k' Hk' _. rewrite Hk in Hk'. injection Hk' as <-. simpl. split.
    + split; [destruct Hr; congruence | intros H; contradiction].
    + intros _. exact Hr.
Qed.

(** The socket of the client closes. *)
Lemma session_closed (w : nat) (k : WebSocket) (b' : BridgeConnection) (s : state) :
  session c a s →
  sockets s !! w = Some k → ws_clientId k = c → readyState k ≠ CLOSED →
  authenticated b' = false →
  session c a (put a b' (set_sockets (alter (with_readyState CLOSED) w) s))
  ∧ (∀ w' k', alter (with_readyState CLOSED) w (sockets s) !! w' = Some k' →
              ws_clientId k' = c → readyState k' = CLOSED)
  ∧ (∀ t tm, timers s !! t = Some tm → timer_clientId tm ≠ c).
Proof.
  intros Hs Hk Hc Hl Hauth. pose proof Hs as [S1 S2 S3 S4 S5 S6 S7 S8].
  assert (Hback : ∀ w' k', alter (with_readyState CLOSED) w (sockets s) !! w'
                           = Some k' →
            ∃ k0, sockets s !! w' = Some k0
                  ∧ ws_clientId k' = ws_clientId k0
                  ∧ ws_bridge k' = ws_bridge k0
                  ∧ (w' = w ∧ readyState k' = CLOSED ∨ w' ≠ w ∧ k' = k0)).
  { intros w' k' Hk'. rewrite lookup_alter in Hk'.
    destruct (decide (w = w')) as [<- | Hne].
    - rewrite Hk in Hk'. injection Hk' as <-. exists k. simpl.
      split; [exact Hk | split; [reflexivity | split; [reflexivity |]]].
      left. split; reflexivity.
    - exists k'.
      split; [exact Hk' | split; [reflexivity | split; [reflexivity |]]].
      right. split; [congruence | reflexivity]. }
  assert (Hquiet : ∀ t tm, timers s !! t = Some tm → timer_clientId tm ≠ c).
  { intros t tm Htm Hcl. destruct S6 as [b0 Hb0].
    destruct (S8 b0 t tm Hb0 Htm Hcl) as (_ & _ & Hall).
    apply Hl, (Hall w k Hk Hc). }
  assert (Hall : ∀ w' k', alter (with_readyState CLOSED) w (sockets s) !! w'
                          = Some k' →
                          ws_clientId k' = c → readyState k' = CLOSED).
  { intros w' k' Hk' Hc'.
    destruct (Hback w' k' Hk') as (k0 & Hk0 & Hc0 & _ & [[_ H] | [Hne ->]]);
      [exact H |].
    destruct (readyState k0) eqn:Hr; [| | | reflexivity]; exfalso; apply Hne;
      apply (S5 w' k0 w k Hk0 Hk Hc' Hc); congruence. }
  split; [| split; [exact Hall | exact Hquiet]].
  split; try assumption.
  - intros w' k' Hk' Hrel. simpl in Hk' |- *.
    destruct (Hback w' k' Hk') as (k0 & Hk0 & Hc0 & Hb0 & _).
    rewrite Hc0, Hb0 in *. apply (S4 w' k0 Hk0 Hrel).
  - intros w1 k1 w2 k2 H1 H2 Hc1 Hc2 Hl1 Hl2. simpl in H1, H2.
    exfalso. apply Hl1, (Hall w1 k1 H1 Hc1).
  - simpl. rewrite lookup_insert_eq. eauto.
  - intros b Hb Ha. simpl in Hb. rewrite lookup_insert_eq in Hb.
    injection Hb as <-. congruence.
  - intros b t tm Hb Htm Hcl. simpl in Htm. destruct (Hquiet t tm Htm Hcl).
Qed.

(** The reconnect timer is armed and its handle stored. *)
Lemma session_armed (b : BridgeConnection) (due : Z) (e : effect) (s : state) :
  session c a s →
  bridges s !! c = Some a →
  heap s !! a = Some b →
  authenticated b = false →
  (∀ w k, sockets s !! w = Some k → ws_clientId k = c → readyState k = CLOSED) →
  (∀ t tm, timers s !! t = Some tm → timer_clientId tm ≠ c) →
  session c a
    (put a (with_reconnectTimeout (Some (next_timer s)) b)
       (log_effect e
          (set_timers (insert (next_timer s) (mkTimer c due))
             (set_next_timer (S (next_timer s)) s)))).
Proof.
  intros [S1 S2 S3 S4 S5 S6 S7 S8] Hreg Hb Hauth Hall Hquiet.
  split; try assumption.
  - simpl. rewrite lookup_insert_eq. eauto.
  - intros b1 Hb1 Ha. simpl in Hb1. rewrite lookup_insert_eq in Hb1.
    injection Hb1 as <-. simpl in Ha. congruence.
  - intros b1 t tm Hb1 Htm Hcl. simpl in Hb1, Htm |- *.
    rewrite lookup_insert_eq in Hb1. injection Hb1 as <-.
    destruct (decide (next_timer s = t)) as [<- | Hne].
    + split; [exact Hreg | split; [reflexivity | exact Hall]].
    + rewrite lookup_insert_ne in Htm by exact Hne.
      destruct (Hquiet t tm Htm Hcl).
Qed.

(** A socket is made for the client while it has none that is not closed
    and no timer pending. *)
Lemma session_new_socket (s : state) :
  session c a s →
  (∀ w k, sockets s !! w = Some k → ws_clientId k = c → readyState k = CLOSED) →
  (∀ t tm, timers s !! t = Some tm → timer_clientId tm ≠ c) →
  session c a
    (set_sockets (insert (next_socket s) (mkSocket c a CONNECTING))
       (set_next_socket (S (next_socket s)) s)).
Proof.
  intros [S1 S2 S3 S4 S5 S6 S7 S8] Hall Hquiet.
  assert (Hback : ∀ w' k',
            <[next_socket s := mkSocket c a CONNECTING]> (sockets s) !! w'
            = Some k' →
            (w' = next_socket s ∧ k' = mkSocket c a CONNECTING)
            ∨ (w' ≠ next_socket s ∧ sockets s !! w' = Some k')).
  { intros w' k' Hk'.
    destruct (decide (next_socket s = w')) as [<- | Hne].
    - rewrite lookup_insert_eq in Hk'. injection Hk' as <-. auto.
    - rewrite lookup_insert_ne in Hk' by exact Hne. auto. }
  split; try assumption.
  - intros w' k' Hk' Hrel. simpl in Hk' |- *.
    destruct (Hback w' k' Hk') as [[-> ->] | [Hne Hk0]].
    + simpl. repeat split; lia.
    + destruct (S4 w' k' Hk0 Hrel) as (H1 & H2 & H3). repeat split; auto; lia.
  - intros w1 k1 w2 k2 H1 H2 Hc1 Hc2 Hl1 Hl2. simpl in H1, H2.
    destruct (Hback w1 k1 H1) as [[-> ->] | [Hne1 Hk1]];
      destruct (Hback w2 k2 H2) as [[-> ->] | [Hne2 Hk2]]; try reflexivity;
      exfalso.
    + apply Hl2, (Hall w2 k2 Hk2 Hc2).
    + apply Hl1, (Hall w1 k1 Hk1 Hc1).
    + apply Hl1, (Hall w1 k1 Hk1 Hc1).
  - intros b Hb Ha. simpl in Hb. exfalso.
    destruct (S7 b Hb Ha) as (w' & k & Hk & Hck & Ht).
    apply (session_talking_not_closed k Ht), (Hall w' k Hk Hck).
  - intros b t tm Hb Htm Hcl. simpl in Htm. destruct (Hquiet t tm Htm Hcl).
Qed.

(** [connectToGateway] for the client while it has no socket that is not
    closed and no timer pending *)
Lemma session_connectToGateway (s s' : state) :
  session c a s →
  bridges s !! c = Some a →
  (∀ w k, sockets s !! w = Some k → ws_clientId k = c → readyState k = CLOSED) →
  (∀ t tm, timers s !! t = Some tm → timer_clientId tm ≠ c) →
  final (connectToGateway rt c s) = Some s' →
  session c a s'.
Proof.
  intros Hs Hreg Hall Hquiet. pose proof (session_object _ _ _ Hs) as [b Hb].
  unfold connectToGateway, bind at 1, gets, find_bridge. rewrite Hreg, Hb.
  unfold try_catch, bind at 1, new_socket.
  destruct (socket_ctor_ok rt).
  - unfold bind, gets, modify, emit, modify, ret, update, modify. simpl.
    intros [= <-].
    apply session_update; [right; apply gentle_with_ws | right; left; apply calm_with_ws |].
    apply session_log. apply (session_new_socket s Hs Hall Hquiet).
  - simpl. intros [= <-]. exact Hs.
Qed.

(** The entry of the client is removed while no timer is pending for it. *)
Lemma session_remove (s : state) :
  session c a s →
  (∀ t tm, timers s !! t = Some tm → timer_clientId tm ≠ c) →
  session c a (set_bridges (delete c) s).
Proof.
  intros [S1 S2 S3 S4 S5 S6 S7 S8] Hquiet. split; try assumption.
  - intros a'. simpl. rewrite lookup_delete_eq. discriminate.
  - intros c'. simpl. intros H. apply lookup_delete_Some in H as [_ H].
    apply S2, H.
  - intros b t tm Hb Htm Hcl. simpl in Htm. destruct (Hquiet t tm Htm Hcl).
Qed.

Lemma session_closeBridge (s s' : state) :
  session c a s →
  final (closeBridge rt c s) = Some s' →
  session c a s'.
Proof.
  intros Hs. destruct (find_bridge c s) as [[a' b] |] eqn:Hf.
  - rewrite (closeBridge_registered rt c s a' b Hf). cbv zeta. simpl.
    intros [= <-].
    destruct (find_bridge_heap _ _ _ _ Hf) as [Hreg Hb].
    pose proof (session_entry _ _ _ Hs a' Hreg) as ->.
    pose proof (session_stable rt c a) as St.
    set (s1 := match reconnectTimeout b with
               | Some t => log_effect (TimerCleared t) (set_timers (delete t) s)
               | None => s
               end).
    assert (H1 : session c a s1
                 ∧ ∀ t tm, timers s1 !! t = Some tm → timer_clientId tm ≠ c).
    { subst s1. destruct (reconnectTimeout b) as [t0 |] eqn:Hrt.
      - split.
        + apply session_log. apply (stable_cancel _ _ _ _ _ St t0 s Hs).
        + intros t tm Htm Hcl. simpl in Htm.
          apply lookup_delete_Some in Htm as [Hne Htm].
          destruct (session_timer _ _ _ Hs b t tm Hb Htm Hcl) as (_ & Heq & _).
          congruence.
      - split; [exact Hs |]. intros t tm Htm Hcl.
        destruct (session_timer _ _ _ Hs b t tm Hb Htm Hcl) as (_ & Heq & _).
        congruence. }
    destruct H1 as [H1 Hq1].
    apply session_remove.
    + destruct (ws b) as [w |]; [| exact H1].
      destruct (close_throws rt w); [exact H1 |].
      apply session_log. apply (stable_closing _ _ _ _ _ St w s1 H1).
    + intros t tm Htm. apply (Hq1 t tm).
      destruct (ws b) as [w |]; [| exact Htm].
      destruct (close_throws rt w); exact Htm.
  - unfold closeBridge, bind, gets. rewrite Hf. simpl. intros [= <-]. exact Hs.
Qed.

End OwnEvents.

Section OneSession.

Context (rt : Runtime) (c : string).

(** The first [createBridge] for the client starts its session. *)
Lemma createBridge_starts_session (cb : nat) (s s' : state) :
  unused c s →
  final (createBridge rt c cb s) = Some s' →
  session c (next_addr s) s'.
Proof.
  intros [U1 U2 U3 U4].
  unfold createBridge, bind at 1, gets. rewrite (has_bridge_absent _ _ U1).
  unfold bind at 1, ret, bind at 1, install, bind, gets, modify.
  set (s1 := set_bridges _ _).
  apply session_connectToGateway.
  - subst s1. split.
    + intros a'. simpl. rewrite lookup_insert_eq. congruence.
    + intros c'. simpl. destruct (decide (c = c')) as [<- | Hne];
        [reflexivity |].
      rewrite lookup_insert_ne by exact Hne. intros Hc'.
      destruct (U4 c' _ Hc') as (_ & Hlt & _). lia.
    + simpl. lia.
    + intros w k Hk Hrel. simpl in Hk. destruct (U2 w k Hk) as [H1 H2].
      destruct Hrel as [Hrel | Hrel]; [contradiction | lia].
    + intros w1 k1 w2 k2 H1 _ Hc1. simpl in H1.
      destruct (U2 w1 k1 H1) as [Hne _]. contradiction.
    + simpl. rewrite lookup_insert_eq. eauto.
    + intros b. simpl. rewrite lookup_insert_eq. intros [= <-]. discriminate.
    + intros b t tm _ Htm Hcl. simpl in Htm. destruct (U3 t tm Htm Hcl).
  - subst s1. simpl. apply lookup_insert_eq.
  - intros w k Hk Hc. subst s1. simpl in Hk. destruct (U2 w k Hk) as [Hne _].
    contradiction.
  - intros t tm Htm. subst s1. simpl in Htm. apply (U3 t tm Htm).
Qed.

Lemma run_keeps_unused (fuel : nat) (e : event) (s s' : state) :
  ¬ creates c e →
  unused c s →
  final (run rt fuel e s) = Some s' →
  unused c s'.
Proof.
  intros Hno Hs Hf.
  assert (Hgen : (∀ c', event_client e s = Some c' → c' ≠ c) → unused c s').
  { intros Hcl.
    assert (Hs' : match run rt fuel e s with
                  | Ok _ s' => unused c s'
                  | Raise s' => unused c s'
                  | OutOfFuel => True
                  end).
    { apply (run_keeps_at rt _ _ _ _ (unused_stable rt c));
        [exact Hcl | intros; exact I | intros; exact I | exact Hs]. }
    destruct (run rt fuel e s) as [u s1 | s1 |]; simpl in Hf; congruence. }
  destruct e as [c0 cb | c0 m | c0 | w | w data | w | w | w | t | ms];
    try (apply Hgen; simpl; first
           [ discriminate
           | intros c' [= <-]; exact Hno
           | destruct (sockets s !! w) as [k |] eqn:Hk; [| discriminate];
             intros c' [= <-]; apply (unused_sockets _ _ Hs w k Hk) ]).
  - destruct (decide (c0 = c)) as [-> | Hne].
    + simpl in Hf. rewrite (closeBridge_absent rt c s (unused_entry _ _ Hs)) in Hf.
      injection Hf as <-. exact Hs.
    + apply Hgen. simpl. intros c' [= <-]. exact Hne.
  - apply Hgen. simpl. destruct (timers s !! t) as [tm |] eqn:Htm; [| discriminate].
    intros c' [= <-]. apply (unused_timers _ _ Hs t tm Htm).
Qed.

(** The session goes on through every event but a second [createBridge]
    for the client. *)
Lemma run_keeps_session (a fuel : nat) (e : event) (s s' : state) :
  enabled e s = true →
  ¬ creates c e →
  session c a s →
  final (run rt fuel e s) = Some s' →
  session c a s'.
Proof.
  intros Hen Hno Hs Hf.
  pose proof (session_stable rt c a) as St.
  assert (Hgen : (∀ c', event_client e s = Some c' → c' ≠ c) → session c a s').
  { intros Hcl.
    assert (Hs' : match run rt fuel e s with
                  | Ok _ s' => session c a s'
                  | Raise s' => session c a s'
                  | OutOfFuel => True
                  end).
    { apply (run_keeps_at rt _ _ _ _ St); [exact Hcl | | | exact Hs].
      - intros a' Ha' Heq.
        destruct e as [c0 cb | c0 m | c0 | w | w data | w | w | w | t | ms];
          simpl in Ha'; try discriminate;
          (destruct (sockets s !! w) as [k |] eqn:Hk; [| discriminate]);
          injection Ha' as <-;
          apply (Hcl (ws_clientId k)); try (simpl; rewrite Hk; reflexivity);
          apply (session_sockets _ _ _ Hs w k Hk (or_intror Heq)).
      - intros w k message -> Hk _. apply Hcl. simpl. rewrite Hk. reflexivity. }
    destruct (run rt fuel e s) as [u s1 | s1 |]; simpl in Hf; congruence. }
  destruct e as [c0 cb | c0 m | c0 | w | w data | w | w | w | t | ms].
  - apply Hgen. simpl. intros c' [= <-]. exact Hno.
  - apply Hgen. discriminate.
  - destruct (decide (c0 = c)) as [-> | Hne].
    + apply (session_closeBridge rt c a s s' Hs Hf).
    + apply Hgen. simpl. intros c' [= <-]. exact Hne.
  - simpl in Hen. destruct (sockets s !! w) as [k |] eqn:Hk; [| discriminate].
    destruct (decide (ws_clientId k = c)) as [Hc | Hne].
    + simpl in Hf. unfold bind, gets in Hf. rewrite Hk in Hf.
      unfold set_readyState, modify, on_open, update, modify in Hf.
      simpl in Hf. injection Hf as <-.
      apply session_update;
        [right; apply gentle_with_ws | right; left; apply calm_with_ws |].
      apply (session_readyState c a w k OPEN s Hs Hk); [| left; reflexivity].
      destruct (readyState k); discriminate.
    + apply Hgen. simpl. rewrite Hk. intros c' [= <-]. exact Hne.
  - simpl in Hen. destruct (sockets s !! w) as [k |] eqn:Hk; [| discriminate].
    destruct (decide (ws_clientId k = c)) as [Hc | Hne].
    + simpl in Hf. unfold bind, gets in Hf. rewrite Hk in Hf.
      apply (session_on_message rt c a fuel w k data s s' Hs Hk Hc); [| exact Hf].
      unfold talking. destruct (readyState k); try discriminate; auto.
    + apply Hgen. simpl. rewrite Hk. intros c' [= <-]. exact Hne.
  - simpl in Hen. destruct (sockets s !! w) as [k |] eqn:Hk; [| discriminate].
    destruct (decide (ws_clientId k = c)) as [Hc | Hne].
    + simpl in Hf. injection Hf as <-.
      apply (session_readyState c a w k CLOSING s Hs Hk); [| right; reflexivity].
      destruct (readyState k); discriminate.
    + apply Hgen. simpl. rewrite Hk. intros c' [= <-]. exact Hne.
  - simpl in Hen. destruct (sockets s !! w) as [k |] eqn:Hk; [| discriminate].
    destruct (decide (ws_clientId k = c)) as [Hc | Hne];
      [| apply Hgen; simpl; rewrite Hk; intros c' [= <-]; exact Hne].
    assert (Hl : readyState k ≠ CLOSED) by (destruct (readyState k); discriminate).
    destruct (session_sockets _ _ _ Hs w k Hk (or_introl Hc)) as (_ & Ha & _).
    destruct (session_object _ _ _ Hs) as [b Hb].
    set (b1 := with_authenticated false (with_ws None b)).
    destruct (session_closed c a w k b1 s Hs Hk Hc Hl eq_refl)
      as (Hs2 & Hall & Hquiet).
    set (s1 := set_sockets (alter (with_readyState CLOSED) w) s) in *.
    simpl in Hf. unfold bind at 1, gets in Hf. rewrite Hk in Hf.
    unfold bind at 1, set_readyState, modify in Hf. fold s1 in Hf.
    unfold on_close, bind in Hf.
    rewrite (on_close_reset_found k b s1) in Hf by (rewrite Ha; exact Hb).
    rewrite Ha in Hf. fold b1 in Hf.
    destruct (bridges s !! c) as [a' |] eqn:Hreg.
    + pose proof (session_entry _ _ _ Hs a' Hreg) as ->.
      rewrite (on_close_schedule_found k b1 (put a b1 s1)) in Hf;
        [| simpl; rewrite Hc, Hreg; eauto
         | simpl; rewrite Ha; apply lookup_insert_eq].
      simpl in Hf. injection Hf as <-. rewrite Ha, Hc.
      apply (session_armed c a b1 _ _ (put a b1 s1) Hs2);
        [exact Hreg | simpl; apply lookup_insert_eq | reflexivity
         | exact Hall | exact Hquiet].
    + unfold on_close_schedule, bind, gets in Hf.
      rewrite (has_bridge_absent (ws_clientId k) (put a b1 s1)) in Hf
        by (simpl; rewrite Hc; exact Hreg).
      simpl in Hf. injection Hf as <-. exact Hs2.
  - apply Hgen. discriminate.
  - simpl in Hen. destruct (timers s !! t) as [tm |] eqn:Htm; [| discriminate].
    destruct (decide (timer_clientId tm = c)) as [Hc | Hne];
      [| apply Hgen; simpl; rewrite Htm; intros c' [= <-]; exact Hne].
    destruct (session_object _ _ _ Hs) as [b Hb].
    destruct (session_timer _ _ _ Hs b t tm Hb Htm Hc) as (Hreg & Hrt & Hall).
    simpl in Hf. unfold bind at 1, gets in Hf. rewrite Htm in Hf.
    unfold bind at 1, modify, on_timer, bind at 1, gets in Hf.
    assert (Hhas : has_bridge (timer_clientId tm) (set_timers (delete t) s) = true).
    { unfold has_bridge. apply bool_decide_eq_true. simpl. rewrite Hc, Hreg. eauto. }
    rewrite Hhas, Hc in Hf.
    apply (session_connectToGateway rt c a (set_timers (delete t) s) s');
      [| exact Hreg | exact Hall | | exact Hf].
    + apply (stable_cancel _ _ _ _ _ St t s Hs).
    + intros t' tm' Htm' Hc'. simpl in Htm'.
      apply lookup_delete_Some in Htm' as [Hne Htm'].
      destruct (session_timer _ _ _ Hs b t' tm' Hb Htm' Hc') as (_ & Hrt' & _).
      congruence.
  - apply Hgen. discriminate.
Qed.

Lemma creations_none (e : event) (es : list event) :
  creations c (e :: es) = 0%nat → ¬ creates c e ∧ creations c es = 0%nat.
Proof.
  destruct e as [c0 cb | | | | | | | | |]; simpl; try (intros H; tauto).
  destruct (String.eqb_spec c0 c) as [-> | Hne]; [discriminate | tauto].
Qed.

Lemma exec_one_session (fuel : nat) (es : list event) :
  ∀ s s',
    exec rt fuel es s = Some s' →
    (unused c s ∧ (creations c es ≤ 1)%nat)
    ∨ ((∃ a, session c a s) ∧ creations c es = 0%nat) →
    unused c s' ∨ ∃ a, session c a s'.
Proof.
  induction es as [| e es IH]; intros s s' Hex Hs.
  - simpl in Hex. injection Hex as <-. destruct Hs as [[Hs _] | [Hs _]]; auto.
  - simpl in Hex. destruct (enabled e s) eqn:Hen; [| discriminate].
    destruct (final (run rt fuel e s)) as [s1 |] eqn:Hf; [| discriminate].
    apply (IH s1 s' Hex).
    destruct Hs as [[Hs Hn] | [[a Hs] Hn]].
    + assert (Hdec : creates c e ∨ ¬ creates c e).
      { destruct e as [c0 cb | | | | | | | | |]; simpl; try tauto.
        destruct (decide (c0 = c)); tauto. }
      destruct Hdec as [Hyes | Hno].
      * destruct e as [c0 cb | | | | | | | | |]; try contradiction.
        simpl in Hyes. subst c0. simpl in Hn, Hf. rewrite String.eqb_refl in Hn.
        right. split; [| lia]. exists (next_addr s).
        apply (createBridge_starts_session cb s s1 Hs Hf).
      * left. split; [apply (run_keeps_unused fuel e s s1 Hno Hs Hf) |].
        destruct e as [c0 cb | | | | | | | | |]; simpl in Hn; try exact Hn.
        destruct (String.eqb c0 c); lia.
    + destruct (creations_none e es Hn) as [Hno Hn'].
      right. split; [| exact Hn']. exists a.
      apply (run_keeps_session a fuel e s s1 Hen Hno Hs Hf).
Qed.

Lemma unused_single (s : state) : unused c s → single_session c s.
Proof.
  intros [U1 U2 U3 U4]. split; [| split].
  - intros w1 k1 w2 k2 H1 _ Hc1. destruct (U2 w1 k1 H1) as [Hne _]. contradiction.
  - intros a b Hf. rewrite (find_bridge_absent _ _ U1) in Hf. discriminate.
  - intros t tm Htm Hc. destruct (U3 t tm Htm Hc).
Qed.

Lemma session_single (a : nat) (s : state) : session c a s → single_session c s.
Proof.
  intros Hs. pose proof Hs as [S1 S2 S3 S4 S5 S6 S7 S8]. split; [| split].
  - exact S5.
  - intros a' b Hf Hauth. destruct (find_bridge_heap _ _ _ _ Hf) as [Hreg Hb].
    pose proof (S1 a' Hreg) as ->.
    destruct (S7 b Hb Hauth) as (w & k & Hk & Hc & Ht).
    exists w, k. destruct (S4 w k Hk (or_introl Hc)) as (_ & Ha & _). auto.
  - intros t tm Htm Hc. destruct S6 as [b Hb].
    destruct (S8 b t tm Hb Htm Hc) as (Hreg & Hrt & Hall).
    split; [rewrite Hreg; eauto | split; [exact Hall |]].
    intros t' tm' Htm' Hc'.
    destruct (S8 b t' tm' Hb Htm' Hc') as (_ & Hrt' & _). congruence.
Qed.

End OneSession.

(** X25.  One session per client id.  In every run from the initial state
    in which [createBridge] is called at most once for a client id, at most
    one socket made for that id is not closed; the bridge registered under
    the id is authenticated only while a socket made for the id, with its
    listeners on that very bridge object, is open or closing; and a
    reconnect timer is pending for the id only while the id is registered
    and every socket made for it is closed, and then it is the only one. *)
Theorem one_session_per_client (rt : Runtime) (identity : option DeviceIdentity)
    (now : Z) (fuel : nat) (c : string) (es : list event) (s : state) :
  exec rt fuel es (initial identity now) = Some s →
  (creations c es ≤ 1)%nat →
  (∀ w1 k1 w2 k2,
     sockets s !! w1 = Some k1 → sockets s !! w2 = Some k2 →
     ws_clientId k1 = c → ws_clientId k2 = c →
     readyState k1 ≠ CLOSED → readyState k2 ≠ CLOSED → w1 = w2)
  ∧ (∀ a b, find_bridge c s = Some (a, b) → authenticated b = true →
            ∃ w k, sockets s !! w = Some k ∧ ws_clientId k = c
                   ∧ ws_bridge k = a ∧ talking k)
  ∧ (∀ t tm, timers s !! t = Some tm → timer_clientId tm = c →
             is_Some (bridges s !! c)
             ∧ (∀ w k, sockets s !! w = Some k → ws_clientId k = c →
                       readyState k = CLOSED)
             ∧ (∀ t' tm', timers s !! t' = Some tm' →
                          timer_clientId tm' = c → t' = t)).
Proof.
  intros Hex Hn.
  assert (Hstart : unused c (initial identity now)).
  { split.
    - apply lookup_empty.
    - intros w k Hk. simpl in Hk. rewrite lookup_empty in Hk. discriminate.
    - intros t tm Htm. simpl in Htm. rewrite lookup_empty in Htm. discriminate.
    - intros c' a Hc'. simpl in Hc'. rewrite lookup_empty in Hc'. discriminate. }
  destruct (exec_one_session rt c fuel es _ s Hex (or_introl (conj Hstart Hn)))
    as [Hs | [a Hs]].
  - apply (unused_single c s Hs).
  - apply (session_single c a s Hs).
Qed.

Lemma one_session_per_client_witness :
  let s := after demo_reconnect demo_start in
  (∀ w1 k1 w2 k2,
     sockets s !! w1 = Some k1 → sockets s !! w2 = Some k2 →
     ws_clientId k1 = "c1" → ws_clientId k2 = "c1" →
     readyState k1 ≠ CLOSED → readyState k2 ≠ CLOSED → w1 = w2)
  ∧ (∃ w k, sockets s !! w = Some k ∧ ws_clientId k = "c1"
            ∧ ws_bridge k = 0%nat ∧ talking k).
Proof.
  intros s.
  assert (Hrun : exec demo_runtime 8 demo_reconnect (initial (Some demo_identity) 1000)
                 = Some s) by (vm_compute; reflexivity).
  assert (Hn : (creations "c1" demo_reconnect ≤ 1)%nat) by (vm_compute; lia).
  assert (Hf : find_bridge "c1" s
               = Some (0%nat, mkBridge (Some 1%nat) 0 (Some 0%nat) true [] None))
    by (vm_compute; reflexivity).
  destruct (one_session_per_client demo_runtime (Some demo_identity) 1000 8 "c1"
              demo_reconnect s Hrun Hn) as (Hone & Hflag & _).
  split; [exact Hone | exact (Hflag _ _ Hf eq_refl)].
Defined.

(* ===================================================================== *)
(** ** The earlier revision: nothing is queued, frames follow the socket *)
(* ===================================================================== *)

Section LegacyFacts.

Context (rt : Runtime).

Lemma legacy_find_bridge_heap (c : string) (s : Legacy.state) (a : nat)
    (b : Legacy.BridgeConnection) :
  Legacy.find_bridge c s = Some (a, b) →
  Legacy.bridges s !! c = Some a ∧ Legacy.heap s !! a = Some b.
Proof.
  unfold Legacy.find_bridge.
  destruct (Legacy.bridges s !! c) as [a' |]; [| discriminate].
  destruct (Legacy.heap s !! a') as [b' |] eqn:Hb; [| discriminate].
  intros [= -> ->]. split; [reflexivity | exact Hb].
Qed.

(** Calls of [sendMessage] for a bridge whose socket is missing or not
    open change nothing. *)
Lemma legacy_sends_dropped (c : string) (a : nat) (b : Legacy.BridgeConnection)
    (l : list jsval) (es : list event)
    (s : Legacy.state) :
  Legacy.find_bridge c s = Some (a, b) →
  match Legacy.ws b with
  | Some w => Legacy.is_open w s = false
  | None => True
  end →
  Legacy.exec rt (List.map (SendMessage c) l ++ es) s = Legacy.exec rt es s.
Proof.
  intros Hf Hw. induction l as [| m l IH]; [reflexivity |].
  cbn [List.map app Legacy.exec Legacy.enabled Legacy.run].
  assert (Hsame : Legacy.sendMessage c m s = s).
  { unfold Legacy.sendMessage. rewrite Hf.
    destruct (Legacy.ws b) as [w |]; [rewrite Hw |]; reflexivity. }
  rewrite Hsame. exact IH.
Qed.

End LegacyFacts.

(** X26.  The earlier revision queues nothing.  When the socket of a
    registered bridge closes, every message submitted until the socket
    made by the reconnect timer has opened is dropped: the run ends as if
    the messages had never been submitted, the only frame sent being the
    history request [{type: 'history', limit: 50}] made when the new socket
    opens. *)
Theorem legacy_drops_messages_while_down (rt : Runtime) (w : nat)
    (k : WebSocket) (b : Legacy.BridgeConnection) (ms1 ms2 : list jsval)
    (s : Legacy.state) :
  Legacy.sockets s !! w = Some k →
  Legacy.find_bridge (ws_clientId k) s = Some (ws_bridge k, b) →
  readyState k ≠ CLOSED →
  socket_ctor_ok rt = true →
  let c := ws_clientId k in
  let t := Legacy.next_timer s in
  let w2 := Legacy.next_socket s in
  ∃ s',
    Legacy.exec rt
      ([SocketClose w] ++ List.map (SendMessage c) ms1
       ++ [Tick 5000; TimerFire t] ++ List.map (SendMessage c) ms2
       ++ [SocketOpen w2]) s = Some s'
    ∧ Legacy.exec rt [SocketClose w; Tick 5000; TimerFire t; SocketOpen w2] s
      = Some s'
    ∧ Legacy.trace s'
      = Legacy.trace s
        ++ [TimerSet t c 5000; SocketCreated w2 c; Sent w2 Legacy.initial_history]
    ∧ Legacy.find_bridge c s'
      = Some (ws_bridge k, Legacy.mkBridge (Some w2) (Legacy.onMessage b) (Some t)).
Proof.
  intros Hk Hf Hl Hctor c t w2.
  assert (Ec : ws_clientId k = c) by reflexivity.
  assert (Et : Legacy.next_timer s = t) by reflexivity.
  assert (Ew : Legacy.next_socket s = w2) by reflexivity.
  clearbody c t w2. remember (ws_bridge k) as a eqn:Ea. rewrite Ec in Hf.
  destruct (legacy_find_bridge_heap _ _ _ _ Hf) as [Hreg Hb].
  (* the socket closes *)
  set (s1 := Legacy.run rt (SocketClose w) s).
  assert (Hen1 : Legacy.enabled (SocketClose w) s = true).
  { simpl. rewrite Hk. destruct (readyState k); try reflexivity. congruence. }
  assert (Hs1 : s1 = Legacy.set_heap
                       (insert a (Legacy.mkBridge None (Legacy.onMessage b) (Some t)))
                       (Legacy.log_effect (TimerSet t c 5000)
                          (Legacy.set_timers
                             (insert t (mkTimer c (Legacy.clock s + 5000)))
                             (Legacy.set_next_timer (S t)
                                (Legacy.set_sockets
                                   (alter (with_readyState CLOSED) w) s))))).
  { subst s1. cbn [Legacy.run]. rewrite Hk. unfold Legacy.on_close.
    rewrite Ec, <- Ea.
    assert (Hhas : Legacy.has_bridge c
                     (Legacy.update a (Legacy.with_ws None)
                        (Legacy.set_sockets (alter (with_readyState CLOSED) w) s))
                   = true).
    { unfold Legacy.has_bridge. apply bool_decide_eq_true. simpl.
      rewrite Hreg. eauto. }
    rewrite Hhas. unfold Legacy.update, Legacy.set_heap. simpl. rewrite Et.
    f_equal. apply map_eq. intros i. rewrite !lookup_alter, lookup_insert.
    repeat case_decide; subst; try congruence; rewrite ?Hb; reflexivity. }
  assert (Hf1 : Legacy.find_bridge c s1
                = Some (a, Legacy.mkBridge None (Legacy.onMessage b) (Some t))).
  { rewrite Hs1. unfold Legacy.find_bridge. simpl. rewrite Hreg, lookup_insert_eq.
    reflexivity. }
  (* time passes and the timer makes a new socket *)
  set (s2 := Legacy.run rt (TimerFire t) (Legacy.run rt (Tick 5000) s1)).
  assert (Hen2 : Legacy.enabled (Tick 5000) s1 = true) by reflexivity.
  assert (Hen3 : Legacy.enabled (TimerFire t) (Legacy.run rt (Tick 5000) s1) = true).
  { rewrite Hs1. simpl. rewrite lookup_insert_eq. simpl. apply Z.leb_refl. }
  assert (Hs2 : Legacy.find_bridge c s2
                = Some (a, Legacy.mkBridge (Some w2) (Legacy.onMessage b) (Some t))
                ∧ Legacy.sockets s2 !! w2 = Some (mkSocket c a CONNECTING)
                ∧ Legacy.trace s2
                  = Legacy.trace s ++ [TimerSet t c 5000; SocketCreated w2 c]).
  { subst s2. rewrite Hs1. cbn [Legacy.run]. simpl. rewrite lookup_insert_eq.
    unfold Legacy.on_timer, Legacy.has_bridge. simpl.
    rewrite bool_decide_eq_true_2 by (rewrite Hreg; eauto).
    unfold Legacy.connectToGateway, Legacy.find_bridge. simpl.
    rewrite Hreg, lookup_insert_eq, Hctor. simpl. rewrite Ew.
    rewrite Hreg, lookup_alter. destruct (decide (a = a)); [| congruence].
    rewrite !lookup_insert_eq. simpl. rewrite <- app_assoc.
    repeat split; reflexivity. }
  destruct Hs2 as (Hf2 & Hk2 & Htr2).
  (* the new socket opens *)
  assert (Hen4 : Legacy.enabled (SocketOpen w2) s2 = true).
  { simpl. rewrite Hk2. reflexivity. }
  destruct (legacy_find_bridge_heap _ _ _ _ Hf2) as [Hreg2 Hb2].
  set (s3 := Legacy.run rt (SocketOpen w2) s2).
  assert (Hs3 : Legacy.trace s3
                = Legacy.trace s2 ++ [Sent w2 Legacy.initial_history]
                ∧ Legacy.find_bridge c s3
                  = Some (a, Legacy.mkBridge (Some w2) (Legacy.onMessage b) (Some t))).
  { subst s3. cbn [Legacy.run]. rewrite Hk2. unfold Legacy.on_open.
    cbn [ws_clientId ws_bridge].
    set (s2' := Legacy.update a _ _).
    assert (Hf2' : Legacy.find_bridge c s2'
                   = Some (a, Legacy.mkBridge (Some w2) (Legacy.onMessage b) (Some t))).
    { subst s2'. unfold Legacy.find_bridge, Legacy.update. simpl.
      rewrite Hreg2, lookup_alter. destruct (decide (a = a)); [| congruence].
      rewrite Hb2. reflexivity. }
    assert (Ho : Legacy.is_open w2 s2' = true).
    { subst s2'. unfold Legacy.is_open, Legacy.update. simpl.
      rewrite lookup_alter. destruct (decide (w2 = w2)); [| congruence].
      rewrite Hk2. reflexivity. }
    unfold Legacy.sendMessage. rewrite Hf2'. cbn [Legacy.ws]. rewrite Ho.
    split; [reflexivity | exact Hf2']. }
  destruct Hs3 as (Htr3 & Hf3).
  exists s3.
  assert (Hshort : Legacy.exec rt [SocketClose w; Tick 5000; TimerFire t;
                                   SocketOpen w2] s = Some s3).
  { cbn [Legacy.exec]. rewrite Hen1. fold s1. rewrite Hen2, Hen3. fold s2.
    rewrite Hen4. reflexivity. }
  split; [| split; [exact Hshort | split; [| exact Hf3]]].
  - cbn [app Legacy.exec]. rewrite Hen1. fold s1.
    rewrite (legacy_sends_dropped rt c a _ ms1 _ s1 Hf1 I).
    cbn [app Legacy.exec]. rewrite Hen2, Hen3. fold s2.
    rewrite (legacy_sends_dropped rt c a _ ms2 _ s2 Hf2).
    + cbn [Legacy.exec]. rewrite Hen4. reflexivity.
    + cbn [Legacy.ws]. unfold Legacy.is_open. rewrite Hk2. reflexivity.
  - rewrite Htr3, Htr2, <- app_assoc. reflexivity.
Qed.

Lemma legacy_drops_messages_while_down_witness :
  ∃ s',
    Legacy.exec demo_runtime
      [SocketClose 0; SendMessage "c1" (client_message "one"); Tick 5000;
       TimerFire 0; SendMessage "c1" (client_message "two"); SocketOpen 1]
      legacy_connected = Some s'
    ∧ Legacy.trace s'
      = [SocketCreated 0 "c1"; Sent 0 Legacy.initial_history;
         TimerSet 0 "c1" 5000; SocketCreated 1 "c1";
         Sent 1 Legacy.initial_history].
Proof.
  assert (Hk : Legacy.sockets legacy_connected !! 0%nat
               = Some (mkSocket "c1" 0 OPEN)) by (vm_compute; reflexivity).
  assert (Hf : Legacy.find_bridge "c1" legacy_connected
               = Some (0%nat, Legacy.mkBridge (Some 0%nat) 7 None))
    by (vm_compute; reflexivity).
  destruct (legacy_drops_messages_while_down demo_runtime 0
              (mkSocket "c1" 0 OPEN) (Legacy.mkBridge (Some 0%nat) 7 None)
              [client_message "one"] [client_message "two"] legacy_connected
              Hk Hf ltac:(discriminate) eq_refl)
    as (s' & Hrun & _ & Htr & _).
  exists s'. split; [exact Hrun | rewrite Htr; vm_compute; reflexivity].
Defined.

Section LegacyFrames.

Context (rt : Runtime).

(** [closeBridge] leaves the objects alone and closes no socket for good. *)
Lemma legacy_closeBridge_keeps (c : string) (s : Legacy.state) :
  let s1 := Legacy.closeBridge rt c s in
  Legacy.heap s1 = Legacy.heap s
  ∧ Legacy.next_addr s1 = Legacy.next_addr s
  ∧ Legacy.next_socket s1 = Legacy.next_socket s
  ∧ ∀ w k, Legacy.sockets s !! w = Some k →
           ∃ k', Legacy.sockets s1 !! w = Some k'
                 ∧ ws_clientId k' = ws_clientId k
                 ∧ ws_bridge k' = ws_bridge k
                 ∧ (readyState k = OPEN →
                    readyState k' = OPEN ∨ readyState k' = CLOSING).
Proof.
  cbv zeta. unfold Legacy.closeBridge.
  destruct (Legacy.find_bridge c s) as [[a b] |] eqn:Hf.
  - assert (Hsock : ∀ w0 w k, Legacy.sockets s !! w = Some k →
              ∃ k', alter closing w0 (Legacy.sockets s) !! w = Some k'
                    ∧ ws_clientId k' = ws_clientId k
                    ∧ ws_bridge k' = ws_bridge k
                    ∧ (readyState k = OPEN →
                       readyState k' = OPEN ∨ readyState k' = CLOSING)).
    { intros w0 w k Hk. rewrite lookup_alter.
      destruct (decide (w0 = w)) as [-> |]; [| exists k; auto].
      rewrite Hk. exists (closing k). unfold closing.
      destruct (readyState k) eqn:Hr; simpl; rewrite ?Hr; auto; try discriminate. }
    destruct (Legacy.reconnectTimeout b) as [t |];
      destruct (Legacy.ws b) as [w0 |]; try destruct (close_throws rt w0);
      simpl; repeat split;
      intros w k Hk; first [apply (Hsock w0 w k Hk) | exists k; auto].
  - repeat split. intros w k Hk. exists k. auto.
Qed.

End LegacyFrames.

(** X27.  In the earlier revision a frame follows its socket.  Every frame
    that parses goes, as it is, to the callback of the bridge object the
    socket was made for; one that does not parse is dropped.  The registry
    is not consulted: after [closeBridge] the frames still arriving on the
    closing socket are delivered to the callback of the closed bridge, and
    after a second [createBridge] for the same id they go to the first
    callback, not to the one just registered. *)
Theorem legacy_frames_follow_the_socket (rt : Runtime) (w : nat) (k : WebSocket)
    (b : Legacy.BridgeConnection) (cb : nat) (m : jsval) (s : Legacy.state) :
  Legacy.sockets s !! w = Some k →
  Legacy.find_bridge (ws_clientId k) s = Some (ws_bridge k, b) →
  readyState k = OPEN →
  (ws_bridge k < Legacy.next_addr s)%nat →
  (w < Legacy.next_socket s)%nat →
  let c := ws_clientId k in
  let delivered s' :=
    Legacy.enabled (SocketMessage w (Some m)) s' = true
    ∧ Legacy.run rt (SocketMessage w (Some m)) s'
      = Legacy.log_effect (Notified c (Legacy.onMessage b) m) s' in
  Legacy.run rt (SocketMessage w None) s = s
  ∧ delivered s
  ∧ (Legacy.find_bridge c (Legacy.closeBridge rt c s) = None
     ∧ delivered (Legacy.closeBridge rt c s))
  ∧ (Legacy.find_bridge c (Legacy.createBridge rt c cb s)
     = Some (Legacy.next_addr s,
             Legacy.mkBridge
               (if socket_ctor_ok rt then Some (Legacy.next_socket s) else None)
               cb None)
     ∧ delivered (Legacy.createBridge rt c cb s)).
Proof.
  intros Hk Hf Hopen Ha Hw c delivered.
  assert (Ec : ws_clientId k = c) by reflexivity. clearbody c.
  rewrite Ec in Hf. destruct (legacy_find_bridge_heap _ _ _ _ Hf) as [Hreg Hb].
  assert (Hdel : ∀ s' k',
            Legacy.sockets s' !! w = Some k' →
            ws_clientId k' = c → ws_bridge k' = ws_bridge k →
            readyState k' = OPEN ∨ readyState k' = CLOSING →
            Legacy.heap s' !! ws_bridge k = Some b →
            delivered s').
  { intros s' k' Hk' Hc' Hb' Hr' Hheap. subst delivered. simpl. rewrite Hk'.
    split; [destruct Hr' as [-> | ->]; reflexivity |].
    unfold Legacy.on_message. rewrite Hb', Hheap, Hc'. reflexivity. }
  destruct (legacy_closeBridge_keeps rt c s) as (Hh1 & Hn1 & Hs1 & Hsock1).
  destruct (Hsock1 w k Hk) as (k1 & Hk1 & Hc1 & Hb1 & Hr1).
  split; [simpl; rewrite Hk; reflexivity |].
  split; [apply (Hdel s k Hk Ec eq_refl (or_introl Hopen) Hb) |].
  split.
  - split.
    + unfold Legacy.closeBridge. rewrite Hf. unfold Legacy.find_bridge. simpl.
      rewrite lookup_delete_eq. reflexivity.
    + apply (Hdel _ k1 Hk1); [congruence | exact Hb1 | exact (Hr1 Hopen) |].
      rewrite Hh1. exact Hb.
  - unfold Legacy.createBridge.
    assert (Hhas : Legacy.has_bridge c s = true).
    { unfold Legacy.has_bridge. apply bool_decide_eq_true. rewrite Hreg. eauto. }
    rewrite Hhas. cbv zeta. rewrite Hn1.
    set (s1 := Legacy.closeBridge rt c s) in *.
    unfold Legacy.connectToGateway, Legacy.find_bridge. simpl.
    rewrite !lookup_insert_eq.
    destruct (socket_ctor_ok rt).
    + split.
      * unfold Legacy.find_bridge, Legacy.update. simpl.
        rewrite lookup_insert_eq, lookup_alter.
        destruct (decide (Legacy.next_addr s = Legacy.next_addr s)); [| congruence].
        rewrite lookup_insert_eq, Hs1. reflexivity.
      * apply (Hdel _ k1); [| congruence | exact Hb1 | exact (Hr1 Hopen) |].
        -- simpl. rewrite lookup_insert_ne by lia. exact Hk1.
        -- simpl. rewrite lookup_alter.
           destruct (decide (Legacy.next_addr s = ws_bridge k)); [lia |].
           rewrite lookup_insert_ne by lia. rewrite Hh1. exact Hb.
    + split.
      * unfold Legacy.find_bridge. simpl. rewrite !lookup_insert_eq. reflexivity.
      * apply (Hdel _ k1); [| congruence | exact Hb1 | exact (Hr1 Hopen) |].
        -- simpl. exact Hk1.
        -- simpl. rewrite lookup_insert_ne by lia. rewrite Hh1. exact Hb.
Qed.

Lemma legacy_frames_follow_the_socket_witness :
  let closed := Legacy.closeBridge demo_runtime "c1" legacy_connected in
  let again := Legacy.createBridge demo_runtime "c1" 8 legacy_connected in
  Legacy.run demo_runtime (SocketMessage 0 (Some tick_frame)) closed
  = Legacy.log_effect (Notified "c1" 7 tick_frame) closed
  ∧ Legacy.run demo_runtime (SocketMessage 0 (Some tick_frame)) again
    = Legacy.log_effect (Notified "c1" 7 tick_frame) again.
Proof.
  intros closed again.
  assert (Hk : Legacy.sockets legacy_connected !! 0%nat
               = Some (mkSocket "c1" 0 OPEN)) by (vm_compute; reflexivity).
  assert (Hf : Legacy.find_bridge "c1" legacy_connected
               = Some (0%nat, Legacy.mkBridge (Some 0%nat) 7 None))
    by (vm_compute; reflexivity).
  assert (Ha : (0 < Legacy.next_addr legacy_connected)%nat) by (vm_compute; lia).
  assert (Hw : (0 < Legacy.next_socket legacy_connected)%nat) by (vm_compute; lia).
  destruct (legacy_frames_follow_the_socket demo_runtime 0 (mkSocket "c1" 0 OPEN)
              (Legacy.mkBridge (Some 0%nat) 7 None) 8 tick_frame legacy_connected
              Hk Hf eq_refl Ha Hw)
    as (_ & _ & (_ & _ & Hclosed) & (_ & _ & Hagain)).
  split; [exact Hclosed | exact Hagain].
Defined.

(* ===================================================================== *)
(** ** The gateway drives the bridge service *)
(* ===================================================================== *)

Section Simulation.

Context (rt : Runtime) (cfg : Auth.Settings) (fuel : nat) (id : string).

(** What a call of the bridge service from a handler amounts to: one event
    of the service. *)
Lemma call_exec (e : event) (g : Chat.gateway) :
  enabled e (Chat.bridgeService g) = true →
  match Chat.call (run rt fuel e) g with
  | Chat.Returned g1 | Chat.Threw g1 =>
      exec rt fuel [e] (Chat.bridgeService g) = Some (Chat.bridgeService g1)
  | Chat.Hung => True
  end.
Proof.
  intros He. unfold Chat.call. cbn [exec]. rewrite He.
  destruct (run rt fuel e (Chat.bridgeService g)); simpl; auto.
Qed.

(** Every request the gateway serves is no event or one event of the
    bridge service, a [createBridge] only for a connection. *)
Lemma handle_simulates (r : Chat.request) (g : Chat.gateway) :
  Chat.permitted r g = true →
  match Chat.handle rt cfg fuel r g with
  | Chat.Returned g1 | Chat.Threw g1 =>
      ∃ es, exec rt fuel es (Chat.bridgeService g) = Some (Chat.bridgeService g1)
            ∧ (creations id es ≤ connections id [r])%nat
  | Chat.Hung => True
  end.
Proof.
  intros Hp.
  assert (Hnone : ∀ g1, Chat.bridgeService g1 = Chat.bridgeService g →
            ∃ es, exec rt fuel es (Chat.bridgeService g) = Some (Chat.bridgeService g1)
                  ∧ (creations id es ≤ connections id [r])%nat).
  { intros g1 Hg1. exists []. simpl. rewrite Hg1. split; [reflexivity | lia]. }
  assert (Hone : ∀ e g0,
            Chat.bridgeService g0 = Chat.bridgeService g →
            (creations id [e] ≤ connections id [r])%nat →
            enabled e (Chat.bridgeService g) = true →
            match Chat.call (run rt fuel e) g0 with
            | Chat.Returned g1 | Chat.Threw g1 =>
                ∃ es, exec rt fuel es (Chat.bridgeService g)
                      = Some (Chat.bridgeService g1)
                      ∧ (creations id es ≤ connections id [r])%nat
            | Chat.Hung => True
            end).
  { intros e g0 Hg0 Hn He. rewrite <- Hg0 in He.
    pose proof (call_exec e g0 He) as Hc. rewrite Hg0 in Hc.
    destruct (Chat.call (run rt fuel e) g0); eauto. }
  destruct r as [client | c | c payload | c payload | c | e]; cbn [Chat.handle].
  - unfold Chat.handleConnection. cbv zeta.
    destruct (truthy (Chat.token_of (Chat.handshake client)));
      cbn [negb]; [| apply Hnone; reflexivity].
    destruct (truthy (Auth.validateToken cfg _)); cbn [negb];
      [| apply Hnone; reflexivity].
    match goal with
    | |- context [Chat.call ?m ?g0] =>
        pose proof (Hone (CreateBridge (Chat.client_id client)
                            (length (Chat.callbacks
                               (Chat.set_authenticatedClients
                                  (insert (Chat.client_id client) true) g))))
                      g0 eq_refl) as Hc
    end.
    cbn [run] in Hc.
    match type of Hc with
    | _ → _ → match ?x with _ => _ end =>
        destruct x as [g1 | g1 |] eqn:Hcall
    end; cbn [Chat.and_then]; try exact I;
      apply Hc; try reflexivity; simpl; destruct (String.eqb _ id); lia.
  - unfold Chat.handleDisconnect.
    apply (Hone (CloseBridge c)); [reflexivity | simpl; lia | reflexivity].
  - unfold Chat.handleMessage.
    destruct (Chat.is_authenticated c g); cbn [negb]; [| apply Hnone; reflexivity].
    destruct (Chat.trimmed (get_opt payload "text")) as [text |];
      [| apply Hnone; reflexivity].
    destruct (truthy text); cbn [negb]; [| apply Hnone; reflexivity].
    pose proof (Hone (SendMessage c (JObj [("type", JStr "message"); ("text", text)]))
                  g eq_refl) as Hc.
    cbn [run] in Hc.
    match type of Hc with
    | _ → _ → match ?x with _ => _ end =>
        destruct x as [g1 | g1 |] eqn:Hcall
    end; cbn [Chat.and_then]; try exact I;
      apply Hc; try reflexivity; simpl; lia.
  - unfold Chat.handleHistory.
    destruct (Chat.is_authenticated c g); cbn [negb]; [| apply Hnone; reflexivity].
    apply (Hone (SendMessage c _)); [reflexivity | simpl; lia | reflexivity].
  - unfold Chat.handleTyping.
    destruct (Chat.is_authenticated c g); cbn [negb]; [| apply Hnone; reflexivity].
    apply (Hone (SendMessage c _)); [reflexivity | simpl; lia | reflexivity].
  - cbn [Chat.permitted] in Hp. apply andb_true_iff in Hp as [Hfrom He].
    apply (Hone e); [reflexivity | | exact He].
    destruct e; simpl in Hfrom |- *; try discriminate; lia.
Qed.

Lemma connections_cons (r : Chat.request) (rs : list Chat.request) :
  connections id (r :: rs) = (connections id [r] + connections id rs)%nat.
Proof.
  destruct r as [client | | | | |]; simpl; try reflexivity.
  destruct (String.eqb _ id); reflexivity.
Qed.

Lemma creations_app (es1 es2 : list event) :
  creations id (es1 ++ es2) = (creations id es1 + creations id es2)%nat.
Proof.
  induction es1 as [| e es1 IH]; [reflexivity |].
  destruct e as [c cb | | | | | | | | |]; simpl; try exact IH.
  destruct (String.eqb c id); simpl; rewrite IH; reflexivity.
Qed.

Lemma serve_simulates (rs : list Chat.request) :
  ∀ g g',
    Chat.serve rt cfg fuel rs g = Some g' →
    ∃ es, exec rt fuel es (Chat.bridgeService g) = Some (Chat.bridgeService g')
          ∧ (creations id es ≤ connections id rs)%nat.
Proof.
  induction rs as [| r rs IH]; intros g g' Hs.
  - simpl in Hs. injection Hs as <-. exists []. split; [reflexivity | simpl; lia].
  - cbn [Chat.serve] in Hs.
    destruct (Chat.permitted r g) eqn:Hp; [| discriminate].
    pose proof (handle_simulates r g Hp) as Hh.
    rewrite connections_cons.
    destruct (Chat.handle rt cfg fuel r g) as [g1 | g1 |]; [| | discriminate];
      destruct Hh as (es1 & Hex1 & Hn1);
      destruct (IH g1 g' Hs) as (es2 & Hex2 & Hn2);
      exists (es1 ++ es2); rewrite exec_app, Hex1, creations_app;
      (split; [exact Hex2 | lia]).
Qed.

End Simulation.

(** X28.  One upstream session per chat client.  In every run of the
    gateway from its initial state in which at most one connection comes
    with a given id (socket.io gives every connection an id of its own),
    the bridge service has at most one socket to the OpenClaw gateway that
    is not closed for that id; its bridge is authenticated only while such
    a socket, with its listeners on that bridge object, is open or closing;
    and a reconnect timer is pending for the id only while its bridge is
    registered and all its sockets are closed, and then only one. *)
Theorem gateway_one_upstream_per_client (rt : Runtime) (cfg : Auth.Settings)
    (fuel : nat) (rs : list Chat.request) (identity : option DeviceIdentity)
    (now : Z) (id : string) (g : Chat.gateway) :
  Chat.serve rt cfg fuel rs (Chat.start identity now) = Some g →
  (connections id rs ≤ 1)%nat →
  let s := Chat.bridgeService g in
  (∀ w1 k1 w2 k2,
     sockets s !! w1 = Some k1 → sockets s !! w2 = Some k2 →
     ws_clientId k1 = id → ws_clientId k2 = id →
     readyState k1 ≠ CLOSED → readyState k2 ≠ CLOSED → w1 = w2)
  ∧ (∀ a b, find_bridge id s = Some (a, b) → authenticated b = true →
            ∃ w k, sockets s !! w = Some k ∧ ws_clientId k = id
                   ∧ ws_bridge k = a ∧ talking k)
  ∧ (∀ t tm, timers s !! t = Some tm → timer_clientId tm = id →
             is_Some (bridges s !! id)
             ∧ (∀ w k, sockets s !! w = Some k → ws_clientId k = id →
                       readyState k = CLOSED)
             ∧ (∀ t' tm', timers s !! t' = Some tm' →
                          timer_clientId tm' = id → t' = t)).
Proof.
  intros Hs Hn s.
  destruct (serve_simulates rt cfg fuel id rs _ g Hs) as (es & Hex & Hle).
  assert (Hstart : unused id (initial identity now)).
  { split.
    - apply lookup_empty.
    - intros w k Hk. simpl in Hk. rewrite lookup_empty in Hk. discriminate.
    - intros t tm Htm. simpl in Htm. rewrite lookup_empty in Htm. discriminate.
    - intros c' a Hc'. simpl in Hc'. rewrite lookup_empty in Hc'. discriminate. }
  assert (Hone : (creations id es ≤ 1)%nat) by lia.
  destruct (exec_one_session rt id fuel es _ s Hex (or_introl (conj Hstart Hone)))
    as [Hu | [a Ha]].
  - apply (unused_single id s Hu).
  - apply (session_single id a s Ha).
Qed.

Lemma gateway_one_upstream_per_client_witness :
  let g := served [Chat.Connection (demo_client "c1" "jwt:chat-client");
                   Chat.Upstream (SocketOpen 0);
                   Chat.Upstream (SocketMessage 0 (Some hello_ok_frame));
                   Chat.Connection (demo_client "c2" "jwt:chat-client");
                   Chat.Upstream (SocketClose 0);
                   Chat.Upstream (Tick 5000);
                   Chat.Upstream (TimerFire 0);
                   Chat.Upstream (SocketOpen 2)] in
  (∀ w1 k1 w2 k2,
     sockets (Chat.bridgeService g) !! w1 = Some k1 →
     sockets (Chat.bridgeService g) !! w2 = Some k2 →
     ws_clientId k1 = "c1" → ws_clientId k2 = "c1" →
     readyState k1 ≠ CLOSED → readyState k2 ≠ CLOSED → w1 = w2)
  ∧ sockets (Chat.bridgeService g) !! 2%nat = Some (mkSocket "c1" 0 OPEN)
  ∧ sockets (Chat.bridgeService g) !! 0%nat = Some (mkSocket "c1" 0 CLOSED).
Proof.
  intros g.
  assert (Hs : Chat.serve demo_runtime demo_settings 8
                 [Chat.Connection (demo_client "c1" "jwt:chat-client");
                  Chat.Upstream (SocketOpen 0);
                  Chat.Upstream (SocketMessage 0 (Some hello_ok_frame));
                  Chat.Connection (demo_client "c2" "jwt:chat-client");
                  Chat.Upstream (SocketClose 0);
                  Chat.Upstream (Tick 5000);
                  Chat.Upstream (TimerFire 0);
                  Chat.Upstream (SocketOpen 2)]
                 (Chat.start (Some demo_identity) 1000) = Some g)
    by (vm_compute; reflexivity).
  assert (Hn : (connections "c1"
                  [Chat.Connection (demo_client "c1" "jwt:chat-client");
                   Chat.Upstream (SocketOpen 0);
                   Chat.Upstream (SocketMessage 0 (Some hello_ok_frame));
                   Chat.Connection (demo_client "c2" "jwt:chat-client");
                   Chat.Upstream (SocketClose 0);
                   Chat.Upstream (Tick 5000);
                   Chat.Upstream (TimerFire 0);
                   Chat.Upstream (SocketOpen 2)] ≤ 1)%nat)
    by (vm_compute; lia).
  destruct (gateway_one_upstream_per_client demo_runtime demo_settings 8 _
              (Some demo_identity) 1000 "c1" g Hs Hn) as (Hone & _).
  split; [exact Hone | split; vm_compute; reflexivity].
Defined.

(** X29.  A disconnect is final.  In every state the gateway can reach,
    [handleDisconnect] returns; the reconnect timer of the client's bridge
    is no longer pending and its socket, unless [close()] threw, is no
    longer open; and from then on, as long as no connection with that id
    is let in, the id is not marked authenticated, no bridge is registered
    under it, the bridge service makes no socket, timer or notification for
    it, and the gateway emits nothing to it but [error]. *)
Theorem handleDisconnect_is_final (rt : Runtime) (cfg : Auth.Settings)
    (fuel : nat) (id : string) (before : list Chat.request)
    (identity : option DeviceIdentity) (now : Z) (g0 : Chat.gateway) :
  Chat.serve rt cfg fuel before (Chat.start identity now) = Some g0 →
  ∃ g,
    Chat.handleDisconnect rt id g0 = Chat.Returned g
    ∧ (∀ a b, find_bridge id (Chat.bridgeService g0) = Some (a, b) →
         (∀ t, reconnectTimeout b = Some t →
               timers (Chat.bridgeService g) !! t = None)
         ∧ (∀ w, ws b = Some w → close_throws rt w = false →
                 is_open w (Chat.bridgeService g) = false))
    ∧ ∀ rs g',
        Forall (fun r => ¬ admits cfg id r) rs →
        Chat.serve rt cfg fuel rs g = Some g' →
        Chat.is_authenticated id g' = false
        ∧ bridges (Chat.bridgeService g') !! id = None
        ∧ (∃ new, trace (Chat.bridgeService g')
                  = trace (Chat.bridgeService g) ++ new
                  ∧ Forall (effect_allowed (fun c => c ≠ id)) new)
        ∧ (∃ out, Chat.outbox g' = Chat.outbox g ++ out
                  ∧ Forall (refusal id) out).
Proof.
  intros Hs0.
  pose proof (serve_sound rt cfg fuel before _ g0 (start_sound identity now) Hs0)
    as (Hlive & _).
  destruct (closeBridge_summary rt id (Chat.bridgeService g0) Hlive)
    as (s' & Hrun & _ & Hb & _ & _ & _ & Hclosed & _).
  unfold Chat.handleDisconnect, Chat.call.
  cbn [Chat.bridgeService Chat.set_authenticatedClients]. rewrite Hrun.
  eexists. split; [reflexivity |]. split; [exact Hclosed |].
  intros rs g' Hrs Hs.
  match type of Hs with
  | Chat.serve _ _ _ _ ?g = _ =>
      assert (Hg : outside id (trace (Chat.bridgeService g)) (Chat.outbox g) g)
  end.
  { split; [| split; [split |]].
    - unfold Chat.is_authenticated. simpl. rewrite lookup_delete_eq. reflexivity.
    - simpl. rewrite Hb. apply lookup_delete_eq.
    - exists []. rewrite app_nil_r. split; [reflexivity | constructor].
    - exists []. rewrite app_nil_r. split; [reflexivity | constructor]. }
  destruct (serve_keeps_outside rt cfg id _ _ fuel rs _ g' Hrs Hg Hs)
    as (Hauth' & (Habs' & Htr) & Hout).
  auto.
Qed.

Lemma handleDisconnect_is_final_witness :
  let g0 := served [Chat.Connection (demo_client "c1" "jwt:chat-client");
                    Chat.Upstream (SocketOpen 0)] in
  ∃ g, Chat.handleDisconnect demo_runtime "c1" g0 = Chat.Returned g
       ∧ is_open 0 (Chat.bridgeService g) = false.
Proof.
  intros g0.
  assert (Hs0 : Chat.serve demo_runtime demo_settings 8
                  [Chat.Connection (demo_client "c1" "jwt:chat-client");
                   Chat.Upstream (SocketOpen 0)]
                  (Chat.start (Some demo_identity) 1000) = Some g0)
    by (vm_compute; reflexivity).
  assert (Hf : find_bridge "c1" (Chat.bridgeService g0)
               = Some (0%nat, mkBridge (Some 0%nat) 0 None false [] None))
    by (vm_compute; reflexivity).
  destruct (handleDisconnect_is_final demo_runtime demo_settings 8 "c1" _
              (Some demo_identity) 1000 g0 Hs0) as (g & Hg & Hclosed & _).
  exists g. split; [exact Hg |].
  apply (proj2 (Hclosed _ _ Hf) 0%nat eq_refl eq_refl).
Defined.
